(** * Appointment booking of the dental-clinic manager

    A shallow embedding of the appointment server actions
    ([src/lib/actions], "Appointment Management Server Actions"), of the
    appointment schema they validate against ([AppointmentSchema],
    [CreateAppointmentSchema], [UpdateAppointmentSchema]) and of the tables
    they read and write ([database/schema.sql]), followed by the properties
    of the time codec, the conflict checker and the booking writer. *)

From Stdlib Require Import ZArith Ascii String DecimalString DecimalZ Lia.
From stdpp Require Import base option list strings gmap.

Local Open Scope Z_scope.

(** ** The JavaScript built-ins the actions rely on *)

Module JS.

(** [Number.prototype.toString] on an integer: decimal digits, a leading
    minus sign for negative values. *)
Definition toString (n : Z) : string :=
  NilZero.string_of_int (Z.to_int n).

Fixpoint repeat_char (n : nat) (c : ascii) : string :=
  match n with
  | O => EmptyString
  | S k => String c (repeat_char k c)
  end.

(** [String.prototype.padStart(n, c)] with a one-character filler. *)
Definition padStart (n : nat) (c : ascii) (s : string) : string :=
  repeat_char (n - String.length s) c +:+ s.

(** [String.prototype.split(sep)] with a one-character separator: the
    result is never empty, the empty string splits into one empty piece. *)
Fixpoint split (sep : ascii) (s : string) : list string :=
  match s with
  | EmptyString => [EmptyString]
  | String c rest =>
      if Ascii.eqb c sep then EmptyString :: split sep rest
      else match split sep rest with
           | piece :: pieces => String c piece :: pieces
           | [] => [String c EmptyString]
           end
  end.

Definition digit (c : ascii) : option Z :=
  let n := Z.of_N (N_of_ascii c) in
  if (48 <=? n) && (n <=? 57) then Some (n - 48) else None.

Fixpoint digits (acc : Z) (s : string) : option Z :=
  match s with
  | EmptyString => Some acc
  | String c rest =>
      match digit c with
      | Some d => digits (10 * acc + d) rest
      | None => None
      end
  end.

(** A JavaScript number as the codec meets it: an integer, or [NaN]
    ([None]).  [Number(s)] is modelled on the decimal integer literals,
    which is what the pieces of a [TIME] column value and of the codec's
    own output are: the empty string is 0, an optional sign is followed by
    at least one digit.  Every other string is mapped to [NaN]; where the
    model yields a number, [Number(s)] is that number.  The integers stand
    for the doubles of the same value: [Number] and the arithmetic below
    are the source's on the integers of magnitude up to 2^53, beyond which
    the source rounds. *)
Definition Number (s : string) : option Z :=
  match s with
  | EmptyString => Some 0
  | String c rest =>
      if Ascii.eqb c "-" then
        match rest with
        | EmptyString => None
        | _ => Z.opp <$> digits 0 rest
        end
      else if Ascii.eqb c "+" then
        match rest with
        | EmptyString => None
        | _ => digits 0 rest
        end
      else digits 0 s
  end.

(** Arithmetic and comparisons propagate [NaN]: every comparison with
    [NaN] is false. *)
Definition mul (a b : option Z) : option Z :=
  x ← a; y ← b; Some (x * y).
Definition add (a b : option Z) : option Z :=
  x ← a; y ← b; Some (x + y).
Definition lt (a b : option Z) : bool :=
  match a, b with Some x, Some y => x <? y | _, _ => false end.
Definition le (a b : option Z) : bool :=
  match a, b with Some x, Some y => x <=? y | _, _ => false end.
Definition gt (a b : option Z) : bool := lt b a.
Definition ge (a b : option Z) : bool := le b a.

(** [x || y] on strings: the empty string and [undefined] are falsy. *)
Definition or_else (x : option string) (y : string) : string :=
  match x with
  | Some s => if decide (s = EmptyString) then y else s
  | None => y
  end.

(** A [Date] is its time value in milliseconds since the epoch, or the
    invalid date; [new Date(ms)] is invalid beyond 8.64e15 ms. *)
Definition Date := option Z.

Definition new_Date (ms : Z) : Date :=
  if (Z.abs ms <=? 8640000000000000) then Some ms else None.

Definition ms_per_day : Z := 86400000.

(** A calendar day (the value of a [DATE] column, and the text before the
    [T] of [toISOString()]) is represented by its day number, counted from
    1970-01-01 in UTC: the text [YYYY-MM-DD] and the day number determine
    each other.  [toISOString] throws a [RangeError] on the invalid date
    ([None] here). *)
Definition toISODate (d : Date) : option Z :=
  ms ← d; Some (ms / ms_per_day).

(** [new Date(text)] on the [YYYY-MM-DD] text of a day: midnight UTC. *)
Definition Date_of_day (day : Z) : Date := new_Date (day * ms_per_day).

End JS.

(** ** Time codec *)

(** [minutesToTimeString]: [Math.floor(minutes / 60)] is the floored
    quotient, [%] is the remainder with the sign of the dividend. *)
Definition minutesToTimeString (minutes : Z) : string :=
  let hours := minutes / 60 in
  let mins := Z.rem minutes 60 in
  JS.padStart 2 "0" (JS.toString hours) +:+ ":" +:+
  JS.padStart 2 "0" (JS.toString mins) +:+ ":00".

(** [timeStringToMinutes]: the first two pieces of the split, as numbers;
    a missing piece is [undefined], which makes the sum [NaN]. *)
Definition timeStringToMinutes (timeString : string) : option Z :=
  match JS.Number <$> JS.split ":" timeString with
  | hours :: minutes :: _ => JS.add (JS.mul hours (Some 60)) minutes
  | _ => None
  end.

(** ** Appointment schema *)

Record AppointmentPrescription := {
  presc_id : string;
  prescription : string
}.

(** The form data of a booking, as the caller sends it: a field the schema
    gives a default may be absent.  Numeric fields range over the integers,
    so the schema's [int()] tests hold of them by typing. *)
Module CreateForm.
Record t := {
  patientId : string;
  staffIds : option (list string);
  treatmentId : option string;
  date : Z;
  time : Z;
  complaint : option string;
  diagnosis : option string;
  notes : option string;
  involvedTeeth : option (list Z);
  units : option Z;
  finalPrice : option Z;
  paidAmount : option Z;
  isDone : option bool;
  status : option string;
  timer : option Z;
  prescriptions : option (list AppointmentPrescription)
}.
End CreateForm.
Abbreviation CreateAppointmentFormData := CreateForm.t.

(** The parsed data of a booking: defaults filled in, [clinicId] and
    [createdBy] added by the action. *)
Module Data.
Record t := {
  clinicId : string;
  patientId : string;
  staffIds : list string;
  treatmentId : option string;
  date : Z;
  time : Z;
  complaint : option string;
  diagnosis : option string;
  notes : option string;
  involvedTeeth : list Z;
  units : Z;
  finalPrice : option Z;
  paidAmount : option Z;
  isDone : bool;
  status : string;
  timer : option Z;
  prescriptions : list AppointmentPrescription;
  createdBy : string
}.
End Data.

(** The form data of an update: [AppointmentSchema.partial()] without [id],
    [clinicId], [createdAt], [updatedAt]; every field may be absent.  The
    parsed data has the same shape. *)
Module UpdateForm.
Record t := {
  patientId : option string;
  staffIds : option (list string);
  treatmentId : option string;
  date : option Z;
  time : option Z;
  complaint : option string;
  diagnosis : option string;
  notes : option string;
  involvedTeeth : option (list Z);
  units : option Z;
  finalPrice : option Z;
  paidAmount : option Z;
  isDone : option bool;
  status : option string;
  timer : option Z;
  prescriptions : option (list AppointmentPrescription);
  createdBy : option string
}.
End UpdateForm.
Abbreviation UpdateAppointmentFormData := UpdateForm.t.

(** One issue of a failed parse: the field it is about and its message (the
    validation library's issue code stands for the message text). *)
Record ZodIssue := {
  path : string;
  message : string
}.

Definition is_hex (c : ascii) : bool :=
  let n := Z.of_N (N_of_ascii c) in
  ((48 <=? n) && (n <=? 57)) || ((65 <=? n) && (n <=? 70))
  || ((97 <=? n) && (n <=? 102)).

Fixpoint hex_run (n : nat) (s : string) : option string :=
  match n with
  | O => Some s
  | S k =>
      match s with
      | String c rest => if is_hex c then hex_run k rest else None
      | EmptyString => None
      end
  end.

Fixpoint uuid_groups (groups : list nat) (s : string) : bool :=
  match groups with
  | [] => false
  | [n] =>
      match hex_run n s with
      | Some EmptyString => true
      | _ => false
      end
  | n :: more =>
      match hex_run n s with
      | Some (String c rest) => Ascii.eqb c "-" && uuid_groups more rest
      | _ => false
      end
  end.

(** The character at position [i] passes [p]. *)
Definition char_at (i : nat) (p : ascii → bool) (s : string) : bool :=
  match String.get i s with
  | Some c => p c
  | None => false
  end.

(** [[1-8]] *)
Definition is_version_digit (c : ascii) : bool :=
  let n := Z.of_N (N_of_ascii c) in (49 <=? n) && (n <=? 56).

(** [[89abAB]] *)
Definition is_variant_digit (c : ascii) : bool :=
  let n := Z.of_N (N_of_ascii c) in
  (n =? 56) || (n =? 57) || (n =? 97) || (n =? 98) || (n =? 65) || (n =? 66).

(** [z.string().uuid()], under the validation library the module loads
    with (its schemas call [omit] on a refined schema): five groups of 8,
    4, 4, 4 and 12 hexadecimal digits joined by hyphens, the third group
    starting with a version digit and the fourth with a variant digit; the
    nil and the max UUID pass as they are. *)
Definition is_uuid (s : string) : bool :=
  (uuid_groups [8; 4; 4; 4; 12]%nat s
   && char_at 14 is_version_digit s && char_at 19 is_variant_digit s)
  || String.eqb s "00000000-0000-0000-0000-000000000000"
  || String.eqb s "ffffffff-ffff-ffff-ffff-ffffffffffff".

Definition issue (field code : string) : ZodIssue :=
  {| path := field; message := code |}.

Definition check_uuid (field s : string) : list ZodIssue :=
  if is_uuid s then [] else [issue field "invalid_string"].

Definition check_min (field : string) (lo n : Z) : list ZodIssue :=
  if lo <=? n then [] else [issue field "too_small"].

Definition check_max (field : string) (hi n : Z) : list ZodIssue :=
  if n <=? hi then [] else [issue field "too_big"].

(** [positive()]: strictly greater than zero. *)
Definition check_positive (field : string) (n : Z) : list ZodIssue :=
  if 0 <? n then [] else [issue field "too_small"].

Definition check_opt {A} (check : A → list ZodIssue) (x : option A)
  : list ZodIssue :=
  match x with
  | Some a => check a
  | None => []
  end.

Definition check_each {A} (check : A → list ZodIssue) (xs : list A)
  : list ZodIssue :=
  xs ≫= check.

Definition AppointmentStatus : list string :=
  ["scheduled"; "confirmed"; "in_progress"; "completed"; "cancelled";
   "no_show"].

Definition check_status (s : string) : list ZodIssue :=
  if decide (s ∈ AppointmentStatus) then []
  else [issue "status" "invalid_enum_value"].

(** [AppointmentPrescriptionSchema], as an element of [prescriptions]. *)
Definition check_prescription (p : AppointmentPrescription) : list ZodIssue :=
  check_uuid "prescriptions" (presc_id p) ++
  (if decide (prescription p = EmptyString)
   then [issue "prescriptions" "too_small"] else []).

Definition check_tooth (n : Z) : list ZodIssue :=
  check_min "involvedTeeth" 1 n ++ check_max "involvedTeeth" 32 n.

Definition check_time (n : Z) : list ZodIssue :=
  check_min "time" 0 n ++ check_max "time" 1439 n.

(** The issues of [CreateAppointmentSchema] on the form data extended with
    [clinicId] and [createdBy], in the order of the schema's fields. *)
Definition create_issues (f : CreateAppointmentFormData)
    (clinicId createdBy : string) : list ZodIssue :=
  check_uuid "clinicId" clinicId ++
  check_uuid "patientId" (CreateForm.patientId f) ++
  check_opt (check_each (check_uuid "staffIds")) (CreateForm.staffIds f) ++
  check_opt (check_uuid "treatmentId") (CreateForm.treatmentId f) ++
  check_positive "date" (CreateForm.date f) ++
  check_time (CreateForm.time f) ++
  check_opt (check_each check_tooth) (CreateForm.involvedTeeth f) ++
  check_opt (check_positive "units") (CreateForm.units f) ++
  check_opt check_status (CreateForm.status f) ++
  check_opt (check_each check_prescription) (CreateForm.prescriptions f) ++
  check_uuid "createdBy" createdBy.

Definition create_data (f : CreateAppointmentFormData)
    (clinicId createdBy : string) : Data.t :=
  {| Data.clinicId := clinicId;
     Data.patientId := CreateForm.patientId f;
     Data.staffIds := default [] (CreateForm.staffIds f);
     Data.treatmentId := CreateForm.treatmentId f;
     Data.date := CreateForm.date f;
     Data.time := CreateForm.time f;
     Data.complaint := CreateForm.complaint f;
     Data.diagnosis := CreateForm.diagnosis f;
     Data.notes := CreateForm.notes f;
     Data.involvedTeeth := default [] (CreateForm.involvedTeeth f);
     Data.units := default 1 (CreateForm.units f);
     Data.finalPrice := CreateForm.finalPrice f;
     Data.paidAmount := CreateForm.paidAmount f;
     Data.isDone := default false (CreateForm.isDone f);
     Data.status := default "scheduled" (CreateForm.status f);
     Data.timer := CreateForm.timer f;
     Data.prescriptions := default [] (CreateForm.prescriptions f);
     Data.createdBy := createdBy |}.

(** [CreateAppointmentSchema.safeParse]: the parsed data, or the issues. *)
Definition CreateAppointmentSchema (f : CreateAppointmentFormData)
    (clinicId createdBy : string) : Data.t + list ZodIssue :=
  match create_issues f clinicId createdBy with
  | [] => inl (create_data f clinicId createdBy)
  | issues => inr issues
  end.

Definition update_issues (f : UpdateAppointmentFormData) : list ZodIssue :=
  check_opt (check_uuid "patientId") (UpdateForm.patientId f) ++
  check_opt (check_each (check_uuid "staffIds")) (UpdateForm.staffIds f) ++
  check_opt (check_uuid "treatmentId") (UpdateForm.treatmentId f) ++
  check_opt (check_positive "date") (UpdateForm.date f) ++
  check_opt check_time (UpdateForm.time f) ++
  check_opt (check_each check_tooth) (UpdateForm.involvedTeeth f) ++
  check_opt (check_positive "units") (UpdateForm.units f) ++
  check_opt check_status (UpdateForm.status f) ++
  check_opt (check_each check_prescription) (UpdateForm.prescriptions f) ++
  check_opt (check_uuid "createdBy") (UpdateForm.createdBy f).

(** The parsed data of an update.  Under [partial()] a field that is left
    out still takes the default [AppointmentSchema] gives it: [staffIds],
    [involvedTeeth], [units], [isDone], [status] and [prescriptions] are
    never absent from the parsed data. *)
Definition update_data (f : UpdateAppointmentFormData)
  : UpdateAppointmentFormData :=
  {| UpdateForm.patientId := UpdateForm.patientId f;
     UpdateForm.staffIds := Some (default [] (UpdateForm.staffIds f));
     UpdateForm.treatmentId := UpdateForm.treatmentId f;
     UpdateForm.date := UpdateForm.date f;
     UpdateForm.time := UpdateForm.time f;
     UpdateForm.complaint := UpdateForm.complaint f;
     UpdateForm.diagnosis := UpdateForm.diagnosis f;
     UpdateForm.notes := UpdateForm.notes f;
     UpdateForm.involvedTeeth := Some (default [] (UpdateForm.involvedTeeth f));
     UpdateForm.units := Some (default 1 (UpdateForm.units f));
     UpdateForm.finalPrice := UpdateForm.finalPrice f;
     UpdateForm.paidAmount := UpdateForm.paidAmount f;
     UpdateForm.isDone := Some (default false (UpdateForm.isDone f));
     UpdateForm.status := Some (default "scheduled" (UpdateForm.status f));
     UpdateForm.timer := UpdateForm.timer f;
     UpdateForm.prescriptions :=
       Some (default [] (UpdateForm.prescriptions f));
     UpdateForm.createdBy := UpdateForm.createdBy f |}.

(** [UpdateAppointmentSchema.safeParse]: the parsed data, or the issues. *)
Definition UpdateAppointmentSchema (f : UpdateAppointmentFormData)
  : UpdateAppointmentFormData + list ZodIssue :=
  match update_issues f with
  | [] => inl (update_data f)
  | issues => inr issues
  end.

(** [error.flatten().fieldErrors]: the messages, keyed by field. *)
Definition fieldErrors_of (issues : list ZodIssue)
  : gmap string (list string) :=
  foldl (λ acc i, <[path i := default [] (acc !! path i) ++ [message i]]> acc)
        ∅ issues.

(** ** Tables ([database/schema.sql])

    Each row carries the columns the appointment actions write or read.
    Columns filled by the database alone (timestamps, reminders) are left
    out; so is the wall clock ([updated_at]) and the page cache
    ([revalidatePath]). *)

Module Appointment.
Record row := {
  id : string;
  clinic_id : string;
  patient_id : string;
  dentist_id : string;
  appointment_date : Z;
  start_time : string;
  end_time : string;
  duration_minutes : Z;
  appointment_type : string;
  chief_complaint : option string;
  notes : option string;
  status : string;
  treatments_planned : list string;
  estimated_cost : option Z;
  actual_cost : option Z;
  created_by : string
}.
End Appointment.

Module AppointmentStaff.
Record row := {
  appointment_id : string;
  staff_id : string;
  role : string
}.
End AppointmentStaff.

Module Prescription.
Record row := {
  clinic_id : string;
  appointment_id : string;
  patient_id : string;
  prescribed_by_id : string;
  medication_name : string;
  instructions : string
}.
End Prescription.

Module ActivityLog.
Record row := {
  clinic_id : string;
  user_id : string;
  action : string;
  resource_type : string;
  resource_id : string;
  old_values : option Appointment.row;
  new_values : option Appointment.row;
  description : string
}.
End ActivityLog.

Module Patient.
Record row := {
  id : string;
  clinic_id : string;
  first_name : string;
  last_name : string
}.
End Patient.

Module User.
Record row := {
  id : string;
  first_name : string;
  last_name : string
}.
End User.

Record Db := {
  appointments : list Appointment.row;
  appointment_staff : list AppointmentStaff.row;
  prescriptions : list Prescription.row;
  activity_logs : list ActivityLog.row;
  patients : list Patient.row;
  users : list User.row
}.

#[global] Instance Appointment_row_eq_dec : EqDecision Appointment.row.
Proof. solve_decision. Defined.
#[global] Instance AppointmentStaff_row_eq_dec : EqDecision AppointmentStaff.row.
Proof. solve_decision. Defined.
#[global] Instance Prescription_row_eq_dec : EqDecision Prescription.row.
Proof. solve_decision. Defined.
#[global] Instance ActivityLog_row_eq_dec : EqDecision ActivityLog.row.
Proof. solve_decision. Defined.
#[global] Instance Patient_row_eq_dec : EqDecision Patient.row.
Proof. solve_decision. Defined.
#[global] Instance User_row_eq_dec : EqDecision User.row.
Proof. solve_decision. Defined.
#[global] Instance Db_eq_dec : EqDecision Db.
Proof. solve_decision. Defined.

(** ** The storage client

    Every call of the client returns [{ data, error }].  Which calls the
    store rejects in a run is an input of the model ([fails]), and so is the
    identifier the store generates for an inserted appointment: the
    constraints of [schema.sql] are not evaluated by the model, a rejection
    on their account is a run whose [fails] flag is set. *)

Inductive Call :=
| SelectConflicts
| SelectPatient
| InsertAppointment
| InsertAppointmentStaff
| InsertPrescriptions
| InsertActivityLog
| SelectAppointment
| UpdateAppointment
| DeleteAppointmentStaff
| UpdateDentist.

#[global] Instance Call_eq_dec : EqDecision Call.
Proof. solve_decision. Defined.

Record Env := {
  fails : Call → bool;
  generated_id : string
}.

(** The authenticated context [requireAuth()] resolves to. *)
Record Auth := {
  user_id : string;
  clinicId : string
}.

(** A write whose outcome the caller may inspect: the error flag and the
    store afterwards (unchanged when the store rejects the call). *)
Definition write (env : Env) (c : Call) (apply : Db → Db) (db : Db)
  : bool * Db :=
  if fails env c then (true, db) else (false, apply db).

Definition set_appointments (rows : list Appointment.row) (db : Db) : Db :=
  {| appointments := rows;
     appointment_staff := appointment_staff db;
     prescriptions := prescriptions db;
     activity_logs := activity_logs db;
     patients := patients db;
     users := users db |}.

Definition set_appointment_staff (rows : list AppointmentStaff.row) (db : Db)
  : Db :=
  {| appointments := appointments db;
     appointment_staff := rows;
     prescriptions := prescriptions db;
     activity_logs := activity_logs db;
     patients := patients db;
     users := users db |}.

Definition set_prescriptions (rows : list Prescription.row) (db : Db) : Db :=
  {| appointments := appointments db;
     appointment_staff := appointment_staff db;
     prescriptions := rows;
     activity_logs := activity_logs db;
     patients := patients db;
     users := users db |}.

Definition set_activity_logs (rows : list ActivityLog.row) (db : Db) : Db :=
  {| appointments := appointments db;
     appointment_staff := appointment_staff db;
     prescriptions := prescriptions db;
     activity_logs := rows;
     patients := patients db;
     users := users db |}.

(** [.single()]: exactly one row, or an error. *)
Definition single {A} (rows : list A) : option A :=
  match rows with
  | [r] => Some r
  | _ => None
  end.

(** A computation that may throw. *)
Inductive completion (A : Type) :=
| Returned (a : A)
| Thrown (exn : string).
Arguments Returned {A} a.
Arguments Thrown {A} exn.

(** ** Results of the actions *)

Record AppointmentConflict := {
  appointmentId : string;
  patientName : string;
  startTime : string;
  endTime : string;
  dentistName : string
}.

Record AppointmentActionResult := {
  success : bool;
  data : option Appointment.row;
  error : option string;
  fieldErrors : option (gmap string (list string));
  conflicts : option (list AppointmentConflict)
}.

Definition succeeded (row : Appointment.row) : AppointmentActionResult :=
  {| success := true; data := Some row; error := None;
     fieldErrors := None; conflicts := None |}.

Definition failed (msg : string) : AppointmentActionResult :=
  {| success := false; data := None; error := Some msg;
     fieldErrors := None; conflicts := None |}.

Definition validation_failed (issues : list ZodIssue)
  : AppointmentActionResult :=
  {| success := false; data := None; error := Some "Validation failed";
     fieldErrors := Some (fieldErrors_of issues); conflicts := None |}.

Definition conflicts_detected (cs : list AppointmentConflict)
  : AppointmentActionResult :=
  {| success := false; data := None;
     error := Some "Appointment conflicts detected";
     fieldErrors := None; conflicts := Some cs |}.

(** What the [catch] block of an action returns. *)
Definition unexpected : AppointmentActionResult :=
  failed "An unexpected error occurred".

(** ** Conflict checker *)

(** The rows the query of [checkAppointmentConflicts] selects: the chain of
    [.eq('clinic_id')], [.eq('appointment_date')], [.neq('status')],
    [.in('dentist_id')], and [.neq('id')] when [excludeAppointmentId] is
    truthy. *)
Definition conflict_query (db : Db) (clinic : string) (day : Z)
    (staffIds : list string) (excludeAppointmentId : option string)
  : list Appointment.row :=
  let query :=
    filter (λ a, Appointment.dentist_id a ∈ staffIds)
      (filter (λ a, Appointment.status a ≠ "cancelled")
        (filter (λ a, Appointment.appointment_date a = day)
          (filter (λ a, Appointment.clinic_id a = clinic)
            (appointments db)))) in
  match excludeAppointmentId with
  | Some x =>
      if decide (x = EmptyString) then query
      else filter (λ a, Appointment.id a ≠ x) query
  | None => query
  end.

(** The embedded resources of the select: [patient:patients(...)] and
    [dentist:users!appointments_dentist_id_fkey(...)], [null] when the
    referenced row is not there. *)
Definition patient_of (db : Db) (a : Appointment.row) : option Patient.row :=
  head (filter (λ p, Patient.id p = Appointment.patient_id a) (patients db)).

Definition dentist_of (db : Db) (a : Appointment.row) : option User.row :=
  head (filter (λ u, User.id u = Appointment.dentist_id a) (users db)).

(** The overlap test of the loop body. *)
Definition overlaps (startTime endTime : string) (existing : Appointment.row)
  : bool :=
  let existingStart := timeStringToMinutes (Appointment.start_time existing) in
  let existingEnd := timeStringToMinutes (Appointment.end_time existing) in
  let newStart := timeStringToMinutes startTime in
  let newEnd := timeStringToMinutes endTime in
  (JS.ge newStart existingStart && JS.lt newStart existingEnd)
  || (JS.gt newEnd existingStart && JS.le newEnd existingEnd)
  || (JS.le newStart existingStart && JS.ge newEnd existingEnd).

Definition conflict_of (a : Appointment.row) (p : Patient.row) (d : User.row)
  : AppointmentConflict :=
  {| appointmentId := Appointment.id a;
     patientName := Patient.first_name p +:+ " " +:+ Patient.last_name p;
     startTime := Appointment.start_time a;
     endTime := Appointment.end_time a;
     dentistName := User.first_name d +:+ " " +:+ User.last_name d |}.

(** The [forEach] over the selected rows, pushing onto [conflicts]; reading
    a name off a [null] embedded resource throws a [TypeError]. *)
Fixpoint forEach_existing (db : Db) (startTime endTime : string)
    (existingAppointments : list Appointment.row)
    (conflicts : list AppointmentConflict)
  : completion (list AppointmentConflict) :=
  match existingAppointments with
  | [] => Returned conflicts
  | existing :: rest =>
      if overlaps startTime endTime existing then
        match patient_of db existing, dentist_of db existing with
        | Some p, Some d =>
            forEach_existing db startTime endTime rest
              (conflicts ++ [conflict_of existing p d])
        | _, _ => Thrown "TypeError"
        end
      else forEach_existing db startTime endTime rest conflicts
  end.

(** [checkAppointmentConflicts].  The error of the query is not read: when
    the store rejects it, [data] is [null] and the loop is skipped. *)
Definition checkAppointmentConflicts (env : Env) (db : Db) (clinic : string)
    (staffIds : list string) (date : JS.Date) (startTime endTime : string)
    (excludeAppointmentId : option string)
  : completion (list AppointmentConflict) :=
  match JS.toISODate date with
  | None => Thrown "RangeError"
  | Some day =>
      let existingAppointments :=
        if fails env SelectConflicts then None
        else Some (conflict_query db clinic day staffIds excludeAppointmentId) in
      match existingAppointments with
      | Some rows => forEach_existing db startTime endTime rows []
      | None => Returned []
      end
  end.

(** ** Booking writer: [createAppointment] *)

(** [.from('patients').select('id').eq('id', ..).eq('clinic_id', ..).single()] *)
Definition select_patient (env : Env) (db : Db) (patientId clinic : string)
  : option Patient.row :=
  if fails env SelectPatient then None
  else single (filter (λ p, Patient.clinic_id p = clinic)
                 (filter (λ p, Patient.id p = patientId) (patients db))).

(** [a[0]]: [undefined] on the empty array. *)
Definition first_of (staffIds : list string) : option string := head staffIds.

(** The row [createAppointment] hands to the insert; the store adds [id]. *)
Definition new_appointment (env : Env) (auth : Auth) (d : Data.t) (day : Z)
    (startTime endTime : string) : Appointment.row :=
  {| Appointment.id := generated_id env;
     Appointment.clinic_id := clinicId auth;
     Appointment.patient_id := Data.patientId d;
     Appointment.dentist_id :=
       JS.or_else (first_of (Data.staffIds d)) (user_id auth);
     Appointment.appointment_date := day;
     Appointment.start_time := startTime;
     Appointment.end_time := endTime;
     Appointment.duration_minutes := 60;
     Appointment.appointment_type := "consultation";
     Appointment.chief_complaint := Data.complaint d;
     Appointment.notes := Data.notes d;
     Appointment.status := Data.status d;
     Appointment.treatments_planned := [];
     Appointment.estimated_cost :=
       Some (default 0 (Data.finalPrice d));
     Appointment.actual_cost := None;
     Appointment.created_by := user_id auth |}.

(** [staffIds.slice(1).map(...)] *)
Definition staff_associations (appointment_id : string)
    (staffIds : list string) : list AppointmentStaff.row :=
  (λ staffId, {| AppointmentStaff.appointment_id := appointment_id;
                 AppointmentStaff.staff_id := staffId;
                 AppointmentStaff.role := "assistant" |}) <$> drop 1 staffIds.

Definition prescription_rows (auth : Auth) (d : Data.t)
    (appointment_id : string) : list Prescription.row :=
  (λ pres, {| Prescription.clinic_id := clinicId auth;
              Prescription.appointment_id := appointment_id;
              Prescription.patient_id := Data.patientId d;
              Prescription.prescribed_by_id :=
                JS.or_else (first_of (Data.staffIds d)) (user_id auth);
              Prescription.medication_name := prescription pres;
              Prescription.instructions := prescription pres |})
  <$> Data.prescriptions d.

Definition create_log (auth : Auth) (d : Data.t) (appointment_id : string)
  : ActivityLog.row :=
  {| ActivityLog.clinic_id := clinicId auth;
     ActivityLog.user_id := user_id auth;
     ActivityLog.action := "create";
     ActivityLog.resource_type := "appointment";
     ActivityLog.resource_id := appointment_id;
     ActivityLog.old_values := None;
     ActivityLog.new_values := None;
     ActivityLog.description :=
       "Created appointment for patient " +:+ Data.patientId d |}.

(** The writes after the appointment row: their results are awaited and
    dropped. *)
Definition cascade_create (env : Env) (auth : Auth) (d : Data.t)
    (appointment : Appointment.row) (db : Db) : Db :=
  let db1 :=
    if Nat.ltb 1 (length (Data.staffIds d)) then
      snd (write env InsertAppointmentStaff
             (λ s, set_appointment_staff
                     (appointment_staff s ++
                      staff_associations (Appointment.id appointment)
                        (Data.staffIds d)) s) db)
    else db in
  let db2 :=
    if Nat.ltb 0 (length (Data.prescriptions d)) then
      snd (write env InsertPrescriptions
             (λ s, set_prescriptions
                     (prescriptions s ++
                      prescription_rows auth d (Appointment.id appointment)) s)
             db1)
    else db1 in
  snd (write env InsertActivityLog
         (λ s, set_activity_logs
                 (activity_logs s ++
                  [create_log auth d (Appointment.id appointment)]) s) db2).

Definition createAppointment (env : Env) (auth : Auth)
    (formData : CreateAppointmentFormData) (db : Db)
  : Db * AppointmentActionResult :=
  match CreateAppointmentSchema formData (clinicId auth) (user_id auth) with
  | inr issues => (db, validation_failed issues)
  | inl appointmentData =>
      let appointmentDate := JS.new_Date (Data.date appointmentData) in
      let startTime := minutesToTimeString (Data.time appointmentData) in
      let endTime := minutesToTimeString (Data.time appointmentData + 60) in
      match checkAppointmentConflicts env db (clinicId auth)
              (Data.staffIds appointmentData) appointmentDate
              startTime endTime None with
      | Thrown _ => (db, unexpected)
      | Returned conflicts =>
          if Nat.ltb 0 (length conflicts) then
            (db, conflicts_detected conflicts)
          else
            match select_patient env db (Data.patientId appointmentData)
                    (clinicId auth) with
            | None => (db, failed "Patient not found or access denied")
            | Some _ =>
                match JS.toISODate appointmentDate with
                | None => (db, unexpected)
                | Some day =>
                    let row := new_appointment env auth appointmentData day
                                 startTime endTime in
                    match write env InsertAppointment
                            (λ s, set_appointments (appointments s ++ [row]) s)
                            db with
                    | (true, _) => (db, failed "Failed to create appointment")
                    | (false, db1) =>
                        (cascade_create env auth appointmentData row db1,
                         succeeded row)
                    end
                end
            end
      end
  end.

(** ** Booking writer: [updateAppointment] *)

(** [updateObject]: the columns the update sets. *)
Module UpdateObject.
Record t := {
  appointment_date : option Z;
  start_time : option string;
  end_time : option string;
  chief_complaint : option string;
  diagnosis : option string;
  notes : option string;
  status : option string;
  actual_cost : option Z
}.
End UpdateObject.

(** The slot of an update that names a date or a time. *)
Record Slot := {
  newDate : JS.Date;
  newStartTime : string;
  newEndTime : string
}.

Definition new_slot (updateData : UpdateAppointmentFormData)
    (existingAppointment : Appointment.row) : Slot :=
  {| newDate :=
       match UpdateForm.date updateData with
       | Some d =>
           if d =? 0
           then JS.Date_of_day (Appointment.appointment_date existingAppointment)
           else JS.new_Date d
       | None =>
           JS.Date_of_day (Appointment.appointment_date existingAppointment)
       end;
     newStartTime :=
       match UpdateForm.time updateData with
       | Some t => minutesToTimeString t
       | None => Appointment.start_time existingAppointment
       end;
     newEndTime :=
       match UpdateForm.time updateData with
       | Some t => minutesToTimeString (t + 60)
       | None => Appointment.end_time existingAppointment
       end |}.

(** The assignments to [updateObject] after the slot: [isDone] overrides
    [status]. *)
Definition update_object (updateData : UpdateAppointmentFormData)
    (slot : option (Z * Slot)) : UpdateObject.t :=
  {| UpdateObject.appointment_date := fst <$> slot;
     UpdateObject.start_time := (newStartTime ∘ snd) <$> slot;
     UpdateObject.end_time := (newEndTime ∘ snd) <$> slot;
     UpdateObject.chief_complaint := UpdateForm.complaint updateData;
     UpdateObject.diagnosis := UpdateForm.diagnosis updateData;
     UpdateObject.notes := UpdateForm.notes updateData;
     UpdateObject.status :=
       match UpdateForm.isDone updateData with
       | Some done => Some (if done then "completed" else "scheduled")
       | None => UpdateForm.status updateData
       end;
     UpdateObject.actual_cost := UpdateForm.finalPrice updateData |}.

(** The effect of the update on one row.  [diagnosis] is not a column of
    [appointments] in [schema.sql]; whether the store rejects an update
    that names it is left to [fails]. *)
Definition apply_update (u : UpdateObject.t) (a : Appointment.row)
  : Appointment.row :=
  {| Appointment.id := Appointment.id a;
     Appointment.clinic_id := Appointment.clinic_id a;
     Appointment.patient_id := Appointment.patient_id a;
     Appointment.dentist_id := Appointment.dentist_id a;
     Appointment.appointment_date :=
       default (Appointment.appointment_date a) (UpdateObject.appointment_date u);
     Appointment.start_time :=
       default (Appointment.start_time a) (UpdateObject.start_time u);
     Appointment.end_time :=
       default (Appointment.end_time a) (UpdateObject.end_time u);
     Appointment.duration_minutes := Appointment.duration_minutes a;
     Appointment.appointment_type := Appointment.appointment_type a;
     Appointment.chief_complaint :=
       match UpdateObject.chief_complaint u with
       | Some c => Some c
       | None => Appointment.chief_complaint a
       end;
     Appointment.notes :=
       match UpdateObject.notes u with
       | Some n => Some n
       | None => Appointment.notes a
       end;
     Appointment.status :=
       default (Appointment.status a) (UpdateObject.status u);
     Appointment.treatments_planned := Appointment.treatments_planned a;
     Appointment.estimated_cost := Appointment.estimated_cost a;
     Appointment.actual_cost :=
       match UpdateObject.actual_cost u with
       | Some c => Some c
       | None => Appointment.actual_cost a
       end;
     Appointment.created_by := Appointment.created_by a |}.

Definition set_dentist (dentist : string) (a : Appointment.row)
  : Appointment.row :=
  {| Appointment.id := Appointment.id a;
     Appointment.clinic_id := Appointment.clinic_id a;
     Appointment.patient_id := Appointment.patient_id a;
     Appointment.dentist_id := dentist;
     Appointment.appointment_date := Appointment.appointment_date a;
     Appointment.start_time := Appointment.start_time a;
     Appointment.end_time := Appointment.end_time a;
     Appointment.duration_minutes := Appointment.duration_minutes a;
     Appointment.appointment_type := Appointment.appointment_type a;
     Appointment.chief_complaint := Appointment.chief_complaint a;
     Appointment.notes := Appointment.notes a;
     Appointment.status := Appointment.status a;
     Appointment.treatments_planned := Appointment.treatments_planned a;
     Appointment.estimated_cost := Appointment.estimated_cost a;
     Appointment.actual_cost := Appointment.actual_cost a;
     Appointment.created_by := Appointment.created_by a |}.

(** [.update(f).eq(...)...]: [f] on the rows the filters select. *)
Definition update_where (P : Appointment.row → Prop)
    `{∀ a, Decision (P a)} (f : Appointment.row → Appointment.row)
    (rows : list Appointment.row) : list Appointment.row :=
  (λ a, if decide (P a) then f a else a) <$> rows.

(** [.from('appointments').select('*').eq('id', ..).eq('clinic_id', ..).single()] *)
Definition select_appointment (env : Env) (db : Db)
    (appointmentId clinic : string) : option Appointment.row :=
  if fails env SelectAppointment then None
  else single (filter (λ a, Appointment.clinic_id a = clinic)
                 (filter (λ a, Appointment.id a = appointmentId)
                    (appointments db))).

(** [.update(updateObject).eq('id', ..).eq('clinic_id', ..).select().single()]:
    the updated row and the store afterwards, or an error. *)
Definition update_appointment (env : Env) (db : Db)
    (appointmentId clinic : string) (u : UpdateObject.t)
  : option (Appointment.row * Db) :=
  if fails env UpdateAppointment then None
  else
    let selected :=
      filter (λ a, Appointment.clinic_id a = clinic)
        (filter (λ a, Appointment.id a = appointmentId) (appointments db)) in
    match single (apply_update u <$> selected) with
    | Some updated =>
        Some (updated,
              set_appointments
                (update_where
                   (λ a, Appointment.id a = appointmentId
                         ∧ Appointment.clinic_id a = clinic)
                   (apply_update u) (appointments db)) db)
    | None => None
    end.

Definition update_log (auth : Auth) (appointmentId : string)
    (existingAppointment updatedAppointment : Appointment.row)
  : ActivityLog.row :=
  {| ActivityLog.clinic_id := clinicId auth;
     ActivityLog.user_id := user_id auth;
     ActivityLog.action := "update";
     ActivityLog.resource_type := "appointment";
     ActivityLog.resource_id := appointmentId;
     ActivityLog.old_values := Some existingAppointment;
     ActivityLog.new_values := Some updatedAppointment;
     ActivityLog.description := "Updated appointment " +:+ appointmentId |}.

(** The writes after the appointment row is updated: the staff
    associations are replaced and the primary dentist set when [staffIds]
    is given, then the log entry; their results are awaited and dropped.
    On an empty [staffIds] the dentist update carries no column. *)
Definition cascade_update (env : Env) (auth : Auth) (appointmentId : string)
    (updateData : UpdateAppointmentFormData)
    (existingAppointment updatedAppointment : Appointment.row) (db : Db)
  : Db :=
  let db3 :=
    match UpdateForm.staffIds updateData with
    | Some staffIds =>
        let db1 :=
          snd (write env DeleteAppointmentStaff
                 (λ s, set_appointment_staff
                         (filter (λ r, AppointmentStaff.appointment_id r
                                       ≠ appointmentId)
                                 (appointment_staff s)) s) db) in
        let db2 :=
          if Nat.ltb 1 (length staffIds) then
            snd (write env InsertAppointmentStaff
                   (λ s, set_appointment_staff
                           (appointment_staff s ++
                            staff_associations appointmentId staffIds) s) db1)
          else db1 in
        snd (write env UpdateDentist
               (λ s, match first_of staffIds with
                     | Some dentist =>
                         set_appointments
                           (update_where
                              (λ a, Appointment.id a = appointmentId)
                              (set_dentist dentist) (appointments s)) s
                     | None => s
                     end) db2)
    | None => db
    end in
  snd (write env InsertActivityLog
         (λ s, set_activity_logs
                 (activity_logs s ++
                  [update_log auth appointmentId existingAppointment
                     updatedAppointment]) s) db3).

(** The rest of [updateAppointment] once the slot is settled: the update of
    the row, then the cascade.  [slot] is absent when the update names
    neither a date nor a time. *)
Definition commit_update (env : Env) (auth : Auth) (appointmentId : string)
    (updateData : UpdateAppointmentFormData)
    (existingAppointment : Appointment.row) (slot : option (Z * Slot))
    (db : Db) : Db * AppointmentActionResult :=
  match update_appointment env db appointmentId (clinicId auth)
          (update_object updateData slot) with
  | None => (db, failed "Failed to update appointment")
  | Some (updatedAppointment, db1) =>
      (cascade_update env auth appointmentId updateData
         existingAppointment updatedAppointment db1,
       succeeded updatedAppointment)
  end.

(** In [updateData.staffIds || [existingAppointment.dentist_id]] the
    dentist stands in for an absent [staffIds] only: an array, empty or
    not, is truthy. *)
Definition updateAppointment (env : Env) (auth : Auth)
    (appointmentId : string) (formData : UpdateAppointmentFormData) (db : Db)
  : Db * AppointmentActionResult :=
  match UpdateAppointmentSchema formData with
  | inr issues => (db, validation_failed issues)
  | inl updateData =>
      match select_appointment env db appointmentId (clinicId auth) with
      | None => (db, failed "Appointment not found or access denied")
      | Some existingAppointment =>
          if bool_decide (UpdateForm.date updateData ≠ None
                          ∨ UpdateForm.time updateData ≠ None) then
            let slot := new_slot updateData existingAppointment in
            match checkAppointmentConflicts env db (clinicId auth)
                    (default [Appointment.dentist_id existingAppointment]
                       (UpdateForm.staffIds updateData))
                    (newDate slot) (newStartTime slot) (newEndTime slot)
                    (Some appointmentId) with
            | Thrown _ => (db, unexpected)
            | Returned conflicts =>
                if Nat.ltb 0 (length conflicts) then
                  (db, conflicts_detected conflicts)
                else
                  match JS.toISODate (newDate slot) with
                  | None => (db, unexpected)
                  | Some day =>
                      commit_update env auth appointmentId updateData
                        existingAppointment (Some (day, slot)) db
                  end
            end
          else
            commit_update env auth appointmentId updateData
              existingAppointment None db
      end
  end.

(** ** Vocabulary of the properties *)

(** A same-day wall-clock time, as a [TIME] column prints it: [HH:MM:SS]
    with two digits each, hours below 24, minutes and seconds below 60. *)
Definition is_wall_clock (t : string) : bool :=
  match t with
  | String h1 (String h2 (String c1 (String m1 (String m2 (String c2
      (String s1 (String s2 EmptyString))))))) =>
      Ascii.eqb c1 ":" && Ascii.eqb c2 ":" &&
      match JS.digit h1, JS.digit h2, JS.digit m1, JS.digit m2,
            JS.digit s1, JS.digit s2 with
      | Some a, Some b, Some c, Some d, Some e, Some f =>
          (10 * a + b <? 24) && (10 * c + d <? 60) && (10 * e + f <? 60)
      | _, _, _, _, _, _ => false
      end
  | _ => false
  end.

(** A wall-clock time on a whole minute: [HH:MM:00]. *)
Definition is_whole_minute (t : string) : bool :=
  is_wall_clock t &&
  match t with
  | String _ (String _ (String _ (String _ (String _ (String _
      (String s1 (String s2 EmptyString))))))) =>
      Ascii.eqb s1 "0" && Ascii.eqb s2 "0"
  | _ => false
  end.

(** The staff of a stored appointment: the primary dentist, then the
    assistants [createAppointment] attaches through [appointment_staff]. *)
Definition staff_of (db : Db) (a : Appointment.row) : list string :=
  Appointment.dentist_id a ::
  (AppointmentStaff.staff_id <$>
     filter (λ r, AppointmentStaff.appointment_id r = Appointment.id a)
            (appointment_staff db)).

(** The foreign keys of [appointments]: the patient and the dentist of
    every row are there. *)
Definition references_ok (db : Db) : Prop :=
  Forall (λ a, is_Some (patient_of db a) ∧ is_Some (dentist_of db a))
         (appointments db).

(** A conflict list reports the stored appointment [a]. *)
Definition reports (conflicts : list AppointmentConflict)
    (a : Appointment.row) : Prop :=
  ∃ c, c ∈ conflicts ∧ appointmentId c = Appointment.id a
       ∧ startTime c = Appointment.start_time a
       ∧ endTime c = Appointment.end_time a.

(** Two digits, a colon, two digits and [:00]. *)
Definition hhmm00 (h1 h2 m1 m2 : ascii) : string :=
  String h1 (String h2 (String ":" (String m1 (String m2 ":00")))).

(** The integers [lo, lo+1, ..., lo+n-1]. *)
Definition range (lo : Z) (n : nat) : list Z := seqZ lo (Z.of_nat n).

Definition digit_chars : list ascii :=
  ["0"; "1"; "2"; "3"; "4"; "5"; "6"; "7"; "8"; "9"]%char.


(** ** Sample data *)

Module Sample.

Definition clinic : string := "c1c1c1c1-0000-4000-8000-000000000001".
Definition dentist1 : string := "d1d1d1d1-0000-4000-8000-000000000001".
Definition dentist2 : string := "d2d2d2d2-0000-4000-8000-000000000002".
Definition assistant1 : string := "a1a1a1a1-0000-4000-8000-000000000001".
Definition patient1 : string := "b1b1b1b1-0000-4000-8000-000000000001".
Definition patient2 : string := "b2b2b2b2-0000-4000-8000-000000000002".
Definition appt1 : string := "e1e1e1e1-0000-4000-8000-000000000001".
Definition appt2 : string := "e2e2e2e2-0000-4000-8000-000000000002".
Definition appt3 : string := "e3e3e3e3-0000-4000-8000-000000000003".

(** 2024-06-01T00:00:00Z in milliseconds, and as a day number. *)
Definition june1_ms : Z := 1717200000000.
Definition june1 : Z := 19875.

Definition auth : Auth := {| user_id := dentist1; clinicId := clinic |}.

(** A store that accepts every call and names the next appointment [id]. *)
Definition accepting (id : string) : Env :=
  {| fails := λ _, false; generated_id := id |}.

(** A store that rejects exactly the call [c]. *)
Definition rejecting (c : Call) (id : string) : Env :=
  {| fails := λ c', bool_decide (c' = c); generated_id := id |}.

Definition booked (id patient dentist start_ end_ status : string)
  : Appointment.row :=
  {| Appointment.id := id;
     Appointment.clinic_id := clinic;
     Appointment.patient_id := patient;
     Appointment.dentist_id := dentist;
     Appointment.appointment_date := june1;
     Appointment.start_time := start_;
     Appointment.end_time := end_;
     Appointment.duration_minutes := 60;
     Appointment.appointment_type := "consultation";
     Appointment.chief_complaint := None;
     Appointment.notes := None;
     Appointment.status := status;
     Appointment.treatments_planned := [];
     Appointment.estimated_cost := Some 0;
     Appointment.actual_cost := None;
     Appointment.created_by := dentist1 |}.

Definition people (rows : list Appointment.row)
    (staff : list AppointmentStaff.row) : Db :=
  {| appointments := rows;
     appointment_staff := staff;
     prescriptions := [];
     activity_logs := [];
     patients :=
       [ {| Patient.id := patient1; Patient.clinic_id := clinic;
            Patient.first_name := "Ana"; Patient.last_name := "Cruz" |};
         {| Patient.id := patient2; Patient.clinic_id := clinic;
            Patient.first_name := "Ben"; Patient.last_name := "Reyes" |} ];
     users :=
       [ {| User.id := dentist1; User.first_name := "Dana";
            User.last_name := "Lim" |};
         {| User.id := dentist2; User.first_name := "Eli";
            User.last_name := "Tan" |};
         {| User.id := assistant1; User.first_name := "Fe";
            User.last_name := "Uy" |} ] |}.

(** No appointment yet. *)
Definition empty_db : Db := people [] [].

(** Dentist 1 has patient 1 from 09:00 to 10:00 on 2024-06-01. *)
Definition nine_to_ten : Appointment.row :=
  booked appt1 patient1 dentist1 "09:00:00" "10:00:00" "scheduled".

Definition one_booking : Db := people [nine_to_ten] [].

(** The same booking, with assistant 1 attached to it. *)
Definition assisted_booking : Db :=
  people [nine_to_ten]
    [ {| AppointmentStaff.appointment_id := appt1;
         AppointmentStaff.staff_id := assistant1;
         AppointmentStaff.role := "assistant" |} ].

(** Dentist 1 and dentist 2 are both booked from 09:00 to 10:00. *)
Definition two_dentists : Db :=
  people [ nine_to_ten;
           booked appt2 patient2 dentist2 "09:00:00" "10:00:00" "scheduled" ]
         [].

(** A booking request for patient 1 on 2024-06-01. *)
Definition request (staff : option (list string)) (minute : Z)
    (status : option string) : CreateAppointmentFormData :=
  {| CreateForm.patientId := patient1;
     CreateForm.staffIds := staff;
     CreateForm.treatmentId := None;
     CreateForm.date := june1_ms;
     CreateForm.time := minute;
     CreateForm.complaint := None;
     CreateForm.diagnosis := None;
     CreateForm.notes := None;
     CreateForm.involvedTeeth := None;
     CreateForm.units := None;
     CreateForm.finalPrice := None;
     CreateForm.paidAmount := None;
     CreateForm.isDone := None;
     CreateForm.status := status;
     CreateForm.timer := None;
     CreateForm.prescriptions := None |}.

(** An update that names only a new staff list. *)
Definition restaff (staff : list string) : UpdateAppointmentFormData :=
  {| UpdateForm.patientId := None;
     UpdateForm.staffIds := Some staff;
     UpdateForm.treatmentId := None;
     UpdateForm.date := None;
     UpdateForm.time := None;
     UpdateForm.complaint := None;
     UpdateForm.diagnosis := None;
     UpdateForm.notes := None;
     UpdateForm.involvedTeeth := None;
     UpdateForm.units := None;
     UpdateForm.finalPrice := None;
     UpdateForm.paidAmount := None;
     UpdateForm.isDone := None;
     UpdateForm.status := None;
     UpdateForm.timer := None;
     UpdateForm.prescriptions := None;
     UpdateForm.createdBy := None |}.

(** A booking with an assistant and one prescription. *)
Definition assisted_request : CreateAppointmentFormData :=
  {| CreateForm.patientId := patient1;
     CreateForm.staffIds := Some [dentist1; assistant1];
     CreateForm.treatmentId := None;
     CreateForm.date := june1_ms;
     CreateForm.time := 540;
     CreateForm.complaint := Some "toothache";
     CreateForm.diagnosis := None;
     CreateForm.notes := None;
     CreateForm.involvedTeeth := None;
     CreateForm.units := None;
     CreateForm.finalPrice := None;
     CreateForm.paidAmount := None;
     CreateForm.isDone := None;
     CreateForm.status := None;
     CreateForm.timer := None;
     CreateForm.prescriptions :=
       Some [ {| presc_id := "f1f1f1f1-0000-4000-8000-000000000001";
                 prescription := "ibuprofen" |} ] |}.

(** A store that commits the appointment row and rejects every write that
    follows it. *)
Definition rejecting_cascade (id : string) : Env :=
  {| fails := λ c, bool_decide (c ∈ [InsertAppointmentStaff;
                                     InsertPrescriptions;
                                     InsertActivityLog]);
     generated_id := id |}.

End Sample.

(** ** Booking writer: [cancelAppointment] *)

(** The update [cancelAppointment] sends.  Its [cancellation_reason] goes
    to a column that no action reads and the rows here do not carry; the
    reason is kept in the log entry. *)
Definition cancel_object : UpdateObject.t :=
  {| UpdateObject.appointment_date := None;
     UpdateObject.start_time := None;
     UpdateObject.end_time := None;
     UpdateObject.chief_complaint := None;
     UpdateObject.diagnosis := None;
     UpdateObject.notes := None;
     UpdateObject.status := Some "cancelled";
     UpdateObject.actual_cost := None |}.

Definition cancel_log (auth : Auth) (appointmentId : string)
    (reason : option string) : ActivityLog.row :=
  {| ActivityLog.clinic_id := clinicId auth;
     ActivityLog.user_id := user_id auth;
     ActivityLog.action := "cancel";
     ActivityLog.resource_type := "appointment";
     ActivityLog.resource_id := appointmentId;
     ActivityLog.old_values := None;
     ActivityLog.new_values := None;
     ActivityLog.description :=
       "Cancelled appointment: " +:+ JS.or_else reason "No reason provided" |}.

Definition cancelAppointment (env : Env) (auth : Auth)
    (appointmentId : string) (reason : option string) (db : Db)
  : Db * AppointmentActionResult :=
  match update_appointment env db appointmentId (clinicId auth)
          cancel_object with
  | None => (db, failed "Failed to cancel appointment")
  | Some (appointment, db1) =>
      (snd (write env InsertActivityLog
              (λ s, set_activity_logs
                      (activity_logs s ++
                       [cancel_log auth appointmentId reason]) s) db1),
       succeeded appointment)
  end.

(** ** More sample data *)

Module Cases.

Definition other_clinic : string := "c2c2c2c2-0000-4000-8000-000000000002".

(** A user of another clinic. *)
Definition outsider : Auth :=
  {| user_id := Sample.dentist2; clinicId := other_clinic |}.

(** Dentist 1 is booked from 09:00 to 10:00 and from 10:00 to 11:00. *)
Definition ten_to_eleven : Appointment.row :=
  Sample.booked Sample.appt2 Sample.patient2 Sample.dentist1
    "10:00:00" "11:00:00" "scheduled".

Definition morning : Db :=
  Sample.people [Sample.nine_to_ten; ten_to_eleven] [].

(** Dentist 1 has a completed appointment from 09:00 to 10:00. *)
Definition completed_booking : Db :=
  Sample.people
    [ Sample.booked Sample.appt1 Sample.patient1 Sample.dentist1
        "09:00:00" "10:00:00" "completed" ] [].

(** An update that names only a new start minute. *)
Definition move_to (minute : Z) : UpdateAppointmentFormData :=
  {| UpdateForm.patientId := None;
     UpdateForm.staffIds := None;
     UpdateForm.treatmentId := None;
     UpdateForm.date := None;
     UpdateForm.time := Some minute;
     UpdateForm.complaint := None;
     UpdateForm.diagnosis := None;
     UpdateForm.notes := None;
     UpdateForm.involvedTeeth := None;
     UpdateForm.units := None;
     UpdateForm.finalPrice := None;
     UpdateForm.paidAmount := None;
     UpdateForm.isDone := None;
     UpdateForm.status := None;
     UpdateForm.timer := None;
     UpdateForm.prescriptions := None;
     UpdateForm.createdBy := None |}.

(** An update that names the staff and a new start minute. *)
Definition rebook (staff : list string) (minute : Z)
  : UpdateAppointmentFormData :=
  {| UpdateForm.patientId := None;
     UpdateForm.staffIds := Some staff;
     UpdateForm.treatmentId := None;
     UpdateForm.date := None;
     UpdateForm.time := Some minute;
     UpdateForm.complaint := None;
     UpdateForm.diagnosis := None;
     UpdateForm.notes := None;
     UpdateForm.involvedTeeth := None;
     UpdateForm.units := None;
     UpdateForm.finalPrice := None;
     UpdateForm.paidAmount := None;
     UpdateForm.isDone := None;
     UpdateForm.status := None;
     UpdateForm.timer := None;
     UpdateForm.prescriptions := None;
     UpdateForm.createdBy := None |}.

End Cases.

(** ** Strings, character by character *)

(** [p] holds of every character of [s]. *)
Fixpoint string_forall (p : ascii → bool) (s : string) : bool :=
  match s with
  | EmptyString => true
  | String c rest => p c && string_forall p rest
  end.

Definition is_digit (c : ascii) : bool :=
  match JS.digit c with
  | Some _ => true
  | None => false
  end.

(** A time as a [TIME] column and the encoder write it: two digits, a
    colon, two digits, a colon, two digits, whatever their range. *)
Definition is_clock_text (t : string) : bool :=
  match t with
  | String h1 (String h2 (String c1 (String m1 (String m2 (String c2
      (String s1 (String s2 EmptyString))))))) =>
      Ascii.eqb c1 ":" && Ascii.eqb c2 ":"
      && is_digit h1 && is_digit h2 && is_digit m1 && is_digit m2
      && is_digit s1 && is_digit s2
  | _ => false
  end.

(** ** Payments

    The payment actions of the same file: the reference check of
    [recordPayment], the verification of a payment with the invoice status
    it brings up to date, the running balance of the payment history and
    the numbering of payments.  Amounts are integers (centavos), as the
    [INTEGER] columns hold them. *)

Module Billing.

(** [!!x] on an optional string: [undefined] and the empty string are
    falsy. *)
Definition truthy (x : option string) : bool :=
  match x with
  | Some (String _ _) => true
  | Some EmptyString => false
  | None => false
  end.

Definition is_upper (c : ascii) : bool :=
  let n := Z.of_N (N_of_ascii c) in (65 <=? n) && (n <=? 90).

(** [/^\d{lo,hi}$/.test(s)] *)
Definition digits_test (lo hi : nat) (s : string) : bool :=
  (lo <=? String.length s)%nat && (String.length s <=? hi)%nat
  && string_forall is_digit s.

(** [/^[A-Z0-9]{lo,hi}$/.test(s)] *)
Definition alnum_test (lo hi : nat) (s : string) : bool :=
  (lo <=? String.length s)%nat && (String.length s <=? hi)%nat
  && string_forall (λ c, is_upper c || is_digit c) s.

Record PaymentValidation := {
  isValid : bool;
  errors : list string
}.

(** The [switch] of [validatePaymentMethod]: what is pushed on [errors]. *)
Definition method_errors (paymentMethod transactionReference : string)
  : list string :=
  if decide (paymentMethod = "gcash") then
    if digits_test 13 13 transactionReference then []
    else ["GCash reference must be 13 digits"]
  else if decide (paymentMethod = "paymaya") then
    if alnum_test 6 20 transactionReference then []
    else ["PayMaya reference must be 6-20 alphanumeric characters"]
  else if decide (paymentMethod = "bank_transfer") then
    if (String.length transactionReference <? 6)%nat
       || (30 <? String.length transactionReference)%nat
    then ["Bank transfer reference must be 6-30 characters"]
    else []
  else if decide (paymentMethod = "check") then
    if digits_test 6 12 transactionReference then []
    else ["Check number must be 6-12 digits"]
  else [].

Definition validatePaymentMethod (paymentMethod : string)
    (transactionReference : option string) (amount : option Z)
  : PaymentValidation :=
  if decide (paymentMethod = "cash") then {| isValid := true; errors := [] |}
  else
    match transactionReference with
    | Some (String c rest) =>
        let errors := method_errors paymentMethod (String c rest) in
        {| isValid := (length errors =? 0)%nat; errors := errors |}
    | _ =>
        {| isValid := false;
           errors :=
             ["Transaction reference is required for non-cash payments"] |}
    end.

(** The predicate [PaymentWithReferencesSchema] refines [PaymentSchema]
    with; its result is read as a boolean. *)
Definition PaymentWithReferences_refinement (paymentMethod : string)
    (transactionReference externalTransactionId : option string) : bool :=
  if decide (paymentMethod = "cash") then true
  else truthy transactionReference || truthy externalTransactionId.

(** *** Tables

    The columns the modelled actions read or write.  [appointment_id] is
    read by [verifyPayment] although [schema.sql] gives [payments] no such
    column: it is [None] on the rows of that schema.  The rows of a table
    are listed in the order of their creation. *)

Module Payment.
Record row := {
  id : string;
  clinic_id : string;
  patient_id : string;
  appointment_id : option string;
  invoice_id : option string;
  payment_number : string;
  amount : Z;
  payment_method : string;
  verification_status : string;
  verification_notes : option string;
  verified_by : option string;
  status : string
}.
End Payment.

Module Invoice.
Record row := {
  id : string;
  clinic_id : string;
  total_amount : Z;
  payment_status : string
}.
End Invoice.

Record Store := {
  payments : list Payment.row;
  invoices : list Invoice.row;
  activity_logs : list ActivityLog.row
}.

#[global] Instance Payment_row_eq_dec : EqDecision Payment.row.
Proof. solve_decision. Defined.
#[global] Instance Invoice_row_eq_dec : EqDecision Invoice.row.
Proof. solve_decision. Defined.
#[global] Instance Store_eq_dec : EqDecision Store.
Proof. solve_decision. Defined.

(** The calls of the storage client; which of them the store rejects in a
    run is an input of the model. *)
Inductive Call :=
| SelectPayment
| UpdatePayment
| SelectInvoicePayments
| SelectInvoice
| UpdateInvoice
| InsertActivityLog
| SelectLastPayment.

#[global] Instance PaymentCall_eq_dec : EqDecision Call.
Proof. solve_decision. Defined.

Record Env := {
  fails : Call → bool
}.

Record PaymentActionResult := {
  success : bool;
  data : option Payment.row;
  error : option string;
  fieldErrors : option (gmap string (list string));
  validationErrors : option (list string)
}.

Definition succeeded (row : Payment.row) : PaymentActionResult :=
  {| success := true; data := Some row; error := None;
     fieldErrors := None; validationErrors := None |}.

Definition failed (msg : string) : PaymentActionResult :=
  {| success := false; data := None; error := Some msg;
     fieldErrors := None; validationErrors := None |}.

(** A write whose outcome is dropped. *)
Definition write (env : Env) (c : Call) (apply : Store → Store) (s : Store)
  : Store :=
  if fails env c then s else apply s.

Definition set_payments (rows : list Payment.row) (s : Store) : Store :=
  {| payments := rows;
     invoices := invoices s;
     activity_logs := activity_logs s |}.

Definition set_invoices (rows : list Invoice.row) (s : Store) : Store :=
  {| payments := payments s;
     invoices := rows;
     activity_logs := activity_logs s |}.

Definition set_activity_logs (rows : list ActivityLog.row) (s : Store)
  : Store :=
  {| payments := payments s;
     invoices := invoices s;
     activity_logs := rows |}.

(** *** [updateInvoicePaymentStatus] *)

(** [payments?.reduce((sum, payment) => sum + payment.amount, 0) || 0] *)
Definition total_of (payments : option (list Payment.row)) : Z :=
  match payments with
  | Some rows => foldl (λ sum payment, sum + Payment.amount payment) 0 rows
  | None => 0
  end.

(** The two reads answer [{ data: null }] when the store rejects them;
    [clinicId] is not part of any of the three queries. *)
Definition updateInvoicePaymentStatus (env : Env)
    (invoiceId clinicId : string) (s : Store) : Store :=
  let payments_ :=
    if fails env SelectInvoicePayments then None
    else Some (filter (λ p, Payment.status p = "confirmed")
                 (filter (λ p, Payment.invoice_id p = Some invoiceId)
                    (payments s))) in
  let totalPaid := total_of payments_ in
  let invoice :=
    if fails env SelectInvoice then None
    else single (filter (λ i, Invoice.id i = invoiceId) (invoices s)) in
  let totalAmount :=
    match invoice with
    | Some i => Invoice.total_amount i
    | None => 0
    end in
  let paymentStatus :=
    if totalAmount <=? totalPaid then "paid"
    else if 0 <? totalPaid then "partial"
    else "pending" in
  write env UpdateInvoice
    (λ s, set_invoices
            ((λ i, if decide (Invoice.id i = invoiceId)
                   then {| Invoice.id := Invoice.id i;
                           Invoice.clinic_id := Invoice.clinic_id i;
                           Invoice.total_amount := Invoice.total_amount i;
                           Invoice.payment_status := paymentStatus |}
                   else i) <$> invoices s) s) s.

(** [updateAppointmentPaymentStatus] reads the confirmed payments and the
    cost of the appointment and writes nothing. *)
Definition updateAppointmentPaymentStatus (env : Env)
    (appointmentId clinicId : string) (s : Store) : Store := s.

(** *** [verifyPayment] *)

(** [.from('payments').select('*').eq('id', ..).eq('clinic_id', ..).single()] *)
Definition select_payment (env : Env) (s : Store)
    (paymentId clinic : string) : option Payment.row :=
  if fails env SelectPayment then None
  else single (filter (λ p, Payment.clinic_id p = clinic)
                 (filter (λ p, Payment.id p = paymentId) (payments s))).

(** [updateData] on a row.  A key whose value is [undefined] is not sent:
    without notes the column keeps its value.  The two timestamps are not
    among the columns of the model. *)
Definition apply_verification (auth : Auth) (verificationNotes : option string)
    (verified : bool) (p : Payment.row) : Payment.row :=
  {| Payment.id := Payment.id p;
     Payment.clinic_id := Payment.clinic_id p;
     Payment.patient_id := Payment.patient_id p;
     Payment.appointment_id := Payment.appointment_id p;
     Payment.invoice_id := Payment.invoice_id p;
     Payment.payment_number := Payment.payment_number p;
     Payment.amount := Payment.amount p;
     Payment.payment_method := Payment.payment_method p;
     Payment.verification_status :=
       if verified then "verified" else "rejected";
     Payment.verification_notes :=
       match verificationNotes with
       | Some notes => Some notes
       | None => Payment.verification_notes p
       end;
     Payment.verified_by := Some (user_id auth);
     Payment.status := if verified then "confirmed" else "failed" |}.

(** [.update(updateData).eq('id', ..).eq('clinic_id', ..).select().single()] *)
Definition update_payment (env : Env) (s : Store)
    (paymentId clinic : string) (f : Payment.row → Payment.row)
  : option (Payment.row * Store) :=
  if fails env UpdatePayment then None
  else
    let selected :=
      filter (λ p, Payment.clinic_id p = clinic)
        (filter (λ p, Payment.id p = paymentId) (payments s)) in
    match single (f <$> selected) with
    | Some updated =>
        Some (updated,
              set_payments
                ((λ p, if decide (Payment.id p = paymentId
                                  ∧ Payment.clinic_id p = clinic)
                       then f p else p) <$> payments s) s)
    | None => None
    end.

Definition verification_log (auth : Auth) (paymentId : string)
    (existingPayment : Payment.row) (verificationNotes : option string)
    (verified : bool) : ActivityLog.row :=
  {| ActivityLog.clinic_id := clinicId auth;
     ActivityLog.user_id := user_id auth;
     ActivityLog.action := if verified then "verify" else "reject";
     ActivityLog.resource_type := "payment";
     ActivityLog.resource_id := paymentId;
     ActivityLog.old_values := None;
     ActivityLog.new_values := None;
     ActivityLog.description :=
       (if verified then "Verified" else "Rejected") +:+ " payment "
       +:+ Payment.payment_number existingPayment +:+ ": "
       +:+ JS.or_else verificationNotes "No notes provided" |}.

(** [verified] is [true] when the caller leaves it out. *)
Definition verifyPayment (env : Env) (auth : Auth) (paymentId : string)
    (verificationNotes : option string) (verified : bool) (s : Store)
  : Store * PaymentActionResult :=
  match select_payment env s paymentId (clinicId auth) with
  | None => (s, failed "Payment not found or access denied")
  | Some existingPayment =>
      if decide (Payment.verification_status existingPayment = "verified")
      then (s, failed "Payment is already verified")
      else
        match update_payment env s paymentId (clinicId auth)
                (apply_verification auth verificationNotes verified) with
        | None => (s, failed "Failed to update payment verification")
        | Some (payment, s1) =>
            let s2 :=
              if verified then
                let s' :=
                  match Payment.appointment_id existingPayment with
                  | Some (String c rest) =>
                      updateAppointmentPaymentStatus env (String c rest)
                        (clinicId auth) s1
                  | _ => s1
                  end in
                match Payment.invoice_id existingPayment with
                | Some (String c rest) =>
                    updateInvoicePaymentStatus env (String c rest)
                      (clinicId auth) s'
                | _ => s'
                end
              else s1 in
            (write env InsertActivityLog
               (λ s, set_activity_logs
                       (activity_logs s ++
                        [verification_log auth paymentId existingPayment
                           verificationNotes verified]) s) s2,
             succeeded payment)
        end
  end.

(** *** The running balance of [getPatientPaymentHistory] *)

Record PaymentWithBalance := {
  payment : Payment.row;
  runningBalance : Z;
  formattedAmount : string
}.

(** [payments.map(payment => ...)] with the counter it updates on the way;
    [format] is the text [formattedAmount] gives an amount. *)
Fixpoint map_with_balance (format : Z → string) (runningBalance : Z)
    (payments : list Payment.row) : list PaymentWithBalance :=
  match payments with
  | [] => []
  | payment :: rest =>
      let runningBalance :=
        if decide (Payment.status payment = "confirmed")
        then runningBalance + Payment.amount payment
        else runningBalance in
      {| payment := payment;
         runningBalance := runningBalance;
         formattedAmount := format (Payment.amount payment) |}
      :: map_with_balance format runningBalance rest
  end.

(** [paymentsWithBalance], from the rows the query returned (the latest
    payment first). *)
Definition paymentsWithBalance (format : Z → string)
    (payments : list Payment.row) : list PaymentWithBalance :=
  reverse (map_with_balance format 0 payments).

(** *** [generatePaymentNumber] *)

Definition is_space (c : ascii) : bool :=
  let n := Z.of_N (N_of_ascii c) in
  ((9 <=? n) && (n <=? 13)) || (n =? 32).

Fixpoint trim_start (s : string) : string :=
  match s with
  | String c rest => if is_space c then trim_start rest else s
  | EmptyString => EmptyString
  end.

Definition hex_digit (c : ascii) : option Z :=
  let n := Z.of_N (N_of_ascii c) in
  if (48 <=? n) && (n <=? 57) then Some (n - 48)
  else if (65 <=? n) && (n <=? 70) then Some (n - 55)
  else if (97 <=? n) && (n <=? 102) then Some (n - 87)
  else None.

(** The value of the longest prefix of digits, [NaN] when it is empty. *)
Fixpoint digit_prefix (radix : Z) (digit : ascii → option Z)
    (acc : option Z) (s : string) : option Z :=
  match s with
  | String c rest =>
      match digit c with
      | Some d => digit_prefix radix digit (Some (radix * default 0 acc + d)) rest
      | None => acc
      end
  | EmptyString => acc
  end.

(** [parseInt(s)] without a radix, on strings of ASCII characters: leading
    white space, a sign, [0x] or [0X] for base 16, then the digits that
    follow. *)
Definition parseInt (s : string) : option Z :=
  let s := trim_start s in
  let '(sign, s) :=
    match s with
    | String c rest =>
        if Ascii.eqb c "-" then (-1, rest)
        else if Ascii.eqb c "+" then (1, rest)
        else (1, s)
    | EmptyString => (1, s)
    end in
  let magnitude :=
    match s with
    | String c0 (String x rest) =>
        if Ascii.eqb c0 "0" && (Ascii.eqb x "x" || Ascii.eqb x "X")
        then digit_prefix 16 hex_digit None rest
        else digit_prefix 10 JS.digit None s
    | _ => digit_prefix 10 JS.digit None s
    end in
  Z.mul sign <$> magnitude.

(** [`PAY-${year}${month}-`], with the month in two digits. *)
Definition number_prefix (year month : Z) : string :=
  "PAY-" +:+ JS.toString year +:+ JS.padStart 2 "0" (JS.toString month)
  +:+ "-".

(** The text of a sequence number; [NaN] prints as [NaN]. *)
Definition sequence_text (sequence : option Z) : string :=
  JS.padStart 4 "0"
    match sequence with
    | Some n => JS.toString n
    | None => "NaN"
    end.

(** The payments [.eq('clinic_id', ..).like('payment_number', ..)] selects:
    the pattern ends in its only wildcard. *)
Definition payments_like (clinicId pattern_prefix : string) (s : Store)
  : list Payment.row :=
  filter (λ p, String.prefix pattern_prefix (Payment.payment_number p) = true)
    (filter (λ p, Payment.clinic_id p = clinicId) (payments s)).

(** [year] and [month] are [today.getFullYear()] and
    [today.getMonth() + 1].  The last payment is the latest created. *)
Definition generatePaymentNumber (env : Env) (year month : Z)
    (clinicId : string) (s : Store) : string :=
  let lastPayment :=
    if fails env SelectLastPayment then None
    else last (payments_like clinicId (number_prefix year month) s) in
  let sequence :=
    match lastPayment with
    | Some p =>
        let lastSequence :=
          match JS.split "-" (Payment.payment_number p) !! 2%nat with
          | Some piece => parseInt piece
          | None => None
          end in
        JS.add lastSequence (Some 1)
    | None => Some 1
    end in
  number_prefix year month +:+ sequence_text sequence.

End Billing.

(** ** Vocabulary of the payment properties *)

(** What the confirmed payments of an invoice add up to. *)
Definition confirmed_paid (invoiceId : string) (s : Billing.Store) : Z :=
  foldr Z.add 0
    (Billing.Payment.amount <$>
       filter (λ p, Billing.Payment.invoice_id p = Some invoiceId
                    ∧ Billing.Payment.status p = "confirmed")
              (Billing.payments s)).

(** The confirmed amounts of a list of payments, added up. *)
Definition confirmed_sum (payments : list Billing.Payment.row) : Z :=
  foldr Z.add 0
    (Billing.Payment.amount <$>
       filter (λ p, Billing.Payment.status p = "confirmed") payments).

(** What of a payment a verification has no business with. *)
Definition payment_facts (p : Billing.Payment.row)
  : string * string * string * option string * string * Z * string :=
  (Billing.Payment.id p, Billing.Payment.clinic_id p,
   Billing.Payment.patient_id p, Billing.Payment.invoice_id p,
   Billing.Payment.payment_number p, Billing.Payment.amount p,
   Billing.Payment.payment_method p).

Definition invoice_facts (i : Billing.Invoice.row) : string * string * Z :=
  (Billing.Invoice.id i, Billing.Invoice.clinic_id i,
   Billing.Invoice.total_amount i).

(** The number of the [n]-th payment of a month. *)
Definition payment_number_of (year month n : Z) : string :=
  Billing.number_prefix year month +:+ Billing.sequence_text (Some n).

(** ** Sample payments *)

Module Receipts.

Definition invoice1 : string := "f1f1f1f1-0000-4000-8000-000000000001".
Definition payment1 : string := "aaaaaaa1-0000-4000-8000-000000000001".
Definition payment2 : string := "aaaaaaa2-0000-4000-8000-000000000002".

Definition accepting : Billing.Env := {| Billing.fails := λ _, false |}.

(** The invoice read is rejected, the other calls are answered. *)
Definition blind : Billing.Env :=
  {| Billing.fails := λ c, bool_decide (c = Billing.SelectInvoice) |}.

Definition paid_by (id clinic method number : string) (amount : Z)
    (verification status : string) : Billing.Payment.row :=
  {| Billing.Payment.id := id;
     Billing.Payment.clinic_id := clinic;
     Billing.Payment.patient_id := Sample.patient1;
     Billing.Payment.appointment_id := None;
     Billing.Payment.invoice_id := Some invoice1;
     Billing.Payment.payment_number := number;
     Billing.Payment.amount := amount;
     Billing.Payment.payment_method := method;
     Billing.Payment.verification_status := verification;
     Billing.Payment.verification_notes := None;
     Billing.Payment.verified_by := None;
     Billing.Payment.status := status |}.

(** An invoice of 1500.00 with a cash payment of 500.00 and a GCash
    payment of 1000.00 that waits for its verification. *)
Definition cash_payment : Billing.Payment.row :=
  paid_by payment1 Sample.clinic "cash" "PAY-202406-0001" 50000
    "verified" "confirmed".

Definition gcash_payment : Billing.Payment.row :=
  paid_by payment2 Sample.clinic "gcash" "PAY-202406-0002" 100000
    "pending" "pending".

Definition open_invoice : Billing.Invoice.row :=
  {| Billing.Invoice.id := invoice1;
     Billing.Invoice.clinic_id := Sample.clinic;
     Billing.Invoice.total_amount := 150000;
     Billing.Invoice.payment_status := "partial" |}.

Definition ledger : Billing.Store :=
  {| Billing.payments := [cash_payment; gcash_payment];
     Billing.invoices := [open_invoice];
     Billing.activity_logs := [] |}.

End Receipts.

(** * Properties *)

Example minutesToTimeString_0900 : minutesToTimeString 540 = "09:00:00".
Proof. reflexivity. Qed.

Example minutesToTimeString_2459 : minutesToTimeString 1499 = "24:59:00".
Proof. reflexivity. Qed.

Example minutesToTimeString_neg : minutesToTimeString (-1) = "-1:-1:00".
Proof. reflexivity. Qed.

Example timeStringToMinutes_0930 : timeStringToMinutes "09:30:15" = Some 570.
Proof. reflexivity. Qed.

Example timeStringToMinutes_short : timeStringToMinutes "0930" = None.
Proof. reflexivity. Qed.

(** ** Time codec *)

Section TimeCodec.

Lemma range_spec lo n x : x ∈ range lo n ↔ lo ≤ x < lo + Z.of_nat n.
Proof. unfold range. apply elem_of_seqZ. Qed.

(** Decoding undoes encoding on every minute count the actions can
    encode: a start minute of the day, or one up to an hour later. *)
Lemma decode_encode_checked :
  Forall (λ m, timeStringToMinutes (minutesToTimeString m) = Some m)
         (range 0 1500).
Proof. compute_done. Qed.

Lemma decode_encode m :
  0 ≤ m < 1500 → timeStringToMinutes (minutesToTimeString m) = Some m.
Proof.
  intros Hm. pose proof decode_encode_checked as Hall.
  rewrite Forall_forall in Hall. apply Hall, range_spec. lia.
Qed.

Lemma digit_chars_spec c d : JS.digit c = Some d → c ∈ digit_chars.
Proof.
  destruct c as [[] [] [] [] [] [] [] []]; intros H;
    first [ by vm_compute in H | compute_done ].
Qed.

(** Encoding undoes decoding, checked on every string of two digits, a
    colon, two digits and [:00]. *)
Lemma encode_decode_checked :
  Forall (λ h1, Forall (λ h2, Forall (λ m1, Forall (λ m2,
    is_whole_minute (hhmm00 h1 h2 m1 m2) = true →
    minutesToTimeString <$> timeStringToMinutes (hhmm00 h1 h2 m1 m2)
    = Some (hhmm00 h1 h2 m1 m2))
    digit_chars) digit_chars) digit_chars) digit_chars.
Proof. compute_done. Qed.

End TimeCodec.

Section EncodeRange.

Lemma length_append (s1 s2 : string) :
  String.length (s1 +:+ s2) = (String.length s1 + String.length s2)%nat.
Proof. induction s1 as [|c s1 IH]; simpl; [done | by rewrite IH]. Qed.

Lemma length_padStart n c s :
  (String.length s ≤ String.length (JS.padStart n c s))%nat.
Proof. unfold JS.padStart. rewrite length_append. lia. Qed.

Lemma length_repeat_char n c : String.length (JS.repeat_char n c) = n.
Proof. induction n as [|n IH]; simpl; [done | by rewrite IH]. Qed.

Lemma length_padStart_min n c s :
  (n ≤ String.length (JS.padStart n c s))%nat.
Proof.
  unfold JS.padStart. rewrite length_append, length_repeat_char. lia.
Qed.

(** A number of three figures or more prints on three characters or
    more. *)
Lemma toString_long h :
  100 ≤ h → (3 ≤ String.length (JS.toString h))%nat.
Proof.
  destruct h as [|p|p]; [lia| |lia]. intros Hp.
  unfold JS.toString. cbn [Z.to_int NilZero.string_of_int].
  pose proof (DecimalPos.Unsigned.of_to p) as Hof.
  destruct (Pos.to_uint p) as [|a|a|a|a|a|a|a|a|a|a];
    try destruct a as [|b|b|b|b|b|b|b|b|b|b];
    try destruct b as [|c|c|c|c|c|c|c|c|c|c];
    first [ cbn; lia
          | vm_compute in Hof;
            first [ discriminate Hof | injection Hof as <-; lia ] ].
Qed.

(** A negative number prints with a leading minus sign. *)
Lemma toString_negative h :
  h < 0 → ∃ c rest, JS.toString h = String "-" (String c rest).
Proof.
  destruct h as [|p|p]; [lia|lia|]. intros _.
  unfold JS.toString. cbn [Z.to_int NilZero.string_of_int].
  destruct (Pos.to_uint p); cbn; eauto.
Qed.

Lemma is_wall_clock_shape t :
  is_wall_clock t = true →
  String.length t = 8%nat ∧
  ∃ c rest d, t = String c rest ∧ JS.digit c = Some d.
Proof.
  unfold is_wall_clock.
  destruct t as [|c0 t]; [done|].
  do 7 (destruct t as [|? t]; [done|]).
  destruct t; [|done].
  destruct (JS.digit c0) as [d|] eqn:Hd.
  - intros _. split; [done | eauto].
  - by rewrite andb_false_r.
Qed.

Lemma encode_late_checked :
  Forall (λ m, is_wall_clock (minutesToTimeString m) = false)
         (range 1440 4560).
Proof. compute_done. Qed.

Lemma encode_not_wall_clock minutes :
  ¬ (0 ≤ minutes ≤ 1439) → is_wall_clock (minutesToTimeString minutes) = false.
Proof.
  intros Hout. apply not_true_is_false. intros Hwc.
  destruct (is_wall_clock_shape _ Hwc) as (Hlen & c & rest & d & Ht & Hd).
  destruct (decide (minutes < 0)) as [Hneg|Hpos].
  - assert (minutes / 60 < 0) as Hh by (apply Z.div_lt_upper_bound; lia).
    apply toString_negative in Hh as (c' & rest' & Hs).
    unfold minutesToTimeString in Ht. rewrite Hs in Ht.
    cbn in Ht. injection Ht as <- _. by vm_compute in Hd.
  - destruct (decide (minutes < 6000)) as [Hlt|Hge].
    + pose proof encode_late_checked as Hall.
      rewrite Forall_forall in Hall.
      rewrite Hall in Hwc; [done | apply range_spec; lia].
    + assert (100 ≤ minutes / 60) as Hh
        by (apply Z.div_le_lower_bound; lia).
      apply toString_long in Hh.
      pose proof (length_padStart 2 "0" (JS.toString (minutes / 60))).
      pose proof (length_padStart_min 2 "0" (JS.toString (Z.rem minutes 60))).
      unfold minutesToTimeString in Hlen.
      rewrite !length_append in Hlen. cbn [String.length] in Hlen. lia.
Qed.

End EncodeRange.

(** C3 (as amended).  The codec round-trips on its own format: decoding the
    encoding of a minute count in [0, 1439] gives the count back, and
    encoding the decoding of a wall-clock time on a whole minute
    ([HH:MM:00]) gives the string back. *)
Theorem time_codec_round_trip (m : Z) (t : string) :
  0 ≤ m ≤ 1439 →
  is_whole_minute t = true →
  timeStringToMinutes (minutesToTimeString m) = Some m ∧
  minutesToTimeString <$> timeStringToMinutes t = Some t.
Proof.
  intros Hm Ht. split; [apply decode_encode; lia|].
  assert (∃ h1 h2 m1 m2,
            t = hhmm00 h1 h2 m1 m2 ∧ h1 ∈ digit_chars ∧ h2 ∈ digit_chars
            ∧ m1 ∈ digit_chars ∧ m2 ∈ digit_chars)
    as (h1 & h2 & m1 & m2 & -> & H1 & H2 & H3 & H4).
  { pose proof Ht as Hshape. unfold is_whole_minute, is_wall_clock in Hshape.
    destruct t as [|h1 t]; [done|]. destruct t as [|h2 t]; [done|].
    destruct t as [|c1 t]; [done|]. destruct t as [|m1 t]; [done|].
    destruct t as [|m2 t]; [done|]. destruct t as [|c2 t]; [done|].
    destruct t as [|s1 t]; [done|]. destruct t as [|s2 t]; [done|].
    destruct t; [|by rewrite andb_false_r in Hshape].
    apply andb_prop in Hshape as [Hwc Hsec].
    apply andb_prop in Hsec as [Hs1 Hs2].
    apply andb_prop in Hwc as [Hcol Hdig].
    apply andb_prop in Hcol as [Hc1 Hc2].
    apply Ascii.eqb_eq in Hs1, Hs2, Hc1, Hc2. subst.
    destruct (JS.digit h1) as [?|] eqn:E1; [|done].
    destruct (JS.digit h2) as [?|] eqn:E2; [|done].
    destruct (JS.digit m1) as [?|] eqn:E3; [|done].
    destruct (JS.digit m2) as [?|] eqn:E4; [|done].
    exists h1, h2, m1, m2. eauto 10 using digit_chars_spec. }
  pose proof encode_decode_checked as Hall.
  rewrite Forall_forall in Hall. specialize (Hall _ H1).
  rewrite Forall_forall in Hall. specialize (Hall _ H2).
  rewrite Forall_forall in Hall. specialize (Hall _ H3).
  rewrite Forall_forall in Hall. exact (Hall _ H4 Ht).
Qed.

Lemma time_codec_round_trip_witness :
  (0 ≤ 570 ≤ 1439 ∧ is_whole_minute "09:30:00" = true) ∧
  timeStringToMinutes (minutesToTimeString 570) = Some 570 ∧
  minutesToTimeString <$> timeStringToMinutes "09:30:00" = Some "09:30:00".
Proof.
  split; [split; [lia | reflexivity]|].
  apply (time_codec_round_trip 570 "09:30:00"); [lia | reflexivity].
Defined.

(** C3 as stated fails on a wall-clock time that carries seconds: the
    decoder reads hours and minutes only, so the seconds do not come back. *)
Lemma round_trip_drops_seconds :
  is_wall_clock "09:30:15" = true ∧
  minutesToTimeString <$> timeStringToMinutes "09:30:15" = Some "09:30:00" ∧
  minutesToTimeString <$> timeStringToMinutes "09:30:15" ≠ Some "09:30:15".
Proof. split; [reflexivity | split; [reflexivity | discriminate]]. Qed.

(** C8 (as amended).  [minutesToTimeString] has no range test: on a minute
    count outside [0, 1439] it returns a string all the same, one that is
    not a wall-clock time of the day; the range is enforced on the [time]
    field by the schema, which reports an issue for such a value. *)
Theorem encode_out_of_range (minutes : Z) :
  ¬ (0 ≤ minutes ≤ 1439) →
  is_wall_clock (minutesToTimeString minutes) = false ∧
  check_time minutes ≠ [].
Proof.
  intros Hout. split; [by apply encode_not_wall_clock|].
  unfold check_time, check_min, check_max.
  destruct (0 <=? minutes) eqn:Hlo; [|done].
  destruct (minutes <=? 1439) eqn:Hhi; [|done].
  apply Z.leb_le in Hlo, Hhi. lia.
Qed.

Lemma encode_out_of_range_witness :
  ¬ (0 ≤ -1 ≤ 1439) ∧
  is_wall_clock (minutesToTimeString (-1)) = false ∧ check_time (-1) ≠ [].
Proof. split; [lia | apply (encode_out_of_range (-1)); lia]. Defined.

(** C8 as stated fails: 1500 is outside [0, 1439] and the encoder returns
    a string for it. *)
Lemma encode_1500_returns :
  ¬ (0 ≤ 1500 ≤ 1439) ∧ minutesToTimeString 1500 = "25:00:00".
Proof. split; [lia | reflexivity]. Qed.

(** ** Conflict checker *)

Section ConflictChecker.

Implicit Types (db : Db) (a existing : Appointment.row).

(** Which rows the query selects. *)
Lemma conflict_query_spec db clinic day staffIds exclude a :
  a ∈ conflict_query db clinic day staffIds exclude ↔
  a ∈ appointments db
  ∧ Appointment.clinic_id a = clinic
  ∧ Appointment.appointment_date a = day
  ∧ Appointment.status a ≠ "cancelled"
  ∧ Appointment.dentist_id a ∈ staffIds
  ∧ ∀ x, exclude = Some x → x ≠ EmptyString → Appointment.id a ≠ x.
Proof.
  unfold conflict_query.
  destruct exclude as [x|]; [destruct (decide (x = EmptyString)) as [->|Hx]|];
    rewrite ?list_elem_of_filter; split.
  - intros (?&?&?&?&?). repeat split; try done. by intros ? [= <-].
  - intros (?&?&?&?&?&_). done.
  - intros (?&?&?&?&?&?). repeat split; try done. by intros ? [= <-].
  - intros (?&?&?&?&?&Hex). repeat split; try done. by apply Hex.
  - intros (?&?&?&?&?). done.
  - intros (?&?&?&?&?&_). done.
Qed.

Lemma conflict_query_stored db clinic day staffIds exclude a :
  a ∈ conflict_query db clinic day staffIds exclude → a ∈ appointments db.
Proof. rewrite conflict_query_spec. tauto. Qed.

(** The three-way test of the loop is the intersection test of two
    non-empty half-open intervals. *)
Lemma overlaps_spec startTime endTime existing s1 e1 s2 e2 :
  timeStringToMinutes startTime = Some s1 →
  timeStringToMinutes endTime = Some e1 →
  timeStringToMinutes (Appointment.start_time existing) = Some s2 →
  timeStringToMinutes (Appointment.end_time existing) = Some e2 →
  s1 < e1 → s2 < e2 →
  overlaps startTime endTime existing = true ↔ s1 < e2 ∧ s2 < e1.
Proof.
  intros Hs1 He1 Hs2 He2 H1 H2. unfold overlaps.
  rewrite Hs1, He1, Hs2, He2. unfold JS.ge, JS.gt, JS.le, JS.lt.
  rewrite !orb_true_iff, !andb_true_iff, !Z.leb_le, !Z.ltb_lt. lia.
Qed.

(** The loop returns when the rows it visits have their embedded
    resources, and then it pushes one descriptor per overlapping row. *)
Lemma forEach_existing_returns db startTime endTime rows acc :
  Forall (λ a, is_Some (patient_of db a) ∧ is_Some (dentist_of db a)) rows →
  ∃ pushed,
    forEach_existing db startTime endTime rows acc = Returned (acc ++ pushed)
    ∧ ∀ c, c ∈ pushed ↔
           ∃ a p d, a ∈ rows ∧ overlaps startTime endTime a = true
                    ∧ patient_of db a = Some p ∧ dentist_of db a = Some d
                    ∧ c = conflict_of a p d.
Proof.
  intros Hrefs. revert acc.
  induction Hrefs as [|a rows [[p Hp] [d Hd]] _ IH]; intros acc; simpl.
  - exists []. rewrite app_nil_r. split; [done|].
    intros c. split; [by intros ?%elem_of_nil|].
    by intros (?&?&?&?%elem_of_nil&?).
  - destruct (overlaps startTime endTime a) eqn:Hov.
    + rewrite Hp, Hd.
      destruct (IH (acc ++ [conflict_of a p d])) as (pushed & -> & Hpushed).
      exists (conflict_of a p d :: pushed).
      split; [by rewrite <- app_assoc|].
      intros c. rewrite elem_of_cons, Hpushed. split.
      * intros [->|(a' & p' & d' & ? & ?)].
        -- exists a, p, d. rewrite elem_of_cons. auto.
        -- exists a', p', d'. rewrite elem_of_cons. tauto.
      * intros (a' & p' & d' & [->|?]%elem_of_cons & ? & Hp' & Hd' & ->).
        -- left. congruence.
        -- right. eauto 10.
    + destruct (IH acc) as (pushed & -> & Hpushed).
      exists pushed. split; [done|].
      intros c. rewrite Hpushed. split.
      * intros (a' & p' & d' & ? & ?).
        exists a', p', d'. rewrite elem_of_cons. tauto.
      * intros (a' & p' & d' & [->|?]%elem_of_cons & Hov' & ?).
        -- congruence.
        -- eauto 10.
Qed.

(** The loop only ever adds to [conflicts], and it does not return an
    empty list once it has met an overlapping row. *)
Lemma forEach_existing_extends db startTime endTime rows acc l :
  forEach_existing db startTime endTime rows acc = Returned l →
  ∃ pushed, l = acc ++ pushed.
Proof.
  revert acc. induction rows as [|a rows IH]; intros acc; simpl.
  - intros [= <-]. exists []. by rewrite app_nil_r.
  - destruct (overlaps startTime endTime a); [|by apply IH].
    destruct (patient_of db a); [|done]. destruct (dentist_of db a); [|done].
    intros (pushed & ->)%IH. rewrite <- app_assoc. eauto.
Qed.

Lemma forEach_existing_overlapping db startTime endTime rows acc a l :
  a ∈ rows → overlaps startTime endTime a = true →
  forEach_existing db startTime endTime rows acc = Returned l → l ≠ [].
Proof.
  intros Ha Hov. revert acc.
  induction rows as [|a' rows IH]; intros acc; [by apply elem_of_nil in Ha|].
  simpl. apply elem_of_cons in Ha as [<-|Ha].
  - rewrite Hov.
    destruct (patient_of db a); [|done]. destruct (dentist_of db a); [|done].
    intros (pushed & ->)%forEach_existing_extends.
    rewrite <- app_assoc. by destruct acc.
  - destruct (overlaps startTime endTime a'); [|by apply IH].
    destruct (patient_of db a'); [|done]. destruct (dentist_of db a'); [|done].
    by apply IH.
Qed.

(** With the store answering the query and the foreign keys in place,
    the checker returns the descriptors of the overlapping rows of the
    query. *)
Lemma checkAppointmentConflicts_returns env db clinic staffIds date day
    startTime endTime exclude :
  JS.toISODate date = Some day →
  fails env SelectConflicts = false →
  references_ok db →
  ∃ conflicts,
    checkAppointmentConflicts env db clinic staffIds date startTime endTime
      exclude = Returned conflicts
    ∧ ∀ c, c ∈ conflicts ↔
           ∃ a p d, a ∈ conflict_query db clinic day staffIds exclude
                    ∧ overlaps startTime endTime a = true
                    ∧ patient_of db a = Some p ∧ dentist_of db a = Some d
                    ∧ c = conflict_of a p d.
Proof.
  intros Hday Hok Hrefs. unfold checkAppointmentConflicts.
  rewrite Hday, Hok.
  destruct (forEach_existing_returns db startTime endTime
              (conflict_query db clinic day staffIds exclude) [])
    as (pushed & Hret & Hpushed).
  - unfold references_ok in Hrefs. rewrite Forall_forall in Hrefs |- *.
    intros a Ha. eapply Hrefs, conflict_query_stored, Ha.
  - exists pushed. split; [by rewrite Hret | done].
Qed.

Lemma overlaps_same_times startTime endTime a a' :
  Appointment.start_time a = Appointment.start_time a' →
  Appointment.end_time a = Appointment.end_time a' →
  overlaps startTime endTime a = overlaps startTime endTime a'.
Proof. intros Hs He. unfold overlaps. by rewrite Hs, He. Qed.

End ConflictChecker.

(** C1 (as amended).  Let the candidate slot be the minutes [s1, e1) and
    a stored appointment be the minutes [s2, e2), both non-empty and
    written as times [HH:MM:SS], the appointment being one of the clinic on
    the same date, not cancelled, not the excluded one, and its dentist
    being among the requested staff.  Then [checkAppointmentConflicts]
    returns, and its list reports that appointment exactly when s1 < e2 and
    s2 < e1. *)
Theorem conflict_iff_intervals_intersect
    (env : Env) (db : Db) (clinic : string) (staffIds : list string)
    (date : JS.Date) (day : Z) (startTime endTime : string)
    (exclude : option string) (existing : Appointment.row)
    (s1 e1 s2 e2 : Z) :
  JS.toISODate date = Some day →
  fails env SelectConflicts = false →
  references_ok db →
  existing ∈ appointments db →
  Appointment.clinic_id existing = clinic →
  Appointment.appointment_date existing = day →
  Appointment.status existing ≠ "cancelled" →
  Appointment.dentist_id existing ∈ staffIds →
  (∀ x, exclude = Some x → Appointment.id existing ≠ x) →
  is_clock_text startTime = true →
  is_clock_text endTime = true →
  is_clock_text (Appointment.start_time existing) = true →
  is_clock_text (Appointment.end_time existing) = true →
  timeStringToMinutes startTime = Some s1 →
  timeStringToMinutes endTime = Some e1 →
  timeStringToMinutes (Appointment.start_time existing) = Some s2 →
  timeStringToMinutes (Appointment.end_time existing) = Some e2 →
  s1 < e1 → s2 < e2 →
  ∃ conflicts,
    checkAppointmentConflicts env db clinic staffIds date startTime endTime
      exclude = Returned conflicts
    ∧ (reports conflicts existing ↔ s1 < e2 ∧ s2 < e1).
Proof.
  intros Hday Hok Hrefs Hin Hclinic Hdate Hstatus Hstaff Hexclude
    _ _ _ _ Hs1 He1 Hs2 He2 H1 H2.
  assert (existing ∈ conflict_query db clinic day staffIds exclude)
    as Hcandidate by (apply conflict_query_spec; naive_solver).
  destruct (checkAppointmentConflicts_returns env db clinic staffIds date day
              startTime endTime exclude Hday Hok Hrefs)
    as (conflicts & Hret & Hspec).
  exists conflicts. split; [done|].
  rewrite <- (overlaps_spec startTime endTime existing s1 e1 s2 e2) by done.
  unfold reports. split.
  - intros (c & (a & p & d & _ & Hov & _ & _ & ->)%Hspec & _ & Hst & Hen).
    rewrite <- Hov. by apply overlaps_same_times.
  - intros Hov.
    unfold references_ok in Hrefs. rewrite Forall_forall in Hrefs.
    destruct (Hrefs existing Hin) as [[p Hp] [d Hd]].
    exists (conflict_of existing p d). split; [|done].
    apply Hspec. eauto 10.
Qed.

(** The one-minute overlap of C1: dentist 1 is booked from 09:00 to 10:00
    and the candidate slot is 09:59 to 10:59. *)
Lemma conflict_iff_intervals_intersect_witness :
  ∃ conflicts,
    checkAppointmentConflicts (Sample.accepting Sample.appt2)
      Sample.one_booking Sample.clinic [Sample.dentist1]
      (JS.new_Date Sample.june1_ms) "09:59:00" "10:59:00" None
    = Returned conflicts
    ∧ (reports conflicts Sample.nine_to_ten ↔ 599 < 600 ∧ 540 < 659).
Proof.
  apply (conflict_iff_intervals_intersect (Sample.accepting Sample.appt2)
           Sample.one_booking Sample.clinic [Sample.dentist1]
           (JS.new_Date Sample.june1_ms) Sample.june1 "09:59:00" "10:59:00"
           None Sample.nine_to_ten 599 659 540 600);
    first [ reflexivity | lia | discriminate | compute_done
          | intros x Hx; discriminate Hx ].
Defined.

(** The two boundary cases of C1, run on the store that holds one booking
    of dentist 1 from 09:00 to 10:00: a slot that starts when the booking
    ends is free, a slot that starts one minute earlier is not. *)
Example touching_slots_do_not_conflict :
  checkAppointmentConflicts (Sample.accepting Sample.appt2)
    Sample.one_booking Sample.clinic [Sample.dentist1]
    (JS.new_Date Sample.june1_ms) "10:00:00" "11:00:00" None
  = Returned [].
Proof. reflexivity. Qed.

Example one_minute_overlap_conflicts :
  checkAppointmentConflicts (Sample.accepting Sample.appt2)
    Sample.one_booking Sample.clinic [Sample.dentist1]
    (JS.new_Date Sample.june1_ms) "09:59:00" "10:59:00" None
  = Returned [ {| appointmentId := Sample.appt1;
                  patientName := "Ana Cruz";
                  startTime := "09:00:00";
                  endTime := "10:00:00";
                  dentistName := "Dana Lim" |} ].
Proof. reflexivity. Qed.

(** C1 as stated fails: sharing a staff identifier is not enough.  The
    booking of dentist 1 from 09:00 to 10:00 has assistant 1 attached; a
    slot from 09:30 to 10:30 requested for assistant 1 shares that staff
    identifier with it and intersects it, and the checker reports
    nothing. *)
Lemma shared_assistant_is_not_reported :
  let db := Sample.assisted_booking in
  let a := Sample.nine_to_ten in
  let staffIds := [Sample.assistant1] in
  (a ∈ appointments db
   ∧ Appointment.clinic_id a = Sample.clinic
   ∧ Appointment.appointment_date a = Sample.june1
   ∧ Appointment.status a ≠ "cancelled"
   ∧ (∃ s, s ∈ staffIds ∧ s ∈ staff_of db a)
   ∧ timeStringToMinutes "09:30:00" = Some 570
   ∧ timeStringToMinutes "10:30:00" = Some 630
   ∧ timeStringToMinutes (Appointment.start_time a) = Some 540
   ∧ timeStringToMinutes (Appointment.end_time a) = Some 600
   ∧ 570 < 630 ∧ 540 < 600
   ∧ (570 < 600 ∧ 540 < 630))
  ∧ checkAppointmentConflicts (Sample.accepting Sample.appt2) db
      Sample.clinic staffIds (JS.new_Date Sample.june1_ms)
      "09:30:00" "10:30:00" None
    = Returned []
  ∧ ¬ reports [] a.
Proof.
  cbv zeta. split; [|split; [reflexivity|]].
  - split; [compute_done|]. split; [done|]. split; [done|].
    split; [compute_done|].
    split; [exists Sample.assistant1; split; compute_done|].
    repeat split; first [ reflexivity | lia ].
  - intros (c & Hc & _). by apply elem_of_nil in Hc.
Qed.

(** C2 (as amended).  The rows the checker considers are exactly the
    appointments of the clinic on the date that are not cancelled and whose
    dentist ([dentist_id], the first of the staff of a booking) is one of
    the requested [staffIds], minus the appointment [excludeAppointmentId]
    names when that argument is given and not empty. *)
Theorem conflict_candidates
    (db : Db) (clinic : string) (day : Z) (staffIds : list string)
    (exclude : option string) (a : Appointment.row) :
  a ∈ conflict_query db clinic day staffIds exclude ↔
  a ∈ appointments db
  ∧ Appointment.clinic_id a = clinic
  ∧ Appointment.appointment_date a = day
  ∧ Appointment.status a ≠ "cancelled"
  ∧ Appointment.dentist_id a ∈ staffIds
  ∧ ∀ x, exclude = Some x → x ≠ EmptyString → Appointment.id a ≠ x.
Proof. apply conflict_query_spec. Qed.

(** C2 as stated fails: the booking of dentist 1 has assistant 1 attached,
    a request for assistant 1 shares that staff identifier with it, and the
    query does not select it. *)
Lemma assistant_is_not_a_candidate :
  let db := Sample.assisted_booking in
  let a := Sample.nine_to_ten in
  let staffIds := [Sample.assistant1] in
  (a ∈ appointments db
   ∧ Appointment.clinic_id a = Sample.clinic
   ∧ Appointment.appointment_date a = Sample.june1
   ∧ Appointment.status a ≠ "cancelled"
   ∧ (∃ s, s ∈ staffIds ∧ s ∈ staff_of db a))
  ∧ a ∉ conflict_query db Sample.clinic Sample.june1 staffIds None.
Proof.
  cbv zeta. split; [|compute_done].
  split; [compute_done|]. split; [done|]. split; [done|].
  split; [compute_done|].
  exists Sample.assistant1. split; compute_done.
Qed.


(** ** Booking writer: creation *)

Section CreateAppointment.

Implicit Types (db : Db) (env : Env) (auth : Auth).

Lemma is_uuid_nonempty s : is_uuid s = true → s ≠ EmptyString.
Proof. by destruct s. Qed.

(** What a successful parse says about the data. *)
Lemma CreateAppointmentSchema_valid f clinic user d :
  CreateAppointmentSchema f clinic user = inl d →
  d = create_data f clinic user
  ∧ 0 ≤ Data.time d ≤ 1439
  ∧ Forall (λ s, is_uuid s = true) (Data.staffIds d).
Proof.
  unfold CreateAppointmentSchema.
  destruct (create_issues f clinic user) as [|i issues] eqn:Hissues; [|done].
  intros [= <-]. split; [done|].
  unfold create_issues in Hissues.
  repeat match type of Hissues with
         | _ ++ _ = [] => apply app_eq_nil in Hissues as [? Hissues]
         end.
  split.
  - cbn [create_data Data.time].
    match goal with H : check_time _ = [] |- _ => rename H into Htime end.
    unfold check_time, check_min, check_max in Htime.
    destruct (0 <=? CreateForm.time f) eqn:Hlo; [|done].
    destruct (CreateForm.time f <=? 1439) eqn:Hhi; [|done].
    apply Z.leb_le in Hlo, Hhi. lia.
  - cbn [create_data Data.staffIds].
    match goal with
    | H : check_opt (check_each (check_uuid "staffIds")) _ = [] |- _ =>
        rename H into Hstaff
    end.
    destruct (CreateForm.staffIds f) as [staff|]; [|by constructor].
    cbn [check_opt default] in *. unfold check_each in Hstaff.
    induction staff as [|s staff IH]; [by constructor|].
    rewrite bind_cons in Hstaff. apply app_eq_nil in Hstaff as [Hs Hstaff].
    constructor; [|by apply IH].
    unfold check_uuid in Hs. by destruct (is_uuid s).
Qed.

(** The writes after the appointment row leave the appointments alone. *)
Lemma cascade_create_appointments env auth d row db :
  appointments (cascade_create env auth d row db) = appointments db.
Proof.
  unfold cascade_create, write.
  repeat match goal with
         | |- context [if ?b then _ else _] => destruct b
         end; reflexivity.
Qed.

(** Every way [createAppointment] can return [success: true]. *)
Lemma createAppointment_success env auth f db db' r :
  createAppointment env auth f db = (db', r) →
  success r = true →
  ∃ d day,
    let startTime := minutesToTimeString (Data.time d) in
    let endTime := minutesToTimeString (Data.time d + 60) in
    let row := new_appointment env auth d day startTime endTime in
    CreateAppointmentSchema f (clinicId auth) (user_id auth) = inl d
    ∧ JS.toISODate (JS.new_Date (Data.date d)) = Some day
    ∧ fails env InsertAppointment = false
    ∧ r = succeeded row
    ∧ db' = cascade_create env auth d row
              (set_appointments (appointments db ++ [row]) db).
Proof.
  unfold createAppointment.
  destruct (CreateAppointmentSchema f (clinicId auth) (user_id auth))
    as [d|issues]; [|by intros [= <- <-]].
  cbv zeta.
  destruct (checkAppointmentConflicts _ _ _ _ _ _ _ _) as [conflicts|exn];
    [|by intros [= <- <-]].
  destruct (Nat.ltb 0 (length conflicts)); [by intros [= <- <-]|].
  destruct (select_patient _ _ _ _); [|by intros [= <- <-]].
  destruct (JS.toISODate (JS.new_Date (Data.date d))) as [day|] eqn:Hday;
    [|by intros [= <- <-]].
  unfold write.
  destruct (fails env InsertAppointment) eqn:Hins; [by intros [= <- <-]|].
  intros [= <- <-] _. exists d, day. cbv zeta. done.
Qed.

End CreateAppointment.

(** C4.  When the request parses and the conflict checker, run on its slot,
    returns a non-empty list, [createAppointment] fails with the error
    [Appointment conflicts detected], carries that list and no appointment,
    and the store it leaves is the store it found: no appointment, staff
    association, prescription or log entry is written. *)
Theorem conflict_aborts_without_write
    (env : Env) (auth : Auth) (formData : CreateAppointmentFormData)
    (db : Db) (appointmentData : Data.t)
    (cs : list AppointmentConflict) :
  CreateAppointmentSchema formData (clinicId auth) (user_id auth)
    = inl appointmentData →
  checkAppointmentConflicts env db (clinicId auth)
    (Data.staffIds appointmentData)
    (JS.new_Date (Data.date appointmentData))
    (minutesToTimeString (Data.time appointmentData))
    (minutesToTimeString (Data.time appointmentData + 60)) None
    = Returned cs →
  cs ≠ [] →
  let run := createAppointment env auth formData db in
  success (snd run) = false
  ∧ error (snd run) = Some "Appointment conflicts detected"
  ∧ conflicts (snd run) = Some cs
  ∧ data (snd run) = None
  ∧ fieldErrors (snd run) = None
  ∧ fst run = db
  ∧ appointments (fst run) = appointments db
  ∧ appointment_staff (fst run) = appointment_staff db
  ∧ prescriptions (fst run) = prescriptions db
  ∧ activity_logs (fst run) = activity_logs db.
Proof.
  intros Hparse Hcheck Hne. cbv zeta. unfold createAppointment.
  rewrite Hparse. cbv zeta. rewrite Hcheck.
  by destruct cs.
Qed.

Lemma conflict_aborts_without_write_witness :
  let run := createAppointment (Sample.accepting Sample.appt2) Sample.auth
               (Sample.request (Some [Sample.dentist1]) 599 None)
               Sample.one_booking in
  success (snd run) = false
  ∧ error (snd run) = Some "Appointment conflicts detected"
  ∧ conflicts (snd run)
    = Some [ conflict_of Sample.nine_to_ten
               {| Patient.id := Sample.patient1;
                  Patient.clinic_id := Sample.clinic;
                  Patient.first_name := "Ana"; Patient.last_name := "Cruz" |}
               {| User.id := Sample.dentist1; User.first_name := "Dana";
                  User.last_name := "Lim" |} ]
  ∧ data (snd run) = None
  ∧ fieldErrors (snd run) = None
  ∧ fst run = Sample.one_booking
  ∧ appointments (fst run) = appointments Sample.one_booking
  ∧ appointment_staff (fst run) = appointment_staff Sample.one_booking
  ∧ prescriptions (fst run) = prescriptions Sample.one_booking
  ∧ activity_logs (fst run) = activity_logs Sample.one_booking.
Proof.
  apply (conflict_aborts_without_write (Sample.accepting Sample.appt2)
           Sample.auth (Sample.request (Some [Sample.dentist1]) 599 None)
           Sample.one_booking
           (create_data (Sample.request (Some [Sample.dentist1]) 599 None)
              Sample.clinic Sample.dentist1));
    [reflexivity | reflexivity | discriminate].
Defined.

(** ** Booking writer: validation *)

Section Validation.















End Validation.




(** ** Booking writer: storage failures *)

(** C9 (as amended).  A failure of the appointment insert is surfaced:
    [createAppointment] then returns [success: false] and leaves the store
    as it found it.  The outcomes of the writes that follow the appointment
    row (staff associations, prescriptions, log entry) are not read: two
    runs that differ only in which of those writes the store rejects return
    the same result to the caller. *)
Theorem cascade_outcomes_not_read
    (env env' : Env) (auth : Auth) (formData : CreateAppointmentFormData)
    (db : Db) :
  (∀ c, c ∉ [InsertAppointmentStaff; InsertPrescriptions; InsertActivityLog] →
        fails env' c = fails env c) →
  generated_id env' = generated_id env →
  snd (createAppointment env' auth formData db)
  = snd (createAppointment env auth formData db)
  ∧ (fails env InsertAppointment = true →
     success (snd (createAppointment env auth formData db)) = false
     ∧ fst (createAppointment env auth formData db) = db).
Proof.
  intros Hsame Hid.
  assert (fails env' SelectConflicts = fails env SelectConflicts) as Hsc
    by (apply Hsame; compute_done).
  assert (fails env' SelectPatient = fails env SelectPatient) as Hsp
    by (apply Hsame; compute_done).
  assert (fails env' InsertAppointment = fails env InsertAppointment) as Hia
    by (apply Hsame; compute_done).
  unfold createAppointment, checkAppointmentConflicts, select_patient, write,
    new_appointment.
  rewrite Hsc, Hsp, Hia, Hid.
  destruct (CreateAppointmentSchema _ _ _) as [d|issues]; [|done].
  cbv zeta.
  destruct (JS.toISODate (JS.new_Date (Data.date d))) as [day|]; [|done].
  destruct (fails env SelectConflicts);
    [cbn [length Nat.ltb Nat.leb]|
     destruct (forEach_existing _ _ _ _ _) as [conflicts|]; [|done];
     destruct (Nat.ltb 0 (length conflicts)); [done|]];
    (destruct (fails env SelectPatient); [done|]);
    (destruct (single _); [|done]);
    by destruct (fails env InsertAppointment).
Qed.

Lemma cascade_outcomes_not_read_witness :
  snd (createAppointment (Sample.rejecting_cascade Sample.appt1) Sample.auth
         Sample.assisted_request Sample.empty_db)
  = snd (createAppointment (Sample.accepting Sample.appt1) Sample.auth
           Sample.assisted_request Sample.empty_db)
  ∧ (fails (Sample.accepting Sample.appt1) InsertAppointment = true →
     success (snd (createAppointment (Sample.accepting Sample.appt1)
                     Sample.auth Sample.assisted_request Sample.empty_db))
     = false
     ∧ fst (createAppointment (Sample.accepting Sample.appt1) Sample.auth
              Sample.assisted_request Sample.empty_db) = Sample.empty_db).
Proof.
  apply (cascade_outcomes_not_read (Sample.accepting Sample.appt1)
           (Sample.rejecting_cascade Sample.appt1) Sample.auth
           Sample.assisted_request Sample.empty_db); [|reflexivity].
  intros c Hc. destruct c; first [ reflexivity | exfalso; apply Hc; compute_done ].
Defined.

(** A failure of the appointment insert is reported to the caller. *)
Example failed_insert_is_reported :
  createAppointment (Sample.rejecting InsertAppointment Sample.appt1)
    Sample.auth Sample.assisted_request Sample.empty_db
  = (Sample.empty_db, failed "Failed to create appointment").
Proof. reflexivity. Qed.

(** C9 as stated fails: the store commits the appointment row and rejects
    the staff associations, the prescription and the log entry, none of
    which is written, and [createAppointment] returns [success: true]. *)
Lemma failed_cascade_reports_success :
  let env := Sample.rejecting_cascade Sample.appt1 in
  let run := createAppointment env Sample.auth Sample.assisted_request
               Sample.empty_db in
  fails env InsertAppointmentStaff = true
  ∧ fails env InsertPrescriptions = true
  ∧ fails env InsertActivityLog = true
  ∧ success (snd run) = true
  ∧ length (appointments (fst run)) = 1%nat
  ∧ appointment_staff (fst run) = []
  ∧ prescriptions (fst run) = []
  ∧ activity_logs (fst run) = [].
Proof. cbv zeta. repeat split; reflexivity. Qed.

(** ** Booking writer: resubmission *)

(** C5 (as amended).  Take a booking request that names at least one staff
    member and whose status is not [cancelled], and let it succeed.  When
    the same request is submitted again to the store the first run left,
    with the conflict query answered, it fails and nothing is written; with
    the foreign keys of the stored appointments in place, it fails with the
    conflict error, whose list reports the appointment the first run
    created. *)
Theorem resubmission_conflicts
    (env1 env2 : Env) (auth : Auth) (formData : CreateAppointmentFormData)
    (db db1 : Db) (r : AppointmentActionResult) :
  createAppointment env1 auth formData db = (db1, r) →
  success r = true →
  default [] (CreateForm.staffIds formData) ≠ [] →
  default "scheduled" (CreateForm.status formData) ≠ "cancelled" →
  fails env2 SelectConflicts = false →
  ∃ row,
    data r = Some row
    ∧ row ∈ appointments db1
    ∧ (∃ r2, createAppointment env2 auth formData db1 = (db1, r2)
             ∧ success r2 = false)
    ∧ (references_ok db1 →
       ∃ conflicts,
         createAppointment env2 auth formData db1
         = (db1, conflicts_detected conflicts)
         ∧ reports conflicts row).
Proof.
  intros Hrun Hsuccess Hstaff Hstatus Hok.
  destruct (createAppointment_success _ _ _ _ _ _ Hrun Hsuccess)
    as (d & day & Hparse & Hday & _ & -> & Hdb1).
  cbv zeta in *.
  set (row := new_appointment env1 auth d day
                (minutesToTimeString (Data.time d))
                (minutesToTimeString (Data.time d + 60))) in *.
  destruct (CreateAppointmentSchema_valid _ _ _ _ Hparse)
    as (Hd & Htime & Huuid).
  assert (row ∈ appointments db1) as Hstored.
  { rewrite Hdb1, cascade_create_appointments. cbn.
    apply elem_of_app. right. by apply list_elem_of_singleton. }
  assert (row ∈ conflict_query db1 (clinicId auth) day (Data.staffIds d) None)
    as Hcandidate.
  { apply conflict_query_spec. repeat split; try done.
    - subst row d. done.
    - subst row. cbn [new_appointment Appointment.dentist_id].
      rewrite Hd in Huuid |- *. cbn [create_data Data.staffIds] in *.
      destruct (default [] (CreateForm.staffIds formData)) as [|s staff];
        [done|].
      apply Forall_cons in Huuid as [Hs%is_uuid_nonempty _].
      cbn. destruct (decide (s = EmptyString)); [done|].
      apply elem_of_cons. by left. }
  assert (overlaps (minutesToTimeString (Data.time d))
            (minutesToTimeString (Data.time d + 60)) row = true) as Hov.
  { apply (overlaps_spec _ _ row (Data.time d) (Data.time d + 60)
             (Data.time d) (Data.time d + 60));
      first [ apply decode_encode; lia | lia ]. }
  exists row. split; [done|]. split; [done|]. split.
  - unfold createAppointment. rewrite Hparse. cbv zeta.
    destruct (checkAppointmentConflicts _ _ _ _ _ _ _ _)
      as [conflicts|exn] eqn:Hcheck; [|by eexists].
    unfold checkAppointmentConflicts in Hcheck. rewrite Hday, Hok in Hcheck.
    apply (forEach_existing_overlapping _ _ _ _ _ row) in Hcheck; [|done..].
    destruct conflicts; [done|]. by eexists.
  - intros Hrefs.
    destruct (checkAppointmentConflicts_returns env2 db1 (clinicId auth)
                (Data.staffIds d) (JS.new_Date (Data.date d)) day
                (minutesToTimeString (Data.time d))
                (minutesToTimeString (Data.time d + 60)) None Hday Hok Hrefs)
      as (conflicts & Hret & Hspec).
    unfold references_ok in Hrefs. rewrite Forall_forall in Hrefs.
    destruct (Hrefs row Hstored) as [[p Hp] [u Hu]].
    assert (conflict_of row p u ∈ conflicts) as Hreported
      by (apply Hspec; eauto 10).
    exists conflicts. split.
    + unfold createAppointment. rewrite Hparse. cbv zeta. rewrite Hret.
      destruct conflicts; [by apply elem_of_nil in Hreported | done].
    + by exists (conflict_of row p u).
Qed.

Lemma resubmission_conflicts_witness :
  let formData := Sample.request (Some [Sample.dentist1]) 540 None in
  let first_run := createAppointment (Sample.accepting Sample.appt1)
                     Sample.auth formData Sample.empty_db in
  let second_run := createAppointment (Sample.accepting Sample.appt2)
                      Sample.auth formData (fst first_run) in
  references_ok (fst first_run)
  ∧ ∃ row,
      data (snd first_run) = Some row
      ∧ row ∈ appointments (fst first_run)
      ∧ (∃ r2, second_run = (fst first_run, r2) ∧ success r2 = false)
      ∧ (references_ok (fst first_run) →
         ∃ conflicts,
           second_run = (fst first_run, conflicts_detected conflicts)
           ∧ reports conflicts row).
Proof.
  cbv zeta. split; [compute_done|].
  apply (resubmission_conflicts (Sample.accepting Sample.appt1)
           (Sample.accepting Sample.appt2) Sample.auth
           (Sample.request (Some [Sample.dentist1]) 540 None)
           Sample.empty_db);
    first [ reflexivity | discriminate | apply surjective_pairing ].
Defined.

(** C5 as stated fails.  A request whose status is [cancelled] succeeds,
    and so does its resubmission: the first appointment is cancelled, the
    query leaves it out, a second row is written.  A request without staff
    succeeds with the acting user as dentist, and so does its resubmission:
    the query asks for a dentist among no staff. *)
Lemma resubmission_is_duplicated :
  let first_run f :=
    createAppointment (Sample.accepting Sample.appt1) Sample.auth f
      Sample.empty_db in
  let second_run f :=
    createAppointment (Sample.accepting Sample.appt2) Sample.auth f
      (fst (first_run f)) in
  let duplicated f :=
    success (snd (first_run f)) = true
    ∧ success (snd (second_run f)) = true
    ∧ conflicts (snd (second_run f)) = None
    ∧ length (appointments (fst (second_run f))) = 2%nat in
  duplicated (Sample.request (Some [Sample.dentist1]) 540 (Some "cancelled"))
  ∧ duplicated (Sample.request (Some []) 540 None).
Proof. cbv zeta. repeat split; reflexivity. Qed.


(** C6.  The start minute 1439 passes the schema, and the end time
    [createAppointment] computes for it and hands to the insert is
    [24:59:00], which is not a wall-clock time of the day. *)
Theorem booking_at_2359_ends_past_midnight :
  let formData := Sample.request (Some [Sample.dentist1]) 1439 None in
  let run := createAppointment (Sample.accepting Sample.appt1) Sample.auth
               formData Sample.empty_db in
  check_time (CreateForm.time formData) = []
  ∧ minutesToTimeString (CreateForm.time formData + 60) = "24:59:00"
  ∧ is_wall_clock "24:59:00" = false
  ∧ Appointment.start_time <$> data (snd run) = Some "23:59:00"
  ∧ Appointment.end_time <$> data (snd run) = Some "24:59:00".
Proof. cbv zeta. repeat split; reflexivity. Qed.

(** The end time stays within the day for the start minutes up to 22:59,
    and leaves it for every later one. *)
Lemma end_time_within_day_checked :
  Forall (λ t, is_whole_minute (minutesToTimeString t) = true
               ∧ is_whole_minute (minutesToTimeString (t + 60)) = true)
         (range 0 1380).
Proof. compute_done. Qed.

Lemma end_time_within_day t :
  0 ≤ t ≤ 1379 →
  is_whole_minute (minutesToTimeString t) = true
  ∧ is_whole_minute (minutesToTimeString (t + 60)) = true.
Proof.
  intros Ht. pose proof end_time_within_day_checked as Hall.
  rewrite Forall_forall in Hall. apply Hall, range_spec. lia.
Qed.

Lemma end_time_leaves_day t :
  1380 ≤ t ≤ 1439 →
  check_time t = [] ∧ is_wall_clock (minutesToTimeString (t + 60)) = false.
Proof.
  intros Ht. split.
  - unfold check_time, check_min, check_max.
    destruct (Z.leb_spec 0 t); [|lia]. destruct (Z.leb_spec t 1439); [done|lia].
  - apply encode_not_wall_clock. lia.
Qed.

(** ** Booking writer: updates *)

Section UpdateAppointment.

Implicit Types (db : Db) (env : Env) (auth : Auth).

(** An update that names neither a date nor a time goes from the lookup of
    the appointment straight to the write. *)
Lemma updateAppointment_without_slot env auth appointmentId f db :
  UpdateForm.date f = None → UpdateForm.time f = None →
  updateAppointment env auth appointmentId f db =
  match UpdateAppointmentSchema f with
  | inr issues => (db, validation_failed issues)
  | inl updateData =>
      match select_appointment env db appointmentId (clinicId auth) with
      | None => (db, failed "Appointment not found or access denied")
      | Some existingAppointment =>
          commit_update env auth appointmentId updateData existingAppointment
            None db
      end
  end.
Proof.
  intros Hdate Htime. unfold updateAppointment, UpdateAppointmentSchema.
  destruct (update_issues f); [|done].
  destruct (select_appointment _ _ _ _); [|done].
  cbn [update_data UpdateForm.date UpdateForm.time].
  rewrite Hdate, Htime.
  rewrite bool_decide_eq_false_2; [done | by intros [?|?]].
Qed.

(** The appointment the lookup found is the one row the update returns. *)
Lemma update_appointment_found env db appointmentId clinic u existing :
  select_appointment env db appointmentId clinic = Some existing →
  fails env UpdateAppointment = false →
  ∃ db1, update_appointment env db appointmentId clinic u
         = Some (apply_update u existing, db1).
Proof.
  unfold select_appointment, update_appointment. intros Hsel ->.
  destruct (fails env SelectAppointment); [done|].
  destruct (filter _ (filter _ (appointments db))) as [|a [|? ?]]; try done.
  injection Hsel as ->. cbn. eauto.
Qed.

Lemma commit_update_no_conflicts env auth appointmentId u existing slot db :
  conflicts (snd (commit_update env auth appointmentId u existing slot db))
  = None.
Proof.
  unfold commit_update. by destruct (update_appointment _ _ _ _ _) as [[? ?]|].
Qed.

End UpdateAppointment.

(** C10.  An update that names neither a date nor a time runs no conflict
    check, whatever staff it names: its result never carries a conflict
    list, and once the request parses, the appointment is found and the
    store accepts the update, it succeeds: the appointment it returns
    keeps its date and its times, and when the store accepts the change of
    the dentist, the appointment is stored with the first of the staff the
    request names as its dentist, whoever else that dentist is booked
    with. *)
Theorem staff_change_skips_conflict_check
    (env : Env) (auth : Auth) (appointmentId : string)
    (formData : UpdateAppointmentFormData) (db : Db) :
  UpdateForm.date formData = None →
  UpdateForm.time formData = None →
  let run := updateAppointment env auth appointmentId formData db in
  conflicts (snd run) = None
  ∧ ∀ existing,
      update_issues formData = [] →
      select_appointment env db appointmentId (clinicId auth) = Some existing →
      fails env UpdateAppointment = false →
      success (snd run) = true
      ∧ error (snd run) = None
      ∧ (∃ row,
           data (snd run) = Some row
           ∧ Appointment.id row = Appointment.id existing
           ∧ Appointment.appointment_date row
             = Appointment.appointment_date existing
           ∧ Appointment.start_time row = Appointment.start_time existing
           ∧ Appointment.end_time row = Appointment.end_time existing)
      ∧ ∀ dentist others,
          UpdateForm.staffIds formData = Some (dentist :: others) →
          fails env UpdateDentist = false →
          Forall (λ a, Appointment.id a = appointmentId →
                       Appointment.dentist_id a = dentist)
                 (appointments (fst run)).
Proof.
  intros Hdate Htime. cbv zeta.
  rewrite (updateAppointment_without_slot _ _ _ _ _ Hdate Htime).
  unfold UpdateAppointmentSchema. split.
  - destruct (update_issues formData); [|done].
    destruct (select_appointment _ _ _ _); [|done].
    apply commit_update_no_conflicts.
  - intros existing -> Hsel Hok. rewrite Hsel. unfold commit_update.
    destruct (update_appointment_found env db appointmentId (clinicId auth)
                (update_object (update_data formData) None) existing Hsel Hok)
      as (db1 & Hupdate).
    rewrite Hupdate. cbn [fst snd success error data succeeded].
    split; [done|]. split; [done|]. split; [by eexists|].
    intros dentist others Hstaff Hdentist.
    unfold cascade_update, write. cbn [update_data UpdateForm.staffIds].
    rewrite Hstaff, Hdentist. cbn [default first_of head snd].
    destruct (fails env InsertActivityLog), (fails env DeleteAppointmentStaff),
      (Nat.ltb 1 (length (dentist :: others))),
      (fails env InsertAppointmentStaff);
      cbn [snd appointments set_activity_logs set_appointments
             set_appointment_staff];
      unfold update_where; apply Forall_fmap, Forall_forall;
      intros a _ Hid; cbn in Hid |- *;
      by destruct (decide (Appointment.id a = appointmentId)).
Qed.

(** The reassignment of C10: dentist 1 and dentist 2 are both booked from
    09:00 to 10:00, and the appointment of dentist 1 is handed to dentist 2.
    The update succeeds and leaves dentist 2 with two appointments in the
    slot. *)
Lemma staff_change_skips_conflict_check_witness :
  let env := Sample.accepting Sample.appt3 in
  let formData := Sample.restaff [Sample.dentist2] in
  let run := updateAppointment env Sample.auth Sample.appt1 formData
               Sample.two_dentists in
  (conflicts (snd run) = None
   ∧ ∀ existing,
       update_issues formData = [] →
       select_appointment env Sample.two_dentists Sample.appt1
         (clinicId Sample.auth) = Some existing →
       fails env UpdateAppointment = false →
       success (snd run) = true
       ∧ error (snd run) = None
       ∧ (∃ row,
            data (snd run) = Some row
            ∧ Appointment.id row = Appointment.id existing
            ∧ Appointment.appointment_date row
              = Appointment.appointment_date existing
            ∧ Appointment.start_time row = Appointment.start_time existing
            ∧ Appointment.end_time row = Appointment.end_time existing)
       ∧ ∀ dentist others,
           UpdateForm.staffIds formData = Some (dentist :: others) →
           fails env UpdateDentist = false →
           Forall (λ a, Appointment.id a = Sample.appt1 →
                        Appointment.dentist_id a = dentist)
                  (appointments (fst run)))
  ∧ success (snd run) = true
  ∧ appointments (fst run)
    = [ Sample.booked Sample.appt1 Sample.patient1 Sample.dentist2
          "09:00:00" "10:00:00" "scheduled";
        Sample.booked Sample.appt2 Sample.patient2 Sample.dentist2
          "09:00:00" "10:00:00" "scheduled" ].
Proof.
  cbv zeta. split; [|split; reflexivity].
  apply (staff_change_skips_conflict_check (Sample.accepting Sample.appt3)
           Sample.auth Sample.appt1 (Sample.restaff [Sample.dentist2])
           Sample.two_dentists); reflexivity.
Defined.

(** * Further properties of the booking actions *)

Section CheckerReports.

Implicit Types (db : Db) (env : Env) (auth : Auth).

(** Whatever the loop returns beyond what it was given comes from an
    overlapping row it visited. *)
Lemma forEach_existing_from db startTime endTime rows acc l c :
  forEach_existing db startTime endTime rows acc = Returned l →
  c ∈ l →
  c ∈ acc ∨ ∃ a p d, a ∈ rows ∧ overlaps startTime endTime a = true
                     ∧ c = conflict_of a p d.
Proof.
  revert acc. induction rows as [|a rows IH]; intros acc; simpl.
  - intros [= <-] Hc. by left.
  - destruct (overlaps startTime endTime a) eqn:Hov.
    + destruct (patient_of db a) as [p|]; [|done].
      destruct (dentist_of db a) as [d|]; [|done].
      intros Hret Hc.
      destruct (IH _ Hret Hc) as [[Hacc| ->%list_elem_of_singleton]%elem_of_app
                                 |(a' & p' & d' & ? & ? & ->)].
      * by left.
      * right. exists a, p, d. split; [apply elem_of_cons; by left | done].
      * right. exists a', p', d'. split; [apply elem_of_cons; by right | done].
    + intros Hret Hc.
      destruct (IH _ Hret Hc) as [?|(a' & p' & d' & ? & ? & ->)]; [by left|].
      right. exists a', p', d'. split; [apply elem_of_cons; by right | done].
Qed.

(** Every conflict the checker returns describes an overlapping row of its
    query. *)
Lemma checkAppointmentConflicts_from env db clinic staffIds date startTime
    endTime exclude l c :
  checkAppointmentConflicts env db clinic staffIds date startTime endTime
    exclude = Returned l →
  c ∈ l →
  ∃ day a p d,
    JS.toISODate date = Some day
    ∧ a ∈ conflict_query db clinic day staffIds exclude
    ∧ overlaps startTime endTime a = true
    ∧ c = conflict_of a p d.
Proof.
  unfold checkAppointmentConflicts.
  destruct (JS.toISODate date) as [day|]; [|done].
  destruct (fails env SelectConflicts).
  - intros [= <-] Hc. by apply elem_of_nil in Hc.
  - intros Hret Hc.
    destruct (forEach_existing_from _ _ _ _ _ _ _ Hret Hc)
      as [Hnil|(a & p & d & ? & ? & ->)]; [by apply elem_of_nil in Hnil|].
    exists day, a, p, d. done.
Qed.

Lemma select_patient_foreign env db patientId clinic :
  (∀ p, p ∈ patients db → Patient.id p = patientId →
        Patient.clinic_id p ≠ clinic) →
  select_patient env db patientId clinic = None.
Proof.
  intros Hforeign. unfold select_patient.
  destruct (fails env SelectPatient); [done|].
  destruct (filter _ (filter _ (patients db))) as [|p ps] eqn:Hfilter; [done|].
  assert (p ∈ filter (λ p, Patient.clinic_id p = clinic)
                (filter (λ p, Patient.id p = patientId) (patients db))) as Hp
    by (rewrite Hfilter; apply elem_of_cons; by left).
  apply list_elem_of_filter in Hp as (Hclinic & Hp).
  apply list_elem_of_filter in Hp as (Hid & Hin).
  by destruct (Hforeign p).
Qed.

Lemma select_appointment_foreign env db appointmentId clinic :
  (∀ a, a ∈ appointments db → Appointment.id a = appointmentId →
        Appointment.clinic_id a ≠ clinic) →
  filter (λ a, Appointment.clinic_id a = clinic)
    (filter (λ a, Appointment.id a = appointmentId) (appointments db)) = [].
Proof.
  intros Hforeign.
  destruct (filter _ (filter _ (appointments db))) as [|a rows] eqn:Hfilter;
    [done|].
  assert (a ∈ filter (λ a, Appointment.clinic_id a = clinic)
                (filter (λ a, Appointment.id a = appointmentId)
                   (appointments db))) as Ha
    by (rewrite Hfilter; apply elem_of_cons; by left).
  apply list_elem_of_filter in Ha as (Hclinic & Ha).
  apply list_elem_of_filter in Ha as (Hid & Hin).
  by destruct (Hforeign a).
Qed.

End CheckerReports.

Section MoreCreate.

Implicit Types (db : Db) (env : Env) (auth : Auth).

(** A run that does not succeed leaves the store as it found it. *)
Lemma createAppointment_failure env auth f db db' r :
  createAppointment env auth f db = (db', r) →
  success r = false → db' = db.
Proof.
  unfold createAppointment.
  destruct (CreateAppointmentSchema f (clinicId auth) (user_id auth))
    as [d|issues]; [|by intros [= <- <-]].
  cbv zeta.
  destruct (checkAppointmentConflicts _ _ _ _ _ _ _ _) as [conflicts|exn];
    [|by intros [= <- <-]].
  destruct (Nat.ltb 0 (length conflicts)); [by intros [= <- <-]|].
  destruct (select_patient _ _ _ _); [|by intros [= <- <-]].
  destruct (JS.toISODate (JS.new_Date (Data.date d))) as [day|];
    [|by intros [= <- <-]].
  unfold write.
  destruct (fails env InsertAppointment); [by intros [= <- <-]|].
  by intros [= <- <-].
Qed.

(** What the writes after the appointment row add to each table. *)
Lemma cascade_create_staff env auth d row db :
  appointment_staff (cascade_create env auth d row db)
  = appointment_staff db ++
    (if Nat.ltb 1 (length (Data.staffIds d))
        && negb (fails env InsertAppointmentStaff)
     then staff_associations (Appointment.id row) (Data.staffIds d) else []).
Proof.
  unfold cascade_create, write.
  destruct (Nat.ltb 1 _), (fails env InsertAppointmentStaff),
    (Nat.ltb 0 _), (fails env InsertPrescriptions),
    (fails env InsertActivityLog); cbn; by rewrite ?app_nil_r.
Qed.

Lemma cascade_create_prescriptions env auth d row db :
  prescriptions (cascade_create env auth d row db)
  = prescriptions db ++
    (if Nat.ltb 0 (length (Data.prescriptions d))
        && negb (fails env InsertPrescriptions)
     then prescription_rows auth d (Appointment.id row) else []).
Proof.
  unfold cascade_create, write.
  destruct (Nat.ltb 1 _), (fails env InsertAppointmentStaff),
    (Nat.ltb 0 _), (fails env InsertPrescriptions),
    (fails env InsertActivityLog); cbn; by rewrite ?app_nil_r.
Qed.

Lemma cascade_create_logs env auth d row db :
  activity_logs (cascade_create env auth d row db)
  = activity_logs db ++
    (if fails env InsertActivityLog then []
     else [create_log auth d (Appointment.id row)]).
Proof.
  unfold cascade_create, write.
  destruct (Nat.ltb 1 _), (fails env InsertAppointmentStaff),
    (Nat.ltb 0 _), (fails env InsertPrescriptions),
    (fails env InsertActivityLog); cbn; by rewrite ?app_nil_r.
Qed.

Lemma cascade_create_people env auth d row db :
  patients (cascade_create env auth d row db) = patients db
  ∧ users (cascade_create env auth d row db) = users db.
Proof.
  unfold cascade_create, write.
  by destruct (Nat.ltb 1 _), (fails env InsertAppointmentStaff),
    (Nat.ltb 0 _), (fails env InsertPrescriptions),
    (fails env InsertActivityLog).
Qed.

Lemma filter_none {A} (P : A → Prop) `{∀ x, Decision (P x)} (l : list A) :
  (∀ x, x ∈ l → ¬ P x) → filter P l = [].
Proof.
  induction l as [|x l IH]; intros Hl; [done|].
  rewrite filter_cons_False by (apply Hl, elem_of_cons; by left).
  apply IH. intros y Hy. apply Hl, elem_of_cons. by right.
Qed.

Lemma filter_all {A} (P : A → Prop) `{∀ x, Decision (P x)} (l : list A) :
  (∀ x, x ∈ l → P x) → filter P l = l.
Proof.
  induction l as [|x l IH]; intros Hl; [done|].
  rewrite filter_cons_True by (apply Hl, elem_of_cons; by left).
  f_equal. apply IH. intros y Hy. apply Hl, elem_of_cons. by right.
Qed.

End MoreCreate.

(** X1.  [updateAppointment] never reports the appointment that is being
    updated as a conflict of its own new slot: no descriptor of the conflict
    list it returns carries the identifier it was called with. *)
Theorem update_never_reports_itself
    (env : Env) (auth : Auth) (target : string)
    (formData : UpdateAppointmentFormData) (db : Db) :
  target ≠ EmptyString →
  Forall (λ c, appointmentId c ≠ target)
    (default []
       (conflicts (snd (updateAppointment env auth target formData db)))).
Proof.
  intros Htarget. unfold updateAppointment.
  destruct (UpdateAppointmentSchema formData) as [u|issues]; [|by constructor].
  destruct (select_appointment _ _ _ _) as [existing|]; [|by constructor].
  destruct (bool_decide _);
    [|rewrite commit_update_no_conflicts; by constructor].
  cbv zeta.
  destruct (checkAppointmentConflicts _ _ _ _ _ _ _ _) as [cs|] eqn:Hcheck;
    [|by constructor].
  destruct (Nat.ltb 0 (length cs)).
  - cbn. apply Forall_forall. intros c Hc.
    destruct (checkAppointmentConflicts_from _ _ _ _ _ _ _ _ _ _ Hcheck Hc)
      as (day & a & p & d & _ & Ha & _ & ->).
    apply conflict_query_spec in Ha as (_ & _ & _ & _ & _ & Hexclude).
    cbn. by apply Hexclude.
  - destruct (JS.toISODate _); [|by constructor].
    rewrite commit_update_no_conflicts. by constructor.
Qed.

(** Dentist 1 is booked 09:00-10:00 and 10:00-11:00; moving the first
    booking to 09:30, with dentist 1 named as its staff, conflicts with the
    second one only. *)
Lemma update_never_reports_itself_witness :
  let run := updateAppointment (Sample.accepting Sample.appt3) Sample.auth
               Sample.appt1 (Cases.rebook [Sample.dentist1] 570)
               Cases.morning in
  appointmentId <$> default [] (conflicts (snd run)) = [Sample.appt2]
  ∧ Forall (λ c, appointmentId c ≠ Sample.appt1)
      (default [] (conflicts (snd run))).
Proof.
  cbv zeta. split; [reflexivity|].
  apply (update_never_reports_itself (Sample.accepting Sample.appt3)
           Sample.auth Sample.appt1 (Cases.rebook [Sample.dentist1] 570)
           Cases.morning).
  discriminate.
Defined.

(** X2.  [createAppointment] books nothing for a patient who is not a
    patient of the caller's clinic: the run fails and writes nothing. *)
Theorem foreign_patient_is_not_booked
    (env : Env) (auth : Auth) (formData : CreateAppointmentFormData)
    (db : Db) :
  (∀ p, p ∈ patients db →
        Patient.id p = CreateForm.patientId formData →
        Patient.clinic_id p ≠ clinicId auth) →
  fst (createAppointment env auth formData db) = db
  ∧ success (snd (createAppointment env auth formData db)) = false.
Proof.
  intros Hforeign.
  destruct (createAppointment env auth formData db) as [db' r] eqn:Hrun.
  destruct (success r) eqn:Hsuccess;
    [|split; [by eapply createAppointment_failure | done]].
  exfalso. revert Hrun. unfold createAppointment.
  destruct (CreateAppointmentSchema _ _ _) as [d|issues] eqn:Hparse;
    [|intros [= <- <-]; done].
  apply CreateAppointmentSchema_valid in Hparse as (-> & _).
  cbv zeta.
  destruct (checkAppointmentConflicts _ _ _ _ _ _ _ _) as [cs|];
    [|intros [= <- <-]; done].
  destruct (Nat.ltb 0 (length cs)); [intros [= <- <-]; done|].
  rewrite select_patient_foreign by done.
  intros [= <- <-]. done.
Qed.

(** The patient of the request belongs to the sample clinic, the caller to
    another one. *)
Lemma foreign_patient_is_not_booked_witness :
  let run := createAppointment (Sample.accepting Sample.appt2) Cases.outsider
               (Sample.request (Some [Sample.dentist2]) 840 None)
               Sample.one_booking in
  fst run = Sample.one_booking ∧ success (snd run) = false.
Proof.
  apply (foreign_patient_is_not_booked (Sample.accepting Sample.appt2)
           Cases.outsider (Sample.request (Some [Sample.dentist2]) 840 None)
           Sample.one_booking).
  intros p Hp _.
  apply elem_of_cons in Hp as [->|Hp]; [discriminate|].
  apply list_elem_of_singleton in Hp as ->. discriminate.
Defined.

(** X3.  [createAppointment] only ever appends: the rows of every table it
    found are still there, in place, after the run; it writes at most one
    appointment; the appointment, the prescriptions and the log entry it
    adds carry the caller's clinic, the staff associations it adds point to
    the appointment it added; patients and users are not touched. *)
Theorem createAppointment_only_appends
    (env : Env) (auth : Auth) (formData : CreateAppointmentFormData)
    (db : Db) :
  let db' := fst (createAppointment env auth formData db) in
  ∃ new_a new_s new_p new_l,
    appointments db' = appointments db ++ new_a
    ∧ appointment_staff db' = appointment_staff db ++ new_s
    ∧ prescriptions db' = prescriptions db ++ new_p
    ∧ activity_logs db' = activity_logs db ++ new_l
    ∧ patients db' = patients db
    ∧ users db' = users db
    ∧ (length new_a ≤ 1)%nat
    ∧ Forall (λ a, Appointment.clinic_id a = clinicId auth) new_a
    ∧ Forall (λ s, AppointmentStaff.appointment_id s
                   ∈ Appointment.id <$> new_a) new_s
    ∧ Forall (λ p, Prescription.clinic_id p = clinicId auth) new_p
    ∧ Forall (λ e, ActivityLog.clinic_id e = clinicId auth) new_l.
Proof.
  cbv zeta.
  destruct (createAppointment env auth formData db) as [db' r] eqn:Hrun.
  destruct (success r) eqn:Hsuccess.
  - destruct (createAppointment_success _ _ _ _ _ _ Hrun Hsuccess)
      as (d & day & _ & _ & _ & _ & ->).
    cbv zeta. cbn [fst].
    set (row := new_appointment env auth d day _ _).
    eexists [row], _, _, _.
    rewrite cascade_create_appointments, cascade_create_staff,
      cascade_create_prescriptions, cascade_create_logs.
    destruct (cascade_create_people env auth d row
                (set_appointments (appointments db ++ [row]) db))
      as [-> ->].
    cbn [set_appointments appointments appointment_staff prescriptions
         activity_logs patients users].
    repeat split; try done.
    + by repeat constructor.
    + destruct (_ && _); [|by constructor].
      unfold staff_associations. apply Forall_fmap, Forall_forall.
      intros s _. cbn. apply elem_of_cons. by left.
    + destruct (_ && _); [|by constructor].
      unfold prescription_rows. apply Forall_fmap, Forall_forall. by intros.
    + destruct (fails env InsertActivityLog); by repeat constructor.
  - apply (createAppointment_failure _ _ _ _ _ _ Hrun) in Hsuccess as ->.
    exists [], [], [], []. cbn [fst]. rewrite !app_nil_r.
    repeat split; first [ done | by constructor | cbn; lia ].
Qed.

(** X4.  The staff of a booking read back from the store is the staff of
    the request: when [createAppointment] succeeds with its staff
    associations accepted, under an identifier no staff association was
    using, the dentist of the stored appointment followed by its assistants
    is the requested staff list - or the acting user alone when the request
    names no staff. *)
Theorem booked_staff_round_trip
    (env : Env) (auth : Auth) (formData : CreateAppointmentFormData)
    (db db' : Db) (r : AppointmentActionResult) :
  createAppointment env auth formData db = (db', r) →
  success r = true →
  fails env InsertAppointmentStaff = false →
  (∀ s, s ∈ appointment_staff db →
        AppointmentStaff.appointment_id s ≠ generated_id env) →
  ∃ row,
    data r = Some row
    ∧ staff_of db' row
      = match default [] (CreateForm.staffIds formData) with
        | [] => [user_id auth]
        | staffIds => staffIds
        end.
Proof.
  intros Hrun Hsuccess Haccepted Hfresh.
  destruct (createAppointment_success _ _ _ _ _ _ Hrun Hsuccess)
    as (d & day & Hparse & _ & _ & -> & ->).
  cbv zeta.
  set (row := new_appointment env auth d day _ _).
  exists row. split; [done|].
  destruct (CreateAppointmentSchema_valid _ _ _ _ Hparse) as (Hd & _ & Huuid).
  unfold staff_of. rewrite cascade_create_staff, Haccepted.
  cbn [set_appointments appointment_staff negb].
  rewrite andb_true_r, filter_app.
  assert (filter (λ s, AppointmentStaff.appointment_id s = Appointment.id row)
            (appointment_staff db) = []) as ->.
  { apply filter_none. intros s Hs. by apply Hfresh. }
  assert (Data.staffIds d = default [] (CreateForm.staffIds formData))
    as Hstaff by (by rewrite Hd).
  rewrite <- Hstaff.
  assert (AppointmentStaff.staff_id <$>
            filter (λ s, AppointmentStaff.appointment_id s = Appointment.id row)
              (if Nat.ltb 1 (length (Data.staffIds d))
               then staff_associations (Appointment.id row) (Data.staffIds d)
               else [])
          = drop 1 (Data.staffIds d)) as Hassistants.
  { destruct (Data.staffIds d) as [|s [|s' staff]]; [done..|].
    cbn [length Nat.ltb Nat.leb]. unfold staff_associations.
    rewrite filter_all by (by intros ? (? & -> & _)%list_elem_of_fmap).
    rewrite <- list_fmap_compose. apply list_fmap_id. }
  cbn [app]. rewrite Hassistants.
  subst row. cbn [new_appointment Appointment.dentist_id].
  destruct (Data.staffIds d) as [|s staff]; [done|].
  apply Forall_cons in Huuid as [Hs%is_uuid_nonempty _].
  cbn. by destruct (decide (s = EmptyString)).
Qed.

Lemma booked_staff_round_trip_witness :
  let run := createAppointment (Sample.accepting Sample.appt1) Sample.auth
               Sample.assisted_request Sample.empty_db in
  ∃ row,
    data (snd run) = Some row
    ∧ staff_of (fst run) row = [Sample.dentist1; Sample.assistant1].
Proof.
  apply (booked_staff_round_trip (Sample.accepting Sample.appt1) Sample.auth
           Sample.assisted_request Sample.empty_db);
    first [ reflexivity | apply surjective_pairing
          | intros s Hs; by apply elem_of_nil in Hs ].
Defined.

(** X5.  The conflict check fails open.  When the store does not answer
    the conflict query, the checker has nothing to report, and a request
    that parses, for a patient of the clinic, is booked as soon as the
    store accepts the appointment row - whatever is booked already. *)
Theorem unanswered_conflict_query_books
    (env : Env) (auth : Auth) (formData : CreateAppointmentFormData)
    (db : Db) (d : Data.t) (day : Z) (patient : Patient.row) :
  CreateAppointmentSchema formData (clinicId auth) (user_id auth) = inl d →
  JS.toISODate (JS.new_Date (Data.date d)) = Some day →
  fails env SelectConflicts = true →
  select_patient env db (Data.patientId d) (clinicId auth) = Some patient →
  fails env InsertAppointment = false →
  let row := new_appointment env auth d day
               (minutesToTimeString (Data.time d))
               (minutesToTimeString (Data.time d + 60)) in
  snd (createAppointment env auth formData db) = succeeded row
  ∧ appointments (fst (createAppointment env auth formData db))
    = appointments db ++ [row].
Proof.
  intros Hparse Hday Hunanswered Hpatient Haccepted. cbv zeta.
  unfold createAppointment, checkAppointmentConflicts, write.
  rewrite Hparse. cbv zeta.
  rewrite Hday, Hunanswered, Hpatient, Haccepted.
  cbn [length Nat.ltb Nat.leb fst snd].
  by rewrite cascade_create_appointments.
Qed.

(** Dentist 1 is booked from 09:00 to 10:00; with the conflict query
    unanswered the same slot is booked a second time. *)
Lemma unanswered_conflict_query_books_witness :
  let env := Sample.rejecting SelectConflicts Sample.appt2 in
  let formData := Sample.request (Some [Sample.dentist1]) 540 None in
  let run := createAppointment env Sample.auth formData Sample.one_booking in
  (snd run = succeeded (Sample.booked Sample.appt2 Sample.patient1
                          Sample.dentist1 "09:00:00" "10:00:00" "scheduled")
   ∧ appointments (fst run)
     = appointments Sample.one_booking ++
       [Sample.booked Sample.appt2 Sample.patient1 Sample.dentist1
          "09:00:00" "10:00:00" "scheduled"])
  ∧ overlaps "09:00:00" "10:00:00" Sample.nine_to_ten = true.
Proof.
  cbv zeta. split; [|reflexivity].
  apply (unanswered_conflict_query_books
           (Sample.rejecting SelectConflicts Sample.appt2) Sample.auth
           (Sample.request (Some [Sample.dentist1]) 540 None)
           Sample.one_booking
           (create_data (Sample.request (Some [Sample.dentist1]) 540 None)
              Sample.clinic Sample.dentist1)
           Sample.june1
           {| Patient.id := Sample.patient1;
              Patient.clinic_id := Sample.clinic;
              Patient.first_name := "Ana"; Patient.last_name := "Cruz" |});
    reflexivity.
Defined.

(** X6.  A conflict aborts an update as it aborts a booking.  The staff
    that is checked is the staff the request names (none when it names no
    staff).  When an update names a date or a time and the checker returns
    a non-empty list for the new slot, [updateAppointment] fails with the
    error [Appointment conflicts detected], carries that list and no
    appointment, and writes nothing. *)
Theorem update_conflict_aborts_without_write
    (env : Env) (auth : Auth) (target : string)
    (formData : UpdateAppointmentFormData) (db : Db)
    (existing : Appointment.row) (cs : list AppointmentConflict) :
  update_issues formData = [] →
  select_appointment env db target (clinicId auth) = Some existing →
  UpdateForm.date formData ≠ None ∨ UpdateForm.time formData ≠ None →
  checkAppointmentConflicts env db (clinicId auth)
    (default [] (UpdateForm.staffIds formData))
    (newDate (new_slot formData existing))
    (newStartTime (new_slot formData existing))
    (newEndTime (new_slot formData existing)) (Some target) = Returned cs →
  cs ≠ [] →
  let run := updateAppointment env auth target formData db in
  fst run = db
  ∧ success (snd run) = false
  ∧ error (snd run) = Some "Appointment conflicts detected"
  ∧ conflicts (snd run) = Some cs
  ∧ data (snd run) = None.
Proof.
  intros Hvalid Hfound Hslot Hcheck Hcs. cbv zeta.
  unfold updateAppointment, UpdateAppointmentSchema.
  rewrite Hvalid, Hfound.
  cbn [update_data UpdateForm.date UpdateForm.time UpdateForm.staffIds].
  rewrite bool_decide_eq_true_2 by done.
  cbv zeta. cbn [default from_option].
  change (id (default [] (UpdateForm.staffIds formData)))
    with (default [] (UpdateForm.staffIds formData)).
  change (new_slot (update_data formData) existing)
    with (new_slot formData existing).
  rewrite Hcheck. by destruct cs.
Qed.

Lemma update_conflict_aborts_without_write_witness :
  let run := updateAppointment (Sample.accepting Sample.appt3) Sample.auth
               Sample.appt1 (Cases.rebook [Sample.dentist1] 570)
               Cases.morning in
  fst run = Cases.morning
  ∧ success (snd run) = false
  ∧ error (snd run) = Some "Appointment conflicts detected"
  ∧ conflicts (snd run)
    = Some [ conflict_of Cases.ten_to_eleven
               {| Patient.id := Sample.patient2;
                  Patient.clinic_id := Sample.clinic;
                  Patient.first_name := "Ben"; Patient.last_name := "Reyes" |}
               {| User.id := Sample.dentist1; User.first_name := "Dana";
                  User.last_name := "Lim" |} ]
  ∧ data (snd run) = None.
Proof.
  apply (update_conflict_aborts_without_write (Sample.accepting Sample.appt3)
           Sample.auth Sample.appt1 (Cases.rebook [Sample.dentist1] 570)
           Cases.morning Sample.nine_to_ten);
    first [ reflexivity | discriminate | right; discriminate ].
Defined.

Section UpdateWithoutStaff.

(** The checker has nothing to report when no staff is requested. *)
Lemma checkAppointmentConflicts_no_staff env db clinic date startTime endTime
    exclude cs :
  checkAppointmentConflicts env db clinic [] date startTime endTime exclude
  = Returned cs →
  cs = [].
Proof.
  intros Hcheck. destruct cs as [|c cs]; [done|]. exfalso.
  destruct (checkAppointmentConflicts_from _ _ _ _ _ _ _ _ _ c Hcheck)
    as (day & a & p & d & _ & Ha & _); [by left|].
  apply conflict_query_spec in Ha as (_ & _ & _ & _ & Hstaff & _).
  by apply elem_of_nil in Hstaff.
Qed.

Lemma commit_update_error env auth appointmentId u existing slot db :
  error (snd (commit_update env auth appointmentId u existing slot db))
  ≠ Some "Appointment conflicts detected".
Proof.
  unfold commit_update. by destruct (update_appointment _ _ _ _ _) as [[? ?]|].
Qed.

End UpdateWithoutStaff.

(** X25.  An update that names no staff is checked against no one: the
    parsed [staffIds] is the empty list the schema defaults it to, not the
    dentist of the appointment, the query of the checker selects nothing,
    and the update never ends in the conflict error, whatever the dentist
    is booked with in the new slot. *)
Theorem update_without_staff_is_not_checked
    (env : Env) (auth : Auth) (target : string)
    (formData : UpdateAppointmentFormData) (db : Db) :
  UpdateForm.staffIds formData = None →
  let run := updateAppointment env auth target formData db in
  conflicts (snd run) = None
  ∧ error (snd run) ≠ Some "Appointment conflicts detected".
Proof.
  intros Hstaff. cbv zeta. unfold updateAppointment, UpdateAppointmentSchema.
  destruct (update_issues formData); [|done].
  destruct (select_appointment _ _ _ _) as [existing|]; [|done].
  cbn [update_data UpdateForm.date UpdateForm.time UpdateForm.staffIds].
  rewrite Hstaff. cbn [default from_option]. unfold id at 1.
  destruct (bool_decide _);
    [|split; [apply commit_update_no_conflicts | apply commit_update_error]].
  cbv zeta.
  destruct (checkAppointmentConflicts _ _ _ _ _ _ _ _) as [cs|] eqn:Hcheck;
    [|done].
  apply checkAppointmentConflicts_no_staff in Hcheck as ->.
  cbn [length Nat.ltb Nat.leb].
  destruct (JS.toISODate _); [|done].
  split; [apply commit_update_no_conflicts | apply commit_update_error].
Qed.

(** Dentist 1 is booked 09:00-10:00 and 10:00-11:00.  Moving the first
    booking to 09:30 without naming the staff succeeds: the dentist is then
    booked 09:30-10:30 and 10:00-11:00, and the appointment comes back
    [scheduled]. *)
Lemma update_without_staff_is_not_checked_witness :
  let run := updateAppointment (Sample.accepting Sample.appt3) Sample.auth
               Sample.appt1 (Cases.move_to 570) Cases.morning in
  (conflicts (snd run) = None
   ∧ error (snd run) ≠ Some "Appointment conflicts detected")
  ∧ success (snd run) = true
  ∧ (λ a, (Appointment.dentist_id a, Appointment.start_time a,
           Appointment.end_time a)) <$> appointments (fst run)
    = [ (Sample.dentist1, "09:30:00", "10:30:00");
        (Sample.dentist1, "10:00:00", "11:00:00") ].
Proof.
  cbv zeta. split; [|split; reflexivity].
  apply (update_without_staff_is_not_checked (Sample.accepting Sample.appt3)
           Sample.auth Sample.appt1 (Cases.move_to 570) Cases.morning).
  reflexivity.
Defined.

(** An update resets the status: the schema defaults [isDone] to [false],
    and [isDone] decides the status.  A confirmed appointment whose notes
    are edited comes back [scheduled]. *)
Example update_resets_the_status :
  let confirmed :=
    Sample.people
      [ Sample.booked Sample.appt1 Sample.patient1 Sample.dentist1
          "09:00:00" "10:00:00" "confirmed" ] [] in
  Appointment.status <$>
    data (snd (updateAppointment (Sample.accepting Sample.appt3) Sample.auth
                 Sample.appt1 (Sample.restaff [Sample.dentist1]) confirmed))
  = Some "scheduled".
Proof. reflexivity. Qed.

(** X7.  [updateAppointment] does not reach an appointment of another
    clinic: when no appointment of the caller's clinic carries the
    identifier, the run fails and writes nothing. *)
Theorem foreign_appointment_is_not_updated
    (env : Env) (auth : Auth) (target : string)
    (formData : UpdateAppointmentFormData) (db : Db) :
  (∀ a, a ∈ appointments db → Appointment.id a = target →
        Appointment.clinic_id a ≠ clinicId auth) →
  fst (updateAppointment env auth target formData db) = db
  ∧ success (snd (updateAppointment env auth target formData db)) = false.
Proof.
  intros Hforeign. unfold updateAppointment.
  destruct (UpdateAppointmentSchema formData); [|done].
  unfold select_appointment.
  rewrite select_appointment_foreign by done.
  by destruct (fails env SelectAppointment).
Qed.

Lemma foreign_appointment_is_not_updated_witness :
  let run := updateAppointment (Sample.accepting Sample.appt3) Cases.outsider
               Sample.appt1 (Cases.move_to 840) Sample.one_booking in
  fst run = Sample.one_booking ∧ success (snd run) = false.
Proof.
  apply (foreign_appointment_is_not_updated (Sample.accepting Sample.appt3)
           Cases.outsider Sample.appt1 (Cases.move_to 840)
           Sample.one_booking).
  intros a Ha _. apply list_elem_of_singleton in Ha as ->. discriminate.
Defined.

(** X8.  For a start minute the schema admits, the start time
    [createAppointment] computes is always a wall-clock time of the day,
    and the end time it computes is one exactly when the start minute is
    at most 1379 (22:59). *)
Theorem end_time_within_day_iff (t : Z) :
  0 ≤ t ≤ 1439 →
  is_wall_clock (minutesToTimeString t) = true
  ∧ (is_wall_clock (minutesToTimeString (t + 60)) = true ↔ t ≤ 1379).
Proof.
  intros Ht.
  assert (∀ m, 0 ≤ m ≤ 1439 → is_wall_clock (minutesToTimeString m) = true)
    as Hday.
  { intros m Hm. destruct (decide (m ≤ 1379)) as [Hlo|Hhi].
    - destruct (end_time_within_day m) as [Hm1 _]; [lia|].
      by apply andb_prop in Hm1 as [? _].
    - destruct (end_time_within_day (m - 60)) as [_ Hm2]; [lia|].
      replace (m - 60 + 60) with m in Hm2 by lia.
      by apply andb_prop in Hm2 as [? _]. }
  split; [by apply Hday|]. split.
  - intros Hend. destruct (decide (t ≤ 1379)); [done|].
    rewrite encode_not_wall_clock in Hend; [done | lia].
  - intros Hlo. apply Hday. lia.
Qed.

Lemma end_time_within_day_iff_witness :
  0 ≤ 1380 ≤ 1439
  ∧ is_wall_clock (minutesToTimeString 1380) = true
  ∧ (is_wall_clock (minutesToTimeString (1380 + 60)) = true ↔ 1380 ≤ 1379).
Proof. split; [lia | apply (end_time_within_day_iff 1380); lia]. Defined.

Section Cancel.

Implicit Types (db : Db) (env : Env) (auth : Auth).

(** The store after an accepted update of an appointment. *)
Lemma update_appointment_rows env db target clinic u updated db1 :
  update_appointment env db target clinic u = Some (updated, db1) →
  appointments db1
  = update_where (λ a, Appointment.id a = target
                       ∧ Appointment.clinic_id a = clinic)
      (apply_update u) (appointments db)
  ∧ ∃ existing,
      filter (λ a, Appointment.clinic_id a = clinic)
        (filter (λ a, Appointment.id a = target) (appointments db))
      = [existing]
      ∧ updated = apply_update u existing.
Proof.
  unfold update_appointment.
  destruct (fails env UpdateAppointment); [done|]. cbv zeta.
  destruct (filter _ (filter _ (appointments db))) as [|a [|? ?]]; try done.
  cbn. intros [= <- <-]. split; [done | eauto].
Qed.

End Cancel.

(** X9.  A cancelled appointment no longer blocks its slot.  After a
    successful [cancelAppointment], whatever the checker returns for the
    caller's clinic on the resulting store, for any staff, date and slot,
    carries no descriptor of the cancelled appointment. *)
Theorem cancel_frees_the_slot
    (env env' : Env) (auth : Auth) (target : string) (reason : option string)
    (db db' : Db) (r : AppointmentActionResult)
    (staffIds : list string) (date : JS.Date) (startTime endTime : string)
    (exclude : option string) :
  cancelAppointment env auth target reason db = (db', r) →
  success r = true →
  match checkAppointmentConflicts env' db' (clinicId auth) staffIds date
          startTime endTime exclude with
  | Returned cs => Forall (λ c, appointmentId c ≠ target) cs
  | Thrown _ => True
  end.
Proof.
  intros Hrun Hsuccess.
  assert (appointments db'
          = update_where (λ a, Appointment.id a = target
                               ∧ Appointment.clinic_id a = clinicId auth)
              (apply_update cancel_object) (appointments db)) as Hrows.
  { revert Hrun Hsuccess. unfold cancelAppointment.
    destruct (update_appointment _ _ _ _ _) as [[updated db1]|] eqn:Hupdate;
      [|by intros [= <- <-]].
    apply update_appointment_rows in Hupdate as [Hdb1 _].
    unfold write.
    destruct (fails env InsertActivityLog); intros [= <- _] _; exact Hdb1. }
  destruct (checkAppointmentConflicts _ _ _ _ _ _ _ _) as [cs|] eqn:Hcheck;
    [|done].
  apply Forall_forall. intros c Hc.
  destruct (checkAppointmentConflicts_from _ _ _ _ _ _ _ _ _ _ Hcheck Hc)
    as (day & a & p & d & _ & Ha & _ & ->).
  apply conflict_query_spec in Ha as (Hin & Hclinic & _ & Hstatus & _).
  rewrite Hrows in Hin. unfold update_where in Hin.
  apply list_elem_of_fmap in Hin as (a0 & -> & _).
  cbn. destruct (decide _) as [_|Hother]; [done|].
  intros Hid. by apply Hother.
Qed.

(** Dentist 1 is booked 09:00-10:00 and 10:00-11:00; once the first booking
    is cancelled, the slot 09:30-10:30 conflicts with the second one
    only. *)
Lemma cancel_frees_the_slot_witness :
  let run := cancelAppointment (Sample.accepting Sample.appt3) Sample.auth
               Sample.appt1 (Some "patient called") Cases.morning in
  match checkAppointmentConflicts (Sample.accepting Sample.appt3) (fst run)
          (clinicId Sample.auth) [Sample.dentist1]
          (JS.new_Date Sample.june1_ms) "09:30:00" "10:30:00" None with
  | Returned cs => Forall (λ c, appointmentId c ≠ Sample.appt1) cs
  | Thrown _ => True
  end.
Proof.
  apply (cancel_frees_the_slot (Sample.accepting Sample.appt3)
           (Sample.accepting Sample.appt3) Sample.auth Sample.appt1
           (Some "patient called") Cases.morning _ _ [Sample.dentist1]
           (JS.new_Date Sample.june1_ms) "09:30:00" "10:30:00" None
           (surjective_pairing _)).
  reflexivity.
Defined.

(** X10.  Whether [cancelAppointment] succeeds does not depend on the
    status the appointment has: it succeeds exactly when the store accepts
    the update and one appointment of the caller's clinic carries the
    identifier - a completed or an already cancelled one included - and
    the appointment it returns is that one with status [cancelled]. *)
Theorem cancel_succeeds_iff
    (env : Env) (auth : Auth) (target : string) (reason : option string)
    (db : Db) :
  success (snd (cancelAppointment env auth target reason db)) = true ↔
  fails env UpdateAppointment = false
  ∧ ∃ existing,
      filter (λ a, Appointment.clinic_id a = clinicId auth)
        (filter (λ a, Appointment.id a = target) (appointments db))
      = [existing]
      ∧ data (snd (cancelAppointment env auth target reason db))
        = Some (apply_update cancel_object existing)
      ∧ Appointment.status (apply_update cancel_object existing)
        = "cancelled".
Proof.
  unfold cancelAppointment, update_appointment.
  destruct (fails env UpdateAppointment).
  - split; [done | by intros [? _]].
  - cbv zeta.
    destruct (filter _ (filter _ (appointments db))) as [|a [|? ?]]; cbn.
    + split; [done | by intros [_ (? & ? & _)]].
    + split; [|done]. intros _. split; [done|]. by exists a.
    + split; [done | by intros [_ (? & ? & _)]].
Qed.



(** A completed appointment is cancelled like any other. *)
Example completed_appointment_can_be_cancelled :
  snd (cancelAppointment (Sample.accepting Sample.appt3) Sample.auth
         Sample.appt1 None Cases.completed_booking)
  = succeeded
      (Sample.booked Sample.appt1 Sample.patient1 Sample.dentist1
         "09:00:00" "10:00:00" "cancelled").
Proof. reflexivity. Qed.

(** * Further properties of the time codec *)

Section Decimal.

(** What a digit character is not. *)
Lemma digit_char c d :
  JS.digit c = Some d →
  0 ≤ d ≤ 9
  ∧ Ascii.eqb c ":" = false ∧ Ascii.eqb c "-" = false
  ∧ Ascii.eqb c "+" = false.
Proof.
  destruct c as [[] [] [] [] [] [] [] []]; intros H; vm_compute in H;
    first [ discriminate H | injection H as <-; repeat split; done ].
Qed.

Lemma digits_uint_acc (d : Decimal.uint) (acc : positive) :
  JS.digits (Z.pos acc) (NilEmpty.string_of_uint d)
  = Some (Z.pos (Pos.of_uint_acc d acc)).
Proof.
  revert acc. induction d as [|d IH|d IH|d IH|d IH|d IH|d IH|d IH|d IH|d IH|d IH];
    intros acc; [done|..];
    cbn [NilEmpty.string_of_uint JS.digits Pos.of_uint_acc];
    rewrite <- IH; cbv [JS.digit]; cbn; f_equal; lia.
Qed.

(** Reading the decimal notation of a number gives the number. *)
Lemma digits_uint (d : Decimal.uint) :
  JS.digits 0 (NilEmpty.string_of_uint d) = Some (Z.of_N (Pos.of_uint d)).
Proof.
  induction d as [|d IH|d IH|d IH|d IH|d IH|d IH|d IH|d IH|d IH|d IH];
    [done|exact IH|..];
    cbn [NilEmpty.string_of_uint JS.digits Pos.of_uint];
    cbv [JS.digit]; cbn; apply digits_uint_acc.
Qed.

Lemma to_uint_string (p : positive) :
  NilZero.string_of_uint (Pos.to_uint p)
  = NilEmpty.string_of_uint (Pos.to_uint p)
  ∧ ∃ c rest, NilEmpty.string_of_uint (Pos.to_uint p) = String c rest.
Proof.
  pose proof (DecimalPos.Unsigned.of_to p) as Hof.
  destruct (Pos.to_uint p); [done|..]; cbn; eauto.
Qed.

Lemma digits_toString (n : Z) : 0 ≤ n → JS.digits 0 (JS.toString n) = Some n.
Proof.
  destruct n as [|p|p]; [done| |lia]. intros _.
  unfold JS.toString. cbn [Z.to_int NilZero.string_of_int].
  destruct (to_uint_string p) as [-> _].
  by rewrite digits_uint, DecimalPos.Unsigned.of_to.
Qed.

(** A string of digits has digits only. *)
Lemma digits_forall acc s v :
  JS.digits acc s = Some v → string_forall is_digit s = true.
Proof.
  revert acc. induction s as [|c s IH]; intros acc; [done|].
  cbn [JS.digits string_forall]. unfold is_digit.
  destruct (JS.digit c); [|done]. apply IH.
Qed.

Lemma digits_zeros k acc s :
  JS.digits acc (JS.repeat_char k "0" +:+ s)
  = JS.digits (10 ^ Z.of_nat k * acc) s.
Proof.
  revert acc. induction k as [|k IH]; intros acc.
  - cbn [JS.repeat_char String.append]. f_equal. lia.
  - change (JS.digits acc (JS.repeat_char (S k) "0" +:+ s))
      with (JS.digits (10 * acc + 0) (JS.repeat_char k "0" +:+ s)).
    rewrite IH. f_equal. rewrite Nat2Z.inj_succ, Z.pow_succ_r by lia. lia.
Qed.

(** [Number] on a string that starts with a digit reads its digits. *)
Lemma Number_digits c rest d :
  JS.digit c = Some d →
  JS.Number (String c rest) = JS.digits 0 (String c rest).
Proof.
  intros (_ & _ & Hminus & Hplus)%digit_char.
  unfold JS.Number. by rewrite Hminus, Hplus.
Qed.

(** Padding with zeros and reading back: [Number] undoes [padStart] after
    [toString] on a number that is not negative. *)
Lemma Number_padStart (n : nat) (z : Z) :
  0 ≤ z → JS.Number (JS.padStart n "0" (JS.toString z)) = Some z.
Proof.
  intros Hz. pose proof (digits_toString z Hz) as Hdigits.
  assert (∃ c rest d, JS.padStart n "0" (JS.toString z) = String c rest
                      ∧ JS.digit c = Some d) as (c & rest & d & Hs & Hd).
  { unfold JS.padStart.
    destruct (n - String.length (JS.toString z))%nat as [|k];
      cbn [JS.repeat_char String.append]; [|by eexists _, _, 0].
    destruct (JS.toString z) as [|c rest] eqn:Hstr.
    - destruct z as [|p|p]; [done| |lia]. unfold JS.toString in Hstr.
      cbn [Z.to_int NilZero.string_of_int] in Hstr.
      destruct (to_uint_string p) as (Heq & c & rest & Hcons).
      congruence.
    - cbn [JS.digits] in Hdigits.
      destruct (JS.digit c) as [d|] eqn:Hd; [|done]. by exists c, rest, d. }
  rewrite Hs, (Number_digits _ _ _ Hd), <- Hs. unfold JS.padStart.
  rewrite digits_zeros, Z.mul_0_r. exact Hdigits.
Qed.

(** A negative number is at least two characters long, so that padding
    to two leaves it alone, and [Number] reads it back. *)
Lemma Number_pad2_negative (z : Z) :
  z < 0 →
  JS.padStart 2 "0" (JS.toString z) = JS.toString z
  ∧ JS.Number (JS.toString z) = Some z
  ∧ ∃ rest v, JS.toString z = String "-" rest ∧ JS.digits 0 rest = Some v.
Proof.
  destruct z as [|p|p]; [lia|lia|]. intros _.
  unfold JS.toString. cbn [Z.to_int NilZero.string_of_int].
  destruct (to_uint_string p) as (-> & c & rest & Hcons).
  pose proof (digits_uint (Pos.to_uint p)) as Hdigits.
  rewrite DecimalPos.Unsigned.of_to in Hdigits.
  rewrite Hcons in Hdigits |- *.
  split; [done|]. split; [|eauto].
  unfold JS.Number. cbn [Ascii.eqb Bool.eqb]. by rewrite Hdigits.
Qed.

Lemma Number_pad2 (z : Z) :
  JS.Number (JS.padStart 2 "0" (JS.toString z)) = Some z.
Proof.
  destruct (decide (0 ≤ z)); [by apply Number_padStart|].
  destruct (Number_pad2_negative z) as (-> & -> & _); [lia | done].
Qed.

End Decimal.

Section CodecAnyMinute.

Lemma string_forall_app p s1 s2 :
  string_forall p (s1 +:+ s2) = string_forall p s1 && string_forall p s2.
Proof.
  induction s1 as [|c s1 IH]; [done|].
  simpl. by rewrite IH, andb_assoc.
Qed.

Lemma string_forall_impl (p q : ascii → bool) s :
  (∀ c, p c = true → q c = true) →
  string_forall p s = true → string_forall q s = true.
Proof.
  intros Hpq. induction s as [|c s IH]; [done|]. cbn [string_forall].
  intros [Hc Hs]%andb_prop. by rewrite (Hpq c Hc), IH.
Qed.

Lemma string_forall_repeat p k c :
  p c = true → string_forall p (JS.repeat_char k c) = true.
Proof. intros Hc. induction k as [|k IH]; [done|]. cbn. by rewrite Hc, IH. Qed.

Lemma is_digit_not_colon c :
  is_digit c = true → negb (Ascii.eqb c ":") = true.
Proof.
  unfold is_digit. destruct (JS.digit c) as [d|] eqn:Hd; [|done].
  apply digit_char in Hd as (_ & -> & _). done.
Qed.

(** Splitting at the first separator. *)
Lemma split_append sep s1 s2 :
  string_forall (λ c, negb (Ascii.eqb c sep)) s1 = true →
  JS.split sep (s1 +:+ String sep s2) = s1 :: JS.split sep s2.
Proof.
  induction s1 as [|c s1 IH]; simpl.
  - intros _. by rewrite Ascii.eqb_refl.
  - intros [Hc Hs1]%andb_prop. apply negb_true_iff in Hc.
    by rewrite Hc, IH.
Qed.

(** The hours and the minutes of an encoded time hold no colon. *)
Lemma padded_no_colon z :
  string_forall (λ c, negb (Ascii.eqb c ":"))
    (JS.padStart 2 "0" (JS.toString z)) = true.
Proof.
  destruct (decide (0 ≤ z)) as [Hz|Hz].
  - unfold JS.padStart. rewrite string_forall_app.
    rewrite string_forall_repeat by done.
    apply (string_forall_impl is_digit); [apply is_digit_not_colon|].
    eapply digits_forall, digits_toString, Hz.
  - destruct (Number_pad2_negative z) as (-> & _ & rest & v & -> & Hrest);
      [lia|].
    cbn [string_forall]. apply andb_true_intro. split; [done|].
    apply (string_forall_impl is_digit); [apply is_digit_not_colon|].
    by eapply digits_forall.
Qed.

End CodecAnyMinute.

(** X12.  On the minute counts of magnitude up to 2^52, where the
    arithmetic of the source is exact, decoding undoes encoding for every
    count that is not negative, also beyond a day, and for the negative
    multiples of 60; on any other negative count the round trip comes back
    60 short (the hours are floored, the minutes keep the sign of the
    count). *)
Theorem decode_encode_any_minute (m : Z) :
  Z.abs m ≤ 2 ^ 52 →
  timeStringToMinutes (minutesToTimeString m)
  = Some (if decide (0 ≤ m ∨ Z.rem m 60 = 0) then m else m - 60).
Proof.
  intros _. unfold timeStringToMinutes, minutesToTimeString. cbv zeta.
  change (?a +:+ ":" +:+ ?b +:+ ":00")
    with (a +:+ String ":" (b +:+ String ":" "00")).
  rewrite !split_append by apply padded_no_colon.
  cbn [fmap list_fmap]. rewrite !Number_pad2. cbn [JS.add JS.mul mbind option_bind].
  f_equal. destruct (decide _) as [[Hm|Hm]|Hm];
    Z.to_euclidean_division_equations; lia.
Qed.

(** One minute before the hour, an hour before midnight. *)
Lemma decode_encode_any_minute_witness :
  Z.abs (-61) ≤ 2 ^ 52
  ∧ timeStringToMinutes (minutesToTimeString (-61))
    = Some (if decide (0 ≤ -61 ∨ Z.rem (-61) 60 = 0) then -61 else -61 - 60).
Proof.
  split; [by vm_compute|].
  apply (decode_encode_any_minute (-61)). by vm_compute.
Defined.

Example decode_encode_minus_61 :
  minutesToTimeString (-61) = "-2:-1:00"
  ∧ timeStringToMinutes (minutesToTimeString (-61)) = Some (-121).
Proof. split; reflexivity. Qed.

Section DecodeWallClock.

(** The decoder reads two digits, a colon and two digits, and ignores what
    follows the second colon. *)
Lemma decode_hhmm h1 h2 m1 m2 rest a b c d :
  JS.digit h1 = Some a → JS.digit h2 = Some b →
  JS.digit m1 = Some c → JS.digit m2 = Some d →
  timeStringToMinutes
    (String h1 (String h2 (String ":" (String m1 (String m2
       (String ":" rest))))))
  = Some (60 * (10 * a + b) + (10 * c + d)).
Proof.
  intros Ha Hb Hc Hd.
  change (String h1 (String h2 (String ":" (String m1 (String m2
            (String ":" rest))))))
    with (String h1 (String h2 "") +:+
          String ":" (String m1 (String m2 "") +:+ String ":" rest)).
  unfold timeStringToMinutes.
  destruct (digit_char _ _ Ha) as (_ & Ha' & _).
  destruct (digit_char _ _ Hb) as (_ & Hb' & _).
  destruct (digit_char _ _ Hc) as (_ & Hc' & _).
  destruct (digit_char _ _ Hd) as (_ & Hd' & _).
  rewrite !split_append by (cbn; by rewrite ?Ha', ?Hb', ?Hc', ?Hd').
  cbn [fmap list_fmap].
  rewrite (Number_digits _ _ _ Ha), (Number_digits _ _ _ Hc).
  cbn [JS.digits]. rewrite Ha, Hb, Hc, Hd.
  cbn [JS.add JS.mul mbind option_bind]. f_equal. lia.
Qed.

End DecodeWallClock.

(** X13.  On every wall-clock time of the day the decoder returns a minute
    count between 0 and 1439, and encoding that count gives the time back
    with its seconds set to 00: the round trip truncates to the minute. *)
Theorem decode_truncates_to_minute (t : string) :
  is_wall_clock t = true →
  ∃ m, timeStringToMinutes t = Some m
       ∧ 0 ≤ m ≤ 1439
       ∧ minutesToTimeString m = String.substring 0 5 t +:+ ":00".
Proof.
  intros Hwc. unfold is_wall_clock in Hwc.
  destruct t as [|h1 t]; [done|]. destruct t as [|h2 t]; [done|].
  destruct t as [|c1 t]; [done|]. destruct t as [|m1 t]; [done|].
  destruct t as [|m2 t]; [done|]. destruct t as [|c2 t]; [done|].
  destruct t as [|s1 t]; [done|]. destruct t as [|s2 t]; [done|].
  destruct t; [|done].
  apply andb_prop in Hwc as [Hcol Hdig].
  apply andb_prop in Hcol as [Hc1 Hc2].
  apply Ascii.eqb_eq in Hc1, Hc2. subst.
  destruct (JS.digit h1) as [a|] eqn:E1; [|done].
  destruct (JS.digit h2) as [b|] eqn:E2; [|done].
  destruct (JS.digit m1) as [c|] eqn:E3; [|done].
  destruct (JS.digit m2) as [d|] eqn:E4; [|done].
  destruct (JS.digit s1) as [e|] eqn:E5; [|done].
  destruct (JS.digit s2) as [f|] eqn:E6; [|done].
  apply andb_prop in Hdig as [Hhm Hs]. apply andb_prop in Hhm as [Hh Hm].
  apply Z.ltb_lt in Hh, Hm.
  destruct (digit_char _ _ E1) as (? & _), (digit_char _ _ E2) as (? & _),
    (digit_char _ _ E3) as (? & _), (digit_char _ _ E4) as (? & _).
  exists (60 * (10 * a + b) + (10 * c + d)).
  split; [by apply decode_hhmm|]. split; [lia|].
  cbn [String.substring].
  pose proof (decode_hhmm h1 h2 m1 m2 "00" a b c d E1 E2 E3 E4) as Hdecode.
  pose proof encode_decode_checked as Hall.
  rewrite Forall_forall in Hall.
  specialize (Hall _ (digit_chars_spec _ _ E1)).
  rewrite Forall_forall in Hall.
  specialize (Hall _ (digit_chars_spec _ _ E2)).
  rewrite Forall_forall in Hall.
  specialize (Hall _ (digit_chars_spec _ _ E3)).
  rewrite Forall_forall in Hall.
  specialize (Hall _ (digit_chars_spec _ _ E4)).
  unfold hhmm00 in Hall. rewrite Hdecode in Hall.
  cbn [fmap option_fmap option_map] in Hall.
  assert (is_whole_minute
            (String h1 (String h2 (String ":" (String m1 (String m2 ":00")))))
          = true) as Hwhole.
  { unfold is_whole_minute, is_wall_clock. rewrite E1, E2, E3, E4.
    change (JS.digit "0") with (Some 0). cbn [Ascii.eqb Bool.eqb andb].
    apply andb_true_intro. split; [|done].
    apply andb_true_intro. split; [|done].
    apply andb_true_intro. split; by apply Z.ltb_lt. }
  specialize (Hall Hwhole). by injection Hall as ->.
Qed.

Lemma decode_truncates_to_minute_witness :
  is_wall_clock "09:30:15" = true
  ∧ ∃ m, timeStringToMinutes "09:30:15" = Some m
         ∧ 0 ≤ m ≤ 1439
         ∧ minutesToTimeString m = String.substring 0 5 "09:30:15" +:+ ":00".
Proof.
  split; [reflexivity|].
  apply (decode_truncates_to_minute "09:30:15"). reflexivity.
Defined.


(** * Properties of the payment actions *)

Section PaymentReferences.

Lemma method_errors_short m ref : (length (Billing.method_errors m ref) ≤ 1)%nat.
Proof.
  unfold Billing.method_errors.
  repeat case_decide; repeat case_match; cbn; lia.
Qed.

Lemma digits_test_spec lo hi s :
  Billing.digits_test lo hi s = true →
  (lo ≤ String.length s ≤ hi)%nat ∧ string_forall is_digit s = true.
Proof.
  unfold Billing.digits_test.
  intros [[Hlo Hhi]%andb_prop Hdigits]%andb_prop.
  apply Nat.leb_le in Hlo, Hhi. done.
Qed.

Lemma alnum_test_spec lo hi s :
  Billing.alnum_test lo hi s = true → (lo ≤ String.length s ≤ hi)%nat.
Proof.
  unfold Billing.alnum_test.
  intros [[Hlo Hhi]%andb_prop _]%andb_prop.
  apply Nat.leb_le in Hlo, Hhi. done.
Qed.

End PaymentReferences.

(** X14.  The reference check reports at most one error, and it finds the
    payment valid exactly when it reports none. *)
Theorem validatePaymentMethod_reports (paymentMethod : string)
    (transactionReference : option string) (amount : option Z) :
  let v := Billing.validatePaymentMethod paymentMethod transactionReference
             amount in
  (Billing.isValid v = true ↔ Billing.errors v = [])
  ∧ (length (Billing.errors v) ≤ 1)%nat.
Proof.
  cbv zeta. unfold Billing.validatePaymentMethod.
  case_decide; [cbn; split; [done | lia]|].
  destruct transactionReference as [[|c rest]|];
    cbn [Billing.isValid Billing.errors length];
    [split; [split; discriminate | lia]| |split; [split; discriminate | lia]].
  pose proof (method_errors_short paymentMethod (String c rest)) as Hshort.
  split; [|done].
  destruct (Billing.method_errors paymentMethod (String c rest));
    cbn; split; done.
Qed.

(** X15.  A payment the reference check accepts is a cash payment or
    carries a transaction reference that is not empty, so that it passes
    the refinement of the schema whatever its external transaction id. *)
Theorem accepted_payment_carries_reference (paymentMethod : string)
    (transactionReference externalTransactionId : option string)
    (amount : option Z) :
  Billing.isValid
    (Billing.validatePaymentMethod paymentMethod transactionReference amount)
  = true →
  (paymentMethod = "cash"
   ∨ ∃ ref, transactionReference = Some ref ∧ ref ≠ EmptyString)
  ∧ Billing.PaymentWithReferences_refinement paymentMethod
      transactionReference externalTransactionId = true.
Proof.
  unfold Billing.validatePaymentMethod,
    Billing.PaymentWithReferences_refinement.
  case_decide; [by auto|].
  destruct transactionReference as [[|c rest]|]; cbn; [done| |done].
  intros _. split; [|done]. right. by eexists.
Qed.

Lemma accepted_payment_carries_reference_witness :
  Billing.isValid
    (Billing.validatePaymentMethod "gcash" (Some "1234567890123")
       (Some 100000))
  = true
  ∧ ("gcash" = "cash"
     ∨ ∃ ref, Some "1234567890123" = Some ref ∧ ref ≠ EmptyString)
  ∧ Billing.PaymentWithReferences_refinement "gcash"
      (Some "1234567890123") None = true.
Proof.
  split; [reflexivity|].
  apply (accepted_payment_carries_reference "gcash" (Some "1234567890123")
           None (Some 100000)).
  reflexivity.
Defined.

(** The converse fails: the refinement is content with an external
    transaction id, the reference check is not. *)
Example external_id_alone_is_rejected :
  Billing.PaymentWithReferences_refinement "credit_card" None
    (Some "ch_3MqLiJLkdIwHu7ix") = true
  ∧ Billing.validatePaymentMethod "credit_card" None (Some 100000)
    = {| Billing.isValid := false;
         Billing.errors :=
           ["Transaction reference is required for non-cash payments"] |}.
Proof. done. Qed.

(** X16.  A reference accepted for GCash, PayMaya, a bank transfer or a
    check has between 6 and 30 characters, and digits only for GCash and
    checks. *)
Theorem accepted_reference_is_bounded (paymentMethod ref : string)
    (amount : option Z) :
  paymentMethod ∈ ["gcash"; "paymaya"; "bank_transfer"; "check"] →
  Billing.isValid
    (Billing.validatePaymentMethod paymentMethod (Some ref) amount) = true →
  (6 ≤ String.length ref ≤ 30)%nat
  ∧ (paymentMethod = "gcash" ∨ paymentMethod = "check" →
     string_forall is_digit ref = true).
Proof.
  intros Hmethod. unfold Billing.validatePaymentMethod.
  destruct ref as [|c rest].
  { case_decide; [|done]. subst. by vm_compute in Hmethod;
      repeat (apply elem_of_cons in Hmethod as [Hmethod|Hmethod];
              [done|]); apply elem_of_nil in Hmethod. }
  repeat (apply elem_of_cons in Hmethod as [->|Hmethod]);
    [..|by apply elem_of_nil in Hmethod];
    cbn [decide]; unfold Billing.method_errors;
    repeat (case_decide; [done|]); rewrite decide_True by done;
    cbn [Billing.isValid].
  - destruct (Billing.digits_test 13 13 _) eqn:Htest; [|done].
    apply digits_test_spec in Htest as [Hlen Hdigits].
    intros _. split; [lia | done].
  - destruct (Billing.alnum_test 6 20 _) eqn:Htest; [|done].
    apply alnum_test_spec in Htest. intros _. split; [lia|].
    by intros [|].
  - destruct (_ || _) eqn:Htest; [done|].
    apply orb_false_elim in Htest as [Hlo Hhi].
    apply Nat.ltb_ge in Hlo, Hhi. intros _. split; [lia|]. by intros [|].
  - destruct (Billing.digits_test 6 12 _) eqn:Htest; [|done].
    apply digits_test_spec in Htest as [Hlen Hdigits].
    intros _. split; [lia | done].
Qed.

Lemma accepted_reference_is_bounded_witness :
  "check" ∈ ["gcash"; "paymaya"; "bank_transfer"; "check"]
  ∧ Billing.isValid
      (Billing.validatePaymentMethod "check" (Some "00412345") None) = true
  ∧ (6 ≤ String.length "00412345" ≤ 30)%nat
  ∧ ("check" = "gcash" ∨ "check" = "check" →
     string_forall is_digit "00412345" = true).
Proof.
  split; [set_solver|]. split; [reflexivity|].
  apply (accepted_reference_is_bounded "check" "00412345" None);
    [set_solver | reflexivity].
Defined.


Section PaymentVerification.

Lemma single_inv {A} (l : list A) (x : A) : single l = Some x → l = [x].
Proof. destruct l as [|a [|b l]]; cbn; congruence. Qed.

Lemma select_payment_found env s paymentId clinic p :
  Billing.select_payment env s paymentId clinic = Some p →
  filter (λ p, Billing.Payment.clinic_id p = clinic)
    (filter (λ p, Billing.Payment.id p = paymentId) (Billing.payments s))
  = [p].
Proof.
  unfold Billing.select_payment.
  destruct (Billing.fails env Billing.SelectPayment); [done|].
  apply single_inv.
Qed.

(** The rows an update has gone over, selected again. *)
Lemma updated_selection (f : Billing.Payment.row → Billing.Payment.row)
    paymentId clinic (rows : list Billing.Payment.row) :
  (∀ p, Billing.Payment.id (f p) = Billing.Payment.id p
        ∧ Billing.Payment.clinic_id (f p) = Billing.Payment.clinic_id p) →
  filter (λ p, Billing.Payment.clinic_id p = clinic)
    (filter (λ p, Billing.Payment.id p = paymentId)
       ((λ p, if decide (Billing.Payment.id p = paymentId
                         ∧ Billing.Payment.clinic_id p = clinic)
              then f p else p) <$> rows))
  = f <$> filter (λ p, Billing.Payment.clinic_id p = clinic)
            (filter (λ p, Billing.Payment.id p = paymentId) rows).
Proof.
  intros Hf. induction rows as [|p rows IH]; [done|].
  rewrite fmap_cons. destruct (Hf p) as [Hid' Hc'].
  rewrite (filter_cons (λ p, Billing.Payment.id p = paymentId) p).
  rewrite (filter_cons (λ p, Billing.Payment.id p = paymentId)).
  destruct (decide (Billing.Payment.id p = paymentId)) as [Hid|Hid];
    destruct (decide (Billing.Payment.clinic_id p = clinic)) as [Hc|Hc].
  - rewrite (decide_True (P := _ ∧ _)) by done.
    rewrite decide_True by congruence.
    rewrite !filter_cons. rewrite !decide_True by congruence.
    by rewrite fmap_cons, IH.
  - rewrite (decide_False (P := _ ∧ _)) by (by intros [? ?]).
    rewrite decide_True by done.
    rewrite !filter_cons. by rewrite !decide_False by done.
  - rewrite (decide_False (P := _ ∧ _)) by (by intros [? ?]).
    by rewrite decide_False by done.
  - rewrite (decide_False (P := _ ∧ _)) by (by intros [? ?]).
    by rewrite decide_False by done.
Qed.

Lemma apply_verification_key auth notes verified p :
  Billing.Payment.id (Billing.apply_verification auth notes verified p)
  = Billing.Payment.id p
  ∧ Billing.Payment.clinic_id (Billing.apply_verification auth notes verified p)
    = Billing.Payment.clinic_id p.
Proof. done. Qed.

Lemma updateInvoicePaymentStatus_payments env invoiceId clinic s :
  Billing.payments (Billing.updateInvoicePaymentStatus env invoiceId clinic s)
  = Billing.payments s.
Proof.
  unfold Billing.updateInvoicePaymentStatus, Billing.write.
  by destruct (Billing.fails env Billing.UpdateInvoice).
Qed.

Lemma updateInvoicePaymentStatus_facts env invoiceId clinic s :
  invoice_facts <$>
    Billing.invoices (Billing.updateInvoicePaymentStatus env invoiceId clinic s)
  = invoice_facts <$> Billing.invoices s.
Proof.
  unfold Billing.updateInvoicePaymentStatus, Billing.write.
  destruct (Billing.fails env Billing.UpdateInvoice); [done|].
  cbn [Billing.invoices Billing.set_invoices].
  rewrite <- list_fmap_compose. apply list_fmap_ext.
  intros _ i _. cbn. by case_decide.
Qed.

(** What a verification that succeeds has done. *)
Lemma verifyPayment_success env auth paymentId notes verified s :
  Billing.success
    (snd (Billing.verifyPayment env auth paymentId notes verified s)) = true →
  ∃ p,
    filter (λ p, Billing.Payment.clinic_id p = clinicId auth)
      (filter (λ p, Billing.Payment.id p = paymentId) (Billing.payments s))
    = [p]
    ∧ Billing.Payment.verification_status p ≠ "verified"
    ∧ Billing.payments
        (fst (Billing.verifyPayment env auth paymentId notes verified s))
      = (λ p, if decide (Billing.Payment.id p = paymentId
                         ∧ Billing.Payment.clinic_id p = clinicId auth)
              then Billing.apply_verification auth notes verified p else p)
        <$> Billing.payments s
    ∧ Billing.data
        (snd (Billing.verifyPayment env auth paymentId notes verified s))
      = Some (Billing.apply_verification auth notes verified p).
Proof.
  unfold Billing.verifyPayment.
  destruct (Billing.select_payment env s paymentId (clinicId auth))
    as [p|] eqn:Hselect; [|done].
  apply select_payment_found in Hselect.
  case_decide as Hverified; [done|].
  unfold Billing.update_payment.
  destruct (Billing.fails env Billing.UpdatePayment); [done|].
  rewrite Hselect. cbn [fmap list_fmap single fst snd].
  intros _. exists p. repeat split; [done..|].
  unfold Billing.write.
  assert (∀ s0, Billing.payments
            (if Billing.fails env Billing.InsertActivityLog then s0
             else Billing.set_activity_logs
                    (Billing.activity_logs s0 ++
                     [Billing.verification_log auth paymentId p notes
                        verified]) s0)
          = Billing.payments s0) as ->.
  { intros s0. by destruct (Billing.fails env Billing.InsertActivityLog). }
  destruct verified; [|done].
  unfold Billing.updateAppointmentPaymentStatus.
  destruct (Billing.Payment.invoice_id p) as [[|c rest]|];
    destruct (Billing.Payment.appointment_id p) as [[|c' rest']|];
    by rewrite ?updateInvoicePaymentStatus_payments.
Qed.

(** The store of a verification that fails is the store it started from. *)
Lemma verifyPayment_failure env auth paymentId notes verified s :
  Billing.success
    (snd (Billing.verifyPayment env auth paymentId notes verified s)) = false →
  fst (Billing.verifyPayment env auth paymentId notes verified s) = s.
Proof.
  unfold Billing.verifyPayment.
  destruct (Billing.select_payment env s paymentId (clinicId auth))
    as [p|]; [|done].
  case_decide; [done|].
  by destruct (Billing.update_payment _ _ _ _ _) as [[payment s1]|].
Qed.

End PaymentVerification.

(** X17.  A verified payment is final: after a verification has succeeded,
    every later attempt of the clinic to verify or to reject the payment
    fails and leaves the store as it is. *)
Theorem verified_payment_is_final (env : Billing.Env) (auth : Auth)
    (paymentId : string) (notes : option string) (s : Billing.Store) :
  Billing.success
    (snd (Billing.verifyPayment env auth paymentId notes true s)) = true →
  ∀ (env' : Billing.Env) (auth' : Auth) (notes' : option string)
    (verified' : bool),
    clinicId auth' = clinicId auth →
    let s1 := fst (Billing.verifyPayment env auth paymentId notes true s) in
    let again := Billing.verifyPayment env' auth' paymentId notes' verified' s1
    in
    fst again = s1 ∧ Billing.success (snd again) = false
    ∧ (Billing.fails env' Billing.SelectPayment = false →
       Billing.error (snd again) = Some "Payment is already verified").
Proof.
  intros Hsuccess env' auth' notes' verified' Hclinic.
  destruct (verifyPayment_success _ _ _ _ _ _ Hsuccess)
    as (p & Hselect & _ & Hpayments & _).
  remember (fst (Billing.verifyPayment env auth paymentId notes true s))
    as s1 eqn:Hs1. clear Hs1. cbv zeta.
  unfold Billing.verifyPayment, Billing.select_payment.
  destruct (Billing.fails env' Billing.SelectPayment); [done|].
  rewrite Hclinic, Hpayments.
  rewrite updated_selection by apply apply_verification_key.
  rewrite Hselect. cbn [fmap list_fmap single].
  by rewrite decide_True by done.
Qed.

Lemma verified_payment_is_final_witness :
  Billing.success
    (snd (Billing.verifyPayment Receipts.accepting Sample.auth
            Receipts.payment2 None true Receipts.ledger)) = true
  ∧ let s1 := fst (Billing.verifyPayment Receipts.accepting Sample.auth
                     Receipts.payment2 None true Receipts.ledger) in
    let again := Billing.verifyPayment Receipts.accepting Sample.auth
                   Receipts.payment2 (Some "wrong amount") false s1 in
    fst again = s1 ∧ Billing.success (snd again) = false
    ∧ (Billing.fails Receipts.accepting Billing.SelectPayment = false →
       Billing.error (snd again) = Some "Payment is already verified").
Proof.
  split; [reflexivity|].
  apply (verified_payment_is_final Receipts.accepting Sample.auth
           Receipts.payment2 None Receipts.ledger);
    reflexivity.
Defined.

(** X18.  A rejection is not final: a payment that has been rejected is
    verified by a later call that the store answers, and comes back
    verified and confirmed. *)
Theorem rejected_payment_can_be_verified (env : Billing.Env) (auth : Auth)
    (paymentId : string) (notes : option string) (s : Billing.Store) :
  Billing.success
    (snd (Billing.verifyPayment env auth paymentId notes false s)) = true →
  ∀ (env' : Billing.Env) (auth' : Auth) (notes' : option string),
    clinicId auth' = clinicId auth →
    Billing.fails env' Billing.SelectPayment = false →
    Billing.fails env' Billing.UpdatePayment = false →
    let s1 := fst (Billing.verifyPayment env auth paymentId notes false s) in
    ∃ payment,
      snd (Billing.verifyPayment env' auth' paymentId notes' true s1)
      = Billing.succeeded payment
      ∧ Billing.Payment.id payment = paymentId
      ∧ Billing.Payment.verification_status payment = "verified"
      ∧ Billing.Payment.status payment = "confirmed".
Proof.
  intros Hsuccess env' auth' notes' Hclinic Hsel Hupd.
  destruct (verifyPayment_success _ _ _ _ _ _ Hsuccess)
    as (p & Hselect & _ & Hpayments & _).
  remember (fst (Billing.verifyPayment env auth paymentId notes false s))
    as s1 eqn:Hs1. clear Hs1. cbv zeta.
  assert (Billing.Payment.id p = paymentId) as Hid.
  { assert (p ∈ [p]) as Hin by set_solver. rewrite <- Hselect in Hin.
    apply list_elem_of_filter in Hin as [_ Hin].
    by apply list_elem_of_filter in Hin as [? _]. }
  unfold Billing.verifyPayment, Billing.select_payment, Billing.update_payment.
  rewrite Hsel, Hupd, Hclinic, Hpayments.
  rewrite updated_selection by apply apply_verification_key.
  rewrite Hselect. cbn [fmap list_fmap single].
  rewrite decide_False by done. cbn [snd].
  eexists. split; [reflexivity|]. done.
Qed.

Lemma rejected_payment_can_be_verified_witness :
  Billing.success
    (snd (Billing.verifyPayment Receipts.accepting Sample.auth
            Receipts.payment2 (Some "unreadable receipt") false
            Receipts.ledger)) = true
  ∧ clinicId Sample.auth = clinicId Sample.auth
  ∧ Billing.fails Receipts.accepting Billing.SelectPayment = false
  ∧ Billing.fails Receipts.accepting Billing.UpdatePayment = false
  ∧ let s1 := fst (Billing.verifyPayment Receipts.accepting Sample.auth
                     Receipts.payment2 (Some "unreadable receipt") false
                     Receipts.ledger) in
    ∃ payment,
      snd (Billing.verifyPayment Receipts.accepting Sample.auth
             Receipts.payment2 None true s1)
      = Billing.succeeded payment
      ∧ Billing.Payment.id payment = Receipts.payment2
      ∧ Billing.Payment.verification_status payment = "verified"
      ∧ Billing.Payment.status payment = "confirmed".
Proof.
  split; [reflexivity|]. split; [reflexivity|]. split; [reflexivity|].
  split; [reflexivity|].
  apply (rejected_payment_can_be_verified Receipts.accepting Sample.auth
           Receipts.payment2 (Some "unreadable receipt") Receipts.ledger);
    reflexivity.
Defined.


Section InvoiceStatus.

Lemma foldl_amounts (rows : list Billing.Payment.row) (a : Z) :
  foldl (λ sum payment, sum + Billing.Payment.amount payment) a rows
  = a + foldr Z.add 0 (Billing.Payment.amount <$> rows).
Proof.
  revert a. induction rows as [|p rows IH]; intros a; cbn; [lia|].
  rewrite IH. lia.
Qed.

Lemma total_of_sum (rows : list Billing.Payment.row) :
  Billing.total_of (Some rows)
  = foldr Z.add 0 (Billing.Payment.amount <$> rows).
Proof. unfold Billing.total_of. by rewrite foldl_amounts. Qed.

Lemma total_of_nonneg (rows : option (list Billing.Payment.row)) :
  (∀ rs, rows = Some rs → Forall (λ p, 0 ≤ Billing.Payment.amount p) rs) →
  0 ≤ Billing.total_of rows.
Proof.
  destruct rows as [rs|]; [|done]. intros Hrows.
  specialize (Hrows rs eq_refl). rewrite total_of_sum.
  induction Hrows as [|p rs Hp _ IH]; cbn; lia.
Qed.

(** A key selects the one row that carries it. *)
Lemma NoDup_filter_single {A} (key : A → string) (l : list A) (x : A) :
  NoDup (key <$> l) → x ∈ l → filter (λ y, key y = key x) l = [x].
Proof.
  induction l as [|a l IH]; [by intros _ ?%elem_of_nil|].
  rewrite fmap_cons, NoDup_cons. intros [Ha Hl] Hx.
  apply elem_of_cons in Hx as [->|Hx].
  - rewrite filter_cons_True by done. f_equal.
    apply filter_none. intros y Hy Hkey. apply Ha.
    rewrite <- Hkey. apply list_elem_of_fmap. eauto.
  - rewrite filter_cons_False; [by apply IH|].
    intros Hkey. apply Ha. rewrite Hkey. apply list_elem_of_fmap. eauto.
Qed.

Lemma confirmed_paid_total invoiceId s :
  Billing.total_of
    (Some (filter (λ p, Billing.Payment.status p = "confirmed")
             (filter (λ p, Billing.Payment.invoice_id p = Some invoiceId)
                (Billing.payments s))))
  = confirmed_paid invoiceId s.
Proof.
  rewrite total_of_sum. unfold confirmed_paid. do 2 f_equal.
  rewrite list_filter_filter. apply list_filter_iff.
  intros x. split; by intros [? ?].
Qed.

(** The status [updateInvoicePaymentStatus] stores when the store answers
    its three calls. *)
Lemma updateInvoicePaymentStatus_settles env invoiceId clinic s inv :
  Billing.fails env Billing.SelectInvoicePayments = false →
  Billing.fails env Billing.SelectInvoice = false →
  Billing.fails env Billing.UpdateInvoice = false →
  NoDup (Billing.Invoice.id <$> Billing.invoices s) →
  inv ∈ Billing.invoices
          (Billing.updateInvoicePaymentStatus env invoiceId clinic s) →
  Billing.Invoice.id inv = invoiceId →
  Billing.Invoice.payment_status inv
  = if decide (Billing.Invoice.total_amount inv ≤ confirmed_paid invoiceId s)
    then "paid"
    else if decide (0 < confirmed_paid invoiceId s) then "partial"
    else "pending".
Proof.
  intros Hpayments Hinvoice Hupdate Hkeys.
  unfold Billing.updateInvoicePaymentStatus, Billing.write.
  rewrite Hpayments, Hinvoice, Hupdate.
  cbn [Billing.invoices Billing.set_invoices].
  rewrite confirmed_paid_total.
  intros (inv0 & -> & Hinv0)%list_elem_of_fmap.
  case_decide as Hid; [|done]. cbn [Billing.Invoice.id]. intros _.
  cbn [Billing.Invoice.payment_status Billing.Invoice.total_amount].
  rewrite <- Hid, (NoDup_filter_single _ _ _ Hkeys Hinv0). cbn [single].
  rewrite Hid.
  destruct (Z.leb_spec (Billing.Invoice.total_amount inv0)
              (confirmed_paid invoiceId s)).
  { by rewrite decide_True by done. }
  rewrite decide_False by lia.
  destruct (Z.ltb_spec 0 (confirmed_paid invoiceId s)).
  - by rewrite decide_True by done.
  - by rewrite decide_False by lia.
Qed.

Lemma filter_others (f : Billing.Payment.row → Billing.Payment.row)
    paymentId clinic (rows : list Billing.Payment.row) :
  (∀ p, Billing.Payment.id (f p) = Billing.Payment.id p) →
  filter (λ p, Billing.Payment.id p ≠ paymentId)
    ((λ p, if decide (Billing.Payment.id p = paymentId
                      ∧ Billing.Payment.clinic_id p = clinic)
           then f p else p) <$> rows)
  = filter (λ p, Billing.Payment.id p ≠ paymentId) rows.
Proof.
  intros Hf. induction rows as [|p rows IH]; [done|].
  rewrite fmap_cons, !filter_cons, IH.
  destruct (decide (Billing.Payment.id p = paymentId
                    ∧ Billing.Payment.clinic_id p = clinic))
    as [[Hid _]|]; [|done].
  by rewrite !decide_False
    by (rewrite ?Hf; intros Hother; by apply Hother).
Qed.

Lemma verifyPayment_invoice_facts env auth paymentId notes verified s :
  invoice_facts <$>
    Billing.invoices
      (fst (Billing.verifyPayment env auth paymentId notes verified s))
  = invoice_facts <$> Billing.invoices s.
Proof.
  unfold Billing.verifyPayment.
  destruct (Billing.select_payment env s paymentId (clinicId auth))
    as [p|]; [|done].
  case_decide; [done|].
  destruct (Billing.update_payment _ _ _ _ _) as [[payment s1]|] eqn:Hupdate;
    [|done].
  assert (Billing.invoices s1 = Billing.invoices s) as Hs1.
  { unfold Billing.update_payment in Hupdate.
    destruct (Billing.fails env Billing.UpdatePayment); [done|].
    destruct (single _); [|done]. by injection Hupdate as _ <-. }
  cbn [fst]. unfold Billing.write, Billing.updateAppointmentPaymentStatus.
  rewrite <- Hs1.
  destruct (Billing.fails env Billing.InsertActivityLog), verified,
    (Billing.Payment.invoice_id p) as [[|c rest]|],
    (Billing.Payment.appointment_id p) as [[|c' rest']|];
    cbn [Billing.invoices Billing.set_activity_logs];
    by rewrite ?updateInvoicePaymentStatus_facts.
Qed.

End InvoiceStatus.

(** X19.  Verifying a payment brings its invoice up to date: when the
    store answers the calls, the invoice of the payment is afterwards
    marked paid if the confirmed payments stored for it reach its total,
    partial if they are positive and fall short of it, and pending
    otherwise.  The payment just verified is stored as confirmed and
    counts among them. *)
Theorem verification_settles_invoice (env : Billing.Env) (auth : Auth)
    (paymentId : string) (notes : option string) (s : Billing.Store)
    (p : Billing.Payment.row) (invoiceId : string) :
  Billing.success
    (snd (Billing.verifyPayment env auth paymentId notes true s)) = true →
  p ∈ Billing.payments s →
  Billing.Payment.id p = paymentId →
  Billing.Payment.clinic_id p = clinicId auth →
  Billing.Payment.invoice_id p = Some invoiceId →
  invoiceId ≠ EmptyString →
  Billing.fails env Billing.SelectInvoicePayments = false →
  Billing.fails env Billing.SelectInvoice = false →
  Billing.fails env Billing.UpdateInvoice = false →
  NoDup (Billing.Invoice.id <$> Billing.invoices s) →
  let s' := fst (Billing.verifyPayment env auth paymentId notes true s) in
  Billing.apply_verification auth notes true p ∈ Billing.payments s'
  ∧ ∀ inv, inv ∈ Billing.invoices s' →
      Billing.Invoice.id inv = invoiceId →
      Billing.Invoice.payment_status inv
      = if decide (Billing.Invoice.total_amount inv
                   ≤ confirmed_paid invoiceId s')
        then "paid"
        else if decide (0 < confirmed_paid invoiceId s') then "partial"
        else "pending".
Proof.
  intros Hsuccess Hp Hid Hclinic Hinvoice Hnonempty Hpays Hinv Hupd Hkeys.
  destruct (verifyPayment_success _ _ _ _ _ _ Hsuccess)
    as (p0 & Hselect & _ & Hpayments & _).
  assert (p0 = p) as ->.
  { assert (p ∈ [p0]) as Hin; [|by apply list_elem_of_singleton in Hin].
    rewrite <- Hselect. by do 2 (apply list_elem_of_filter; split; [done|]). }
  cbv zeta. split.
  { rewrite Hpayments. apply list_elem_of_fmap. exists p.
    split; [|done]. by rewrite decide_True by done. }
  intros inv. unfold confirmed_paid. rewrite Hpayments.
  revert Hsuccess. unfold Billing.verifyPayment, Billing.select_payment,
    Billing.update_payment.
  destruct (Billing.fails env Billing.SelectPayment); [done|].
  rewrite Hselect. cbn [single fmap list_fmap].
  case_decide; [done|].
  destruct (Billing.fails env Billing.UpdatePayment); [done|].
  intros _. cbn [fst]. rewrite Hinvoice.
  destruct invoiceId as [|c rest]; [done|].
  unfold Billing.updateAppointmentPaymentStatus.
  set (s1 := Billing.set_payments _ s).
  assert ((match Billing.Payment.appointment_id p with
           | Some (String _ _) => s1
           | _ => s1
           end) = s1) as ->.
  { by destruct (Billing.Payment.appointment_id p) as [[|]|]. }
  unfold Billing.write at 1.
  assert (∀ s0 x, Billing.invoices
            (if Billing.fails env Billing.InsertActivityLog then s0
             else Billing.set_activity_logs x s0)
          = Billing.invoices s0) as Hlog.
  { intros s0 x. by destruct (Billing.fails env Billing.InsertActivityLog). }
  rewrite Hlog. intros Hin Hidinv.
  apply (updateInvoicePaymentStatus_settles env (String c rest)
           (clinicId auth) s1 inv); done.
Qed.


Lemma verification_settles_invoice_witness :
  let s' := fst (Billing.verifyPayment Receipts.accepting Sample.auth
                   Receipts.payment2 None true Receipts.ledger) in
  Billing.apply_verification Sample.auth None true Receipts.gcash_payment
    ∈ Billing.payments s'
  ∧ ∀ inv, inv ∈ Billing.invoices s' →
      Billing.Invoice.id inv = Receipts.invoice1 →
      Billing.Invoice.payment_status inv
      = if decide (Billing.Invoice.total_amount inv
                   ≤ confirmed_paid Receipts.invoice1 s')
        then "paid"
        else if decide (0 < confirmed_paid Receipts.invoice1 s')
        then "partial"
        else "pending".
Proof.
  apply (verification_settles_invoice Receipts.accepting Sample.auth
           Receipts.payment2 None Receipts.ledger Receipts.gcash_payment
           Receipts.invoice1);
    first [ reflexivity | done | compute_done ].
Defined.

(** The invoice of the sample is paid in full once the GCash payment is
    verified. *)
Example verified_gcash_pays_the_invoice :
  Billing.Invoice.payment_status <$>
    Billing.invoices
      (fst (Billing.verifyPayment Receipts.accepting Sample.auth
              Receipts.payment2 None true Receipts.ledger))
  = ["paid"].
Proof. reflexivity. Qed.

(** X20.  When the store does not answer the read of the invoice while it
    accepts the update, [updateInvoicePaymentStatus] takes the total for
    zero: the invoice is marked paid, whatever it amounts to, as long as
    no stored payment is negative. *)
Theorem unread_invoice_is_marked_paid (env : Billing.Env)
    (invoiceId clinic : string) (s : Billing.Store) :
  Billing.fails env Billing.SelectInvoice = true →
  Billing.fails env Billing.UpdateInvoice = false →
  Forall (λ p, 0 ≤ Billing.Payment.amount p) (Billing.payments s) →
  ∀ inv,
    inv ∈ Billing.invoices
            (Billing.updateInvoicePaymentStatus env invoiceId clinic s) →
    Billing.Invoice.id inv = invoiceId →
    Billing.Invoice.payment_status inv = "paid".
Proof.
  intros Hread Hupdate Hamounts inv.
  unfold Billing.updateInvoicePaymentStatus, Billing.write.
  rewrite Hread, Hupdate. cbn [Billing.invoices Billing.set_invoices].
  intros (inv0 & -> & _)%list_elem_of_fmap.
  case_decide; [|done]. intros _. cbn [Billing.Invoice.payment_status].
  match goal with
  | |- context [0 <=? Billing.total_of ?rows] =>
      assert (0 ≤ Billing.total_of rows) as Hpaid
  end.
  { apply total_of_nonneg. intros rs Hrs.
    destruct (Billing.fails env Billing.SelectInvoicePayments); [done|].
    injection Hrs as <-. rewrite Forall_forall in Hamounts.
    apply Forall_forall. intros p Hp.
    apply list_elem_of_filter in Hp as [_ Hp].
    apply list_elem_of_filter in Hp as [_ Hp]. by apply Hamounts. }
  apply Z.leb_le in Hpaid. by rewrite Hpaid.
Qed.

Lemma unread_invoice_is_marked_paid_witness :
  Billing.fails Receipts.blind Billing.SelectInvoice = true
  ∧ Billing.fails Receipts.blind Billing.UpdateInvoice = false
  ∧ Forall (λ p, 0 ≤ Billing.Payment.amount p)
      (Billing.payments Receipts.ledger)
  ∧ ∀ inv,
      inv ∈ Billing.invoices
              (Billing.updateInvoicePaymentStatus Receipts.blind
                 Receipts.invoice1 Sample.clinic Receipts.ledger) →
      Billing.Invoice.id inv = Receipts.invoice1 →
      Billing.Invoice.payment_status inv = "paid".
Proof.
  split; [reflexivity|]. split; [reflexivity|]. split; [compute_done|].
  apply (unread_invoice_is_marked_paid Receipts.blind Receipts.invoice1
           Sample.clinic Receipts.ledger);
    first [ reflexivity | compute_done ].
Defined.

(** The invoice of 1500.00 with 500.00 paid is marked paid by a run whose
    read of the invoice fails. *)
Example unread_invoice_of_the_sample :
  Billing.Invoice.payment_status <$>
    Billing.invoices
      (Billing.updateInvoicePaymentStatus Receipts.blind Receipts.invoice1
         Sample.clinic Receipts.ledger)
  = ["paid"]
  ∧ Billing.Invoice.payment_status <$>
      Billing.invoices
        (Billing.updateInvoicePaymentStatus Receipts.accepting
           Receipts.invoice1 Sample.clinic Receipts.ledger)
    = ["partial"].
Proof. split; reflexivity. Qed.

(** X21.  Whatever its outcome, [verifyPayment] keeps the books: no
    payment and no invoice is added or removed, no amount, total, number,
    method or link of a payment or an invoice changes, and the payments
    with another identifier stay as they are. *)
Theorem verifyPayment_keeps_the_books (env : Billing.Env) (auth : Auth)
    (paymentId : string) (notes : option string) (verified : bool)
    (s : Billing.Store) :
  let s' := fst (Billing.verifyPayment env auth paymentId notes verified s) in
  payment_facts <$> Billing.payments s' = payment_facts <$> Billing.payments s
  ∧ invoice_facts <$> Billing.invoices s'
    = invoice_facts <$> Billing.invoices s
  ∧ filter (λ p, Billing.Payment.id p ≠ paymentId) (Billing.payments s')
    = filter (λ p, Billing.Payment.id p ≠ paymentId) (Billing.payments s).
Proof.
  cbv zeta. split; [|split; [apply verifyPayment_invoice_facts|]].
  - destruct (Billing.success
                (snd (Billing.verifyPayment env auth paymentId notes verified
                        s))) eqn:Hsuccess.
    + destruct (verifyPayment_success _ _ _ _ _ _ Hsuccess)
        as (p & _ & _ & -> & _).
      rewrite <- list_fmap_compose. apply list_fmap_ext.
      intros _ q _. cbn. by case_decide.
    + by rewrite verifyPayment_failure.
  - destruct (Billing.success
                (snd (Billing.verifyPayment env auth paymentId notes verified
                        s))) eqn:Hsuccess.
    + destruct (verifyPayment_success _ _ _ _ _ _ Hsuccess)
        as (p & _ & _ & -> & _).
      by apply filter_others.
    + by rewrite verifyPayment_failure.
Qed.

(** X22.  A payment of another clinic can be neither verified nor
    rejected: when no payment with the identifier belongs to the caller's
    clinic, [verifyPayment] fails and leaves the store as it is. *)
Theorem foreign_payment_is_not_verified (env : Billing.Env) (auth : Auth)
    (paymentId : string) (notes : option string) (verified : bool)
    (s : Billing.Store) :
  Forall (λ p, Billing.Payment.id p = paymentId →
               Billing.Payment.clinic_id p ≠ clinicId auth)
         (Billing.payments s) →
  Billing.verifyPayment env auth paymentId notes verified s
  = (s, Billing.failed "Payment not found or access denied").
Proof.
  intros Hforeign. unfold Billing.verifyPayment, Billing.select_payment.
  destruct (Billing.fails env Billing.SelectPayment); [done|].
  rewrite (filter_none (λ p, Billing.Payment.clinic_id p = clinicId auth));
    [done|].
  intros p Hp%list_elem_of_filter. destruct Hp as [Hid Hp].
  rewrite Forall_forall in Hforeign. by apply Hforeign.
Qed.

Lemma foreign_payment_is_not_verified_witness :
  Billing.verifyPayment Receipts.accepting Cases.outsider Receipts.payment2
    None true Receipts.ledger
  = (Receipts.ledger, Billing.failed "Payment not found or access denied").
Proof.
  apply (foreign_payment_is_not_verified Receipts.accepting Cases.outsider
           Receipts.payment2 None true Receipts.ledger).
  compute_done.
Defined.


Section RunningBalance.

Lemma confirmed_sum_app (l1 l2 : list Billing.Payment.row) :
  confirmed_sum (l1 ++ l2) = confirmed_sum l1 + confirmed_sum l2.
Proof.
  unfold confirmed_sum. rewrite filter_app, fmap_app.
  induction (Billing.Payment.amount <$> filter _ l1) as [|x l IH]; cbn; lia.
Qed.

Lemma confirmed_sum_one (p : Billing.Payment.row) :
  confirmed_sum [p]
  = if decide (Billing.Payment.status p = "confirmed")
    then Billing.Payment.amount p else 0.
Proof.
  unfold confirmed_sum. rewrite filter_cons, filter_nil.
  case_decide; cbn; lia.
Qed.

(** The counter at a row of the list that is shown, from the value it
    started with. *)
Lemma map_with_balance_reverse format (payments : list Billing.Payment.row) :
  ∀ (acc : Z) (k : nat) (e : Billing.PaymentWithBalance),
    reverse (Billing.map_with_balance format acc payments) !! k = Some e →
    Billing.runningBalance e
    = acc + confirmed_sum
              (Billing.payment <$>
                 drop k (reverse (Billing.map_with_balance format acc
                                    payments))).
Proof.
  induction payments as [|p payments IH]; intros acc k e; [done|].
  cbn [Billing.map_with_balance]. cbv zeta. rewrite reverse_cons.
  set (acc' := if decide (Billing.Payment.status p = "confirmed")
               then acc + Billing.Payment.amount p else acc).
  set (shown := reverse (Billing.map_with_balance format acc' payments)).
  intros [He|[Hk He]]%lookup_app_Some.
  - apply lookup_lt_Some in He as Hlt.
    rewrite drop_app_le by lia. rewrite fmap_app, confirmed_sum_app.
    rewrite (IH acc' k e He). fold shown. cbn [fmap list_fmap Billing.payment].
    rewrite confirmed_sum_one. subst acc'. case_decide; lia.
  - destruct (k - length shown)%nat as [|?] eqn:Hdiff; [|done].
    injection He as <-. cbn [Billing.runningBalance].
    rewrite drop_app_ge by lia. rewrite Hdiff.
    cbn [drop fmap list_fmap Billing.payment].
    rewrite confirmed_sum_one. subst acc'. case_decide; lia.
Qed.

Lemma map_with_balance_payments format acc (payments : list Billing.Payment.row) :
  Billing.payment <$> Billing.map_with_balance format acc payments = payments.
Proof.
  revert acc. induction payments as [|p payments IH]; intros acc; [done|].
  cbn. by rewrite IH.
Qed.

End RunningBalance.

(** X23.  The payment history lists the payments in the reverse of the
    order the query returned them (the oldest first), and the running
    balance shown with a payment is the sum of the confirmed payments
    from that payment on to the end of the list: the balance is counted
    from the latest payment backwards, the oldest payment shows the total
    of all of them. *)
Theorem running_balance_counts_backwards (format : Z → string)
    (payments : list Billing.Payment.row) :
  let shown := Billing.paymentsWithBalance format payments in
  Billing.payment <$> shown = reverse payments
  ∧ ∀ (k : nat) (e : Billing.PaymentWithBalance),
      shown !! k = Some e →
      Billing.runningBalance e
      = confirmed_sum (Billing.payment <$> drop k shown).
Proof.
  cbv zeta. unfold Billing.paymentsWithBalance. split.
  - by rewrite fmap_reverse, map_with_balance_payments.
  - intros k e He. by rewrite (map_with_balance_reverse _ _ _ _ _ He).
Qed.

(** The history of the sample, both payments confirmed: the cash payment
    of 500.00 came first and shows 1500.00, the GCash payment of 1000.00
    came last and shows 1000.00. *)
Example history_of_the_sample :
  (λ e, (Billing.Payment.payment_method (Billing.payment e),
         Billing.runningBalance e)) <$>
    Billing.paymentsWithBalance (λ _, EmptyString)
      [Billing.apply_verification Sample.auth None true Receipts.gcash_payment;
       Receipts.cash_payment]
  = [("cash", 150000); ("gcash", 100000)].
Proof. reflexivity. Qed.


Section PaymentNumbers.

Lemma append_assoc (s1 s2 s3 : string) :
  (s1 +:+ s2) +:+ s3 = s1 +:+ (s2 +:+ s3).
Proof.
  induction s1 as [|c s1 IH]; [done|].
  change (String c ((s1 +:+ s2) +:+ s3) = String c (s1 +:+ (s2 +:+ s3))).
  by rewrite IH.
Qed.

Lemma append_inj (s t1 t2 : string) : s +:+ t1 = s +:+ t2 → t1 = t2.
Proof.
  induction s as [|c s IH]; simpl; [done|]. intros [= H]. by apply IH.
Qed.

Lemma prefix_append (s t : string) : String.prefix s (s +:+ t) = true.
Proof.
  induction s as [|c s IH]; simpl; [by destruct t|].
  by destruct (ascii_dec c c).
Qed.

(** What else a digit character is not. *)
Lemma digit_char_plain c d :
  JS.digit c = Some d →
  Billing.is_space c = false
  ∧ Ascii.eqb c "x" = false ∧ Ascii.eqb c "X" = false.
Proof.
  destruct c as [[] [] [] [] [] [] [] []]; intros H; vm_compute in H;
    first [ discriminate H | done ].
Qed.

Lemma is_digit_not_minus c :
  is_digit c = true → negb (Ascii.eqb c "-") = true.
Proof.
  unfold is_digit. destruct (JS.digit c) as [d|] eqn:Hd; [|done].
  apply digit_char in Hd as (_ & _ & -> & _). done.
Qed.

Lemma split_whole sep s :
  string_forall (λ c, negb (Ascii.eqb c sep)) s = true →
  JS.split sep s = [s].
Proof.
  induction s as [|c s IH]; [done|]. cbn [string_forall JS.split].
  intros [Hc Hs]%andb_prop. apply negb_true_iff in Hc.
  by rewrite Hc, IH.
Qed.

(** The digits that [digits] reads are the digits [parseInt] stops
    after. *)
Lemma digit_prefix_digits s :
  ∀ a v, JS.digits a s = Some v →
    Billing.digit_prefix 10 JS.digit (Some a) s = Some v.
Proof.
  induction s as [|c s IH]; intros a v; cbn; [done|].
  destruct (JS.digit c) as [d|]; [|done]. apply IH.
Qed.

Lemma parseInt_digits c rest d v :
  JS.digit c = Some d →
  JS.digits 0 (String c rest) = Some v →
  Billing.parseInt (String c rest) = Some v.
Proof.
  intros Hd Hv. unfold Billing.parseInt.
  destruct (digit_char _ _ Hd) as (_ & _ & Hminus & Hplus).
  destruct (digit_char_plain _ _ Hd) as (Hspace & _).
  cbn [Billing.trim_start]. rewrite Hspace, Hminus, Hplus.
  assert (Billing.digit_prefix 10 JS.digit None (String c rest) = Some v)
    as Hprefix.
  { cbn [JS.digits] in Hv. cbn [Billing.digit_prefix]. rewrite Hd in Hv |- *.
    by apply digit_prefix_digits. }
  destruct rest as [|x rest].
  { rewrite Hprefix. cbn. f_equal. lia. }
  assert (Ascii.eqb x "x" || Ascii.eqb x "X" = false) as Hx.
  { cbn [JS.digits] in Hv. rewrite Hd in Hv.
    destruct (JS.digit x) as [dx|] eqn:Hdx; [|done].
    by destruct (digit_char_plain _ _ Hdx) as (_ & -> & ->). }
  rewrite Hx, andb_false_r, Hprefix. cbn. f_equal. lia.
Qed.

(** The text of a sequence number that is not negative: digits, that
    [parseInt] reads back. *)
Lemma sequence_text_digits (n : Z) :
  0 ≤ n →
  string_forall is_digit (Billing.sequence_text (Some n)) = true
  ∧ Billing.parseInt (Billing.sequence_text (Some n)) = Some n.
Proof.
  intros Hn. unfold Billing.sequence_text.
  pose proof (digits_toString n Hn) as Hdigits.
  assert (JS.digits 0 (JS.padStart 4 "0" (JS.toString n)) = Some n)
    as Hpadded.
  { unfold JS.padStart. by rewrite digits_zeros, Z.mul_0_r. }
  split; [by eapply digits_forall|].
  destruct (JS.padStart 4 "0" (JS.toString n)) as [|c rest] eqn:Hs.
  - exfalso. unfold JS.padStart in Hs.
    destruct (JS.toString n) as [|c rest] eqn:Hstr.
    + destruct n as [|p|p]; [done| |lia]. unfold JS.toString in Hstr.
      cbn [Z.to_int NilZero.string_of_int] in Hstr.
      destruct (to_uint_string p) as (Heq & c & rest & Hcons). congruence.
    + by destruct (4 - String.length (String c rest))%nat.
  - cbn [JS.digits] in Hpadded.
    destruct (JS.digit c) as [d|] eqn:Hd; [|done].
    apply (parseInt_digits c rest d); [done|].
    cbn [JS.digits]. by rewrite Hd.
Qed.

Lemma no_minus_digits s :
  string_forall is_digit s = true →
  string_forall (λ c, negb (Ascii.eqb c "-")) s = true.
Proof. apply string_forall_impl, is_digit_not_minus. Qed.

(** The third piece of a payment number is its sequence number. *)
Lemma number_pieces year month tail :
  0 ≤ year → 0 ≤ month →
  string_forall is_digit tail = true →
  JS.split "-" (Billing.number_prefix year month +:+ tail) !! 2%nat
  = Some tail.
Proof.
  intros Hyear Hmonth Htail. unfold Billing.number_prefix.
  rewrite !append_assoc.
  change ("PAY-" +:+ ?rest) with ("PAY" +:+ String "-" rest).
  rewrite split_append by done.
  rewrite <- append_assoc.
  change ("-" +:+ tail) with (String "-" tail).
  rewrite split_append.
  - by rewrite split_whole by by apply no_minus_digits.
  - rewrite string_forall_app. apply andb_true_intro. split.
    + apply no_minus_digits. eapply digits_forall, digits_toString, Hyear.
    + apply no_minus_digits. unfold JS.padStart. rewrite string_forall_app.
      rewrite string_forall_repeat by done.
      eapply digits_forall, digits_toString, Hmonth.
Qed.

End PaymentNumbers.

(** X24.  Payment numbers are consecutive and fresh: when the payments of
    the clinic in the month are numbered 1 to [k] in the order of their
    creation ([k] may be 0), [generatePaymentNumber] returns the number
    [k + 1] of the month, which no payment of the clinic carries.  The
    sequence does not stop at four digits. *)
Theorem payment_numbers_are_consecutive (env : Billing.Env)
    (year month : Z) (clinic : string) (s : Billing.Store) (k : nat) :
  Billing.fails env Billing.SelectLastPayment = false →
  0 ≤ year → 0 ≤ month →
  Billing.Payment.payment_number <$>
    Billing.payments_like clinic (Billing.number_prefix year month) s
  = payment_number_of year month <$> range 1 k →
  Billing.generatePaymentNumber env year month clinic s
  = payment_number_of year month (Z.of_nat k + 1)
  ∧ Billing.generatePaymentNumber env year month clinic s
    ∉ Billing.Payment.payment_number <$>
        filter (λ p, Billing.Payment.clinic_id p = clinic)
               (Billing.payments s).
Proof.
  intros Hread Hyear Hmonth Hnumbered.
  assert (Billing.generatePaymentNumber env year month clinic s
          = payment_number_of year month (Z.of_nat k + 1)) as Hnext.
  { unfold Billing.generatePaymentNumber. rewrite Hread.
    unfold payment_number_of. f_equal.
    destruct k as [|k].
    - destruct (Billing.payments_like _ _ s); [done|discriminate Hnumbered].
    - unfold range in Hnumbered. rewrite seqZ_S, fmap_app in Hnumbered.
      apply (f_equal last) in Hnumbered.
      cbn [fmap list_fmap] in Hnumbered.
      rewrite fmap_last, last_snoc in Hnumbered.
      destruct (last (Billing.payments_like _ _ s)) as [p|]; [|done].
      injection Hnumbered as ->. unfold payment_number_of.
      destruct (sequence_text_digits (1 + Z.of_nat k)) as [Hdigits Hparse];
        [lia|].
      rewrite number_pieces, Hparse by done.
      cbn [JS.add mbind option_bind]. do 2 f_equal. lia. }
  split; [done|]. rewrite Hnext.
  intros (p & Hnumber & Hp)%list_elem_of_fmap.
  assert (Billing.Payment.payment_number p
          ∈ payment_number_of year month <$> range 1 k) as Hin.
  { rewrite <- Hnumbered. apply list_elem_of_fmap. exists p.
    split; [done|]. unfold Billing.payments_like.
    apply list_elem_of_filter. split; [|done].
    rewrite <- Hnumber. apply prefix_append. }
  apply list_elem_of_fmap in Hin as (j & Hj & Hrange).
  apply range_spec in Hrange. rewrite Hj in Hnumber.
  apply append_inj in Hnumber.
  destruct (sequence_text_digits j) as [_ Hparse_j]; [lia|].
  destruct (sequence_text_digits (Z.of_nat k + 1)) as [_ Hparse_k]; [lia|].
  rewrite Hnumber in Hparse_k. rewrite Hparse_j in Hparse_k.
  injection Hparse_k as ->. lia.
Qed.

Lemma payment_numbers_are_consecutive_witness :
  Billing.generatePaymentNumber Receipts.accepting 2024 6 Sample.clinic
    Receipts.ledger
  = payment_number_of 2024 6 (Z.of_nat 2 + 1)
  ∧ Billing.generatePaymentNumber Receipts.accepting 2024 6 Sample.clinic
      Receipts.ledger
    ∉ Billing.Payment.payment_number <$>
        filter (λ p, Billing.Payment.clinic_id p = Sample.clinic)
               (Billing.payments Receipts.ledger).
Proof.
  apply (payment_numbers_are_consecutive Receipts.accepting 2024 6
           Sample.clinic Receipts.ledger 2);
    first [ reflexivity | lia ].
Defined.

(** The third payment of June 2024, and the first of July. *)
Example numbers_of_the_sample :
  Billing.generatePaymentNumber Receipts.accepting 2024 6 Sample.clinic
    Receipts.ledger = "PAY-202406-0003"
  ∧ Billing.generatePaymentNumber Receipts.accepting 2024 7 Sample.clinic
      Receipts.ledger = "PAY-202407-0001".
Proof. split; reflexivity. Qed.

(** A read of the last payment that the store does not answer starts the
    month again: the number of the first payment is generated a second
    time. *)
Example unanswered_read_repeats_a_number :
  Billing.generatePaymentNumber
    {| Billing.fails := λ _, true |} 2024 6 Sample.clinic Receipts.ledger
  = Billing.Payment.payment_number Receipts.cash_payment.
Proof. reflexivity. Qed.
